(** * Passenger forecasting by linear trend: a shallow embedding of src/forecast.py

    The Python program reads wide monthly tables, reshapes them to a long
    series per category, fits a least-squares line against the sequential
    index t = 1..n, projects it forward and classifies the first projected
    step against the last observed value.

    Modelling conventions.
    - Numbers.  The functions whose arithmetic is written in the source
      ([_classify_direction], [_predict_future]) are given in binary64, the
      arithmetic of a Python float, on the primitive floats of Rocq (module
      [F64]): every sum and product is rounded as the processor rounds it,
      and NaN and the infinities are values.  The least-squares fit is library
      code ([sklearn], on LAPACK) whose rounding is not modelled: it is given
      by the closed forms it computes (centred least squares with the
      minimum-norm solution, and the coefficient of determination with its
      zero-denominator cases) over exact rationals ([Q]), with NaN as [None]
      of [option Q]; the functions that consume its results have a copy over
      [Q].  A statement over [Q] is about the program up to rounding.
    - A Python exception is the [Err] constructor of [result], carrying the
      exception class and its message.
    - Strings are byte strings ([string] of the standard library) holding the
      UTF-8 encoding, whose byte order is the code-point order Python sorts
      by.  Whitespace, digits and letter case are the ASCII ones: the string
      functions are those of Python on ASCII text, a byte-order mark apart,
      and the statements that depend on it say so.
    - A table is what [pd.read_csv] returns: a header and rows of cells.  The
      first cell of a row is its category name, read as text; a row without
      a category name is not a row of the model.  Reading a file and reading
      a text cell as a number are parameters of the loader.
    - [sort_values] on several keys is a stable sort; it is modelled by a
      stable insertion sort on the key. *)

From Stdlib Require Import ZArith QArith Qabs List String Ascii Bool Lia Lqa.
From Stdlib Require Import Sorted Permutation DecimalString.
From Stdlib Require Import Floats Uint63.
Import ListNotations.

Set Implicit Arguments.

(** ** Python values *)

Definition pyfloat := option Q.

Definition NaN : pyfloat := None.

Definition isna (x : pyfloat) : bool :=
  match x with
  | None => true
  | Some _ => false
  end.

(** The exceptions the program can end with: the [ValueError]s it raises
    itself, and whatever reading a file raises. *)
Inductive exn : Type :=
| ValueError (msg : string)
| IOError (msg : string).

Definition exn_msg (e : exn) : string :=
  match e with
  | ValueError m => m
  | IOError m => m
  end.

Inductive result (A : Type) : Type :=
| Ok (a : A)
| Err (e : exn).

Arguments Ok {A} a.
Arguments Err {A} e.

Definition bind {A B : Type} (r : result A) (k : A -> result B) : result B :=
  match r with
  | Ok a => k a
  | Err e => Err e
  end.

Notation "x <- r ;; k" := (bind r (fun x => k))
  (at level 61, r at next level, right associativity).

(** ** Numeric helpers (numpy) *)

Module Np.

Open Scope Q_scope.

(** [x > y] and [x < y] on floats. *)
Definition gtb (x y : Q) : bool := negb (Qle_bool x y).
Definition ltb (x y : Q) : bool := negb (Qle_bool y x).

(** Python's builtin [max(x, y)]: the first argument unless the second is
    strictly greater. *)
Definition max (x y : Q) : Q := if gtb y x then y else x.

(** [np.arange(start, stop)] on integers. *)
Definition arange (start stop : Z) : list Z :=
  map (fun i => (start + Z.of_nat i)%Z) (seq 0 (Z.to_nat (stop - start))).

Definition sum (l : list Q) : Q := fold_right Qplus 0 l.

Definition len (A : Type) (l : list A) : Z := Z.of_nat (List.length l).

Definition mean (l : list Q) : Q := sum l / inject_Z (len l).

Definition sq (x : Q) : Q := x * x.

End Np.

(** ** Least squares (sklearn) *)

Module Sk.

Open Scope Q_scope.

Record LinearRegression : Type := {
  intercept_ : Q;
  coef_ : Q
}.

Definition sxx (t : list Q) : Q :=
  Np.sum (map (fun ti => Np.sq (ti - Np.mean t)) t).

Definition sxy (t y : list Q) : Q :=
  Np.sum (map (fun p => (fst p - Np.mean t) * (snd p - Np.mean y)) (combine t y)).

(** [LinearRegression().fit(t, y)] with one feature and an intercept: the data
    are centred and the centred system is solved in the least-squares sense;
    when the centred feature is identically zero the minimum-norm solution has
    coefficient 0.  An empty sample is rejected. *)
Definition fit (t y : list Q) : option LinearRegression :=
  match y with
  | [] => None
  | _ :: _ =>
      let coef := if Qeq_bool (sxx t) 0 then 0 else sxy t y / sxx t in
      Some {| intercept_ := Np.mean y - Np.mean t * coef; coef_ := coef |}
  end.

Definition predict (m : LinearRegression) (t : list Q) : list Q :=
  map (fun ti => ti * coef_ m + intercept_ m) t.

(** Residual and total sums of squares. *)
Definition ss_res (y_true y_pred : list Q) : Q :=
  Np.sum (map (fun p => Np.sq (fst p - snd p)) (combine y_true y_pred)).

Definition ss_tot (y_true : list Q) : Q :=
  Np.sum (map (fun yi => Np.sq (yi - Np.mean y_true)) y_true).

(** [r2_score(y_true, y_pred)]: 1 - ss_res/ss_tot where both are non-zero,
    1 for a perfect fit, 0 for an imperfect fit of a constant target. *)
Definition r2_score (y_true y_pred : list Q) : Q :=
  let numerator := ss_res y_true y_pred in
  let denominator := ss_tot y_true in
  if negb (Qeq_bool numerator 0) then
    if negb (Qeq_bool denominator 0) then 1 - numerator / denominator else 0
  else 1.

End Sk.

(** ** Trend fitter and forecaster *)

Open Scope Q_scope.
Open Scope string_scope.

(** [_fit_linear_trend(y)]: fit y ~ a + b*t for t = 1..n and return
    (intercept, slope, r2); [None] when the regression rejects the sample. *)
Definition _fit_linear_trend (y : list Q) : option (Q * Q * Q) :=
  let n := Np.len y in
  let t := map inject_Z (Np.arange 1 (n + 1)) in
  match Sk.fit t y with
  | None => None
  | Some model =>
      let y_hat := Sk.predict model t in
      let r2 := if (n >=? 2)%Z then Sk.r2_score y y_hat else 1 in
      Some (Sk.intercept_ model, Sk.coef_ model, r2)
  end.

(** [_predict_future(a, b, n, horizon)]: a + b*t for t = n+1..n+horizon. *)
Definition _predict_future (a b : Q) (n horizon : Z) : list Q :=
  let future_t := Np.arange (n + 1) (n + horizon + 1) in
  map (fun t => a + b * inject_Z t) future_t.

(** The tolerance of [_classify_direction]. *)
Definition tolerance (last_actual : Q) : Q :=
  Np.max (0.005 * Qabs last_actual) 10.

(** [_classify_direction(last_actual, next_pred)]. *)
Definition _classify_direction (last_actual next_pred : pyfloat) : string :=
  match last_actual, next_pred with
  | Some l, Some p =>
      let tol := tolerance l in
      if Np.gtb p (l + tol) then "naik"
      else if Np.ltb p (l - tol) then "turun"
      else "tetap"
  | _, _ => "tidak diketahui"
  end.

(** The direction labels in the vocabulary of the specification. *)
Definition up : string := "naik".
Definition down : string := "turun".
Definition flat : string := "tetap".
Definition unknown : string := "tidak diketahui".

(** The values computed for one category inside the loop of
    [fit_trend_and_forecast]: the fit, the projections, the last actual value
    and the direction. *)
Record CategoryFit : Type := {
  n_obs : Z;
  intercept : Q;
  slope_per_bulan : Q;
  r2 : Q;
  future_values : list Q;
  last_month_actual : pyfloat;
  arah_prediksi : string
}.

(** The guarded fit: fewer than two points give a horizontal line. *)
Definition fit_step (y : list Q) : option (Q * Q * Q) :=
  let n := Np.len y in
  if (n <? 2)%Z then
    Some (if (n =? 0)%Z then 0 else Np.mean y, 0, 1)
  else _fit_linear_trend y.

Definition fit_trend_and_forecast_category (y : list Q) (horizon : Z)
  : option CategoryFit :=
  let n := Np.len y in
  match fit_step y with
  | None => None
  | Some (a, b, r2) =>
      let preds := if (horizon >? 0)%Z then _predict_future a b n horizon else [] in
      let last_actual := if (n >? 0)%Z then Some (last y 0) else NaN in
      let direction := _classify_direction last_actual (nth_error preds 0) in
      Some {| n_obs := n; intercept := a; slope_per_bulan := b; r2 := r2;
              future_values := preds; last_month_actual := last_actual;
              arah_prediksi := direction |}
  end.

(** ** The forecaster in binary64 *)

Module F64.

(** An [int64] element of [np.arange] as a float. *)
Definition of_int (t : Z) : float :=
  if (t <? 0)%Z then (- of_uint63 (Uint63.of_Z (- t)))%float
  else of_uint63 (Uint63.of_Z t).

(** Python's builtin [max(x, y)]: the first argument unless the second is
    strictly greater. *)
Definition max (x y : float) : float := if (x <? y)%float then y else x.

(** The literal [0.005]: the binary64 value nearest to 5/1000. *)
Definition rel_tol : float := 0x1.47ae147ae147bp-8.

(** [tol = max(0.005 * abs(last_actual), 10.0)]. *)
Definition tolerance (last_actual : float) : float :=
  max (rel_tol * abs last_actual)%float 10%float.

(** [_classify_direction(last_actual, next_pred)]. *)
Definition _classify_direction (last_actual next_pred : float) : string :=
  if is_nan last_actual || is_nan next_pred then "tidak diketahui"
  else
    let tol := tolerance last_actual in
    if (last_actual + tol <? next_pred)%float then "naik"
    else if (next_pred <? last_actual - tol)%float then "turun"
    else "tetap".

(** [_predict_future(a, b, n, horizon)]: [a + b * future_t], elementwise. *)
Definition _predict_future (a b : float) (n horizon : Z) : list float :=
  let future_t := Np.arange (n + 1) (n + horizon + 1) in
  map (fun t => (a + b * of_int t)%float) future_t.

(** The k-th projected value, k counted from 1. *)
Definition projected_value (a b : float) (n horizon k : Z) : option float :=
  if (k <? 1)%Z then None
  else nth_error (_predict_future a b n horizon) (Z.to_nat (k - 1)).

(** The rational a finite float denotes (0 for the infinities and NaN). *)
Definition to_Q (x : float) : Q :=
  match Prim2SF x with
  | S754_finite s m e =>
      let v := if (0 <=? e)%Z then inject_Z (Zpos m * 2 ^ e)
               else Qmake (Zpos m) (Z.to_pos (2 ^ (- e))) in
      if s then Qopp v else v
  | _ => 0
  end.

End F64.

(** ** Strings (str methods, os.path, re) *)

Module Str.

Definition is_digit (c : ascii) : bool :=
  let n := nat_of_ascii c in (48 <=? n)%nat && (n <=? 57)%nat.

(** The characters [str.strip] removes, within ASCII. *)
Definition is_space (c : ascii) : bool :=
  let n := nat_of_ascii c in
  ((9 <=? n)%nat && (n <=? 13)%nat) || ((28 <=? n)%nat && (n <=? 32)%nat).

Fixpoint lstrip (s : string) : string :=
  match s with
  | EmptyString => EmptyString
  | String c r => if is_space c then lstrip r else s
  end.

Fixpoint rstrip (s : string) : string :=
  match s with
  | EmptyString => EmptyString
  | String c r =>
      match rstrip r with
      | EmptyString => if is_space c then EmptyString else String c EmptyString
      | r' => String c r'
      end
  end.

Definition strip (s : string) : string := rstrip (lstrip s).

(** [s.replace(BOM, empty)] for BOM = U+FEFF: the byte-order mark is the three bytes
    EF BB BF in UTF-8. *)
Fixpoint remove_bom (s : string) : string :=
  match s with
  | EmptyString => EmptyString
  | String a r =>
      match r with
      | String b (String c r') =>
          if ((nat_of_ascii a =? 239) && (nat_of_ascii b =? 187)
              && (nat_of_ascii c =? 191))%nat
          then remove_bom r'
          else String a (remove_bom r)
      | _ => String a (remove_bom r)
      end
  end.

Definition lower_char (c : ascii) : ascii :=
  let n := nat_of_ascii c in
  if ((65 <=? n) && (n <=? 90))%nat then ascii_of_nat (n + 32) else c.

Fixpoint lower (s : string) : string :=
  match s with
  | EmptyString => EmptyString
  | String c r => String (lower_char c) (lower r)
  end.

(** [needle in hay]. *)
Fixpoint contains (needle hay : string) : bool :=
  prefix needle hay ||
  match hay with
  | EmptyString => false
  | String _ r => contains needle r
  end.

(** [os.path.basename] (POSIX): what follows the last slash. *)
Fixpoint basename_from (p cur : string) : string :=
  match p with
  | EmptyString => cur
  | String c r =>
      if Ascii.eqb c "/" then basename_from r r else basename_from r cur
  end.

Definition basename (p : string) : string := basename_from p p.

(** [re.match(r"(20\d{2})", s)]: "20" and two digits at the start of [s]. *)
Definition match_20dd (s : string) : option string :=
  match s with
  | String c0 (String c1 (String d1 (String d2 _))) =>
      if Ascii.eqb c0 "2" && Ascii.eqb c1 "0" && is_digit d1 && is_digit d2
      then Some (String c0 (String c1 (String d1 (String d2 EmptyString))))
      else None
  | _ => None
  end.

(** [re.search(r"(20\d{2})", s)]: the leftmost match. *)
Fixpoint search_20dd (s : string) : option string :=
  match s with
  | EmptyString => None
  | String _ r =>
      match match_20dd s with
      | Some g => Some g
      | None => search_20dd r
      end
  end.

(** [int(s)] on a string of decimal digits. *)
Fixpoint int_from (acc : Z) (s : string) : Z :=
  match s with
  | EmptyString => acc
  | String c r => int_from (10 * acc + Z.of_nat (nat_of_ascii c - 48)) r
  end.

Definition int (s : string) : Z := int_from 0 s.

End Str.

(** ** Year resolution *)

(** [infer_year_from_filename(path)]. *)
Definition infer_year_from_filename (path : string) : option Z :=
  let base := Str.basename path in
  match Str.search_20dd base with
  | Some g =>
      let y := Str.int g in
      if ((1900 <=? y) && (y <=? 2100))%Z then Some y else None
  | None => None
  end.

Definition year_error (p : string) : exn :=
  ValueError ("Tidak bisa menentukan tahun untuk file '" ++ p ++
              "'. Berikan --year atau --default_year.").

(** The explicit year of the source at position [i], if the list gives one. *)
Definition explicit_year (years : option (list Z)) (i : nat) : option Z :=
  match years with
  | Some ys =>
      if (Np.len ys =? 1)%Z then nth_error ys 0
      else if (Z.of_nat i <? Np.len ys)%Z then nth_error ys i
      else None
  | None => None
  end.

(** One iteration of the loop of [_normalize_years_for_inputs]. *)
Definition resolve_year (years : option (list Z)) (default_year : option Z)
    (i : nat) (p : string) : result Z :=
  let y := explicit_year years i in
  let y := match y with None => infer_year_from_filename p | Some _ => y end in
  let y := match y with None => default_year | Some _ => y end in
  match y with
  | None => Err (year_error p)
  | Some y => Ok y
  end.

Fixpoint normalize_from (i : nat) (paths : list string)
    (years : option (list Z)) (default_year : option Z) : result (list Z) :=
  match paths with
  | [] => Ok []
  | p :: ps =>
      y <- resolve_year years default_year i p ;;
      rest <- normalize_from (S i) ps years default_year ;;
      Ok (y :: rest)
  end.

(** [_normalize_years_for_inputs(paths, years, default_year)]. *)
Definition _normalize_years_for_inputs (paths : list string)
    (years : option (list Z)) (default_year : option Z) : result (list Z) :=
  normalize_from 0 paths years default_year.

(** ** Tables (pandas) *)

(** What [pd.read_csv] leaves in a cell: a number, a text, or a missing value. *)
Inductive cell : Type :=
| CNum (q : Q)
| CStr (s : string)
| CNaN.

(** A row of the wide table: the first cell, read as the category name, and
    the cells of the remaining columns. *)
Record Row : Type := {
  label : string;
  values : list cell
}.

(** A wide table: the header and the rows.  Column names are taken to be
    distinct, as [pd.read_csv] makes them. *)
Record DataFrame : Type := {
  columns : list string;
  rows : list Row
}.

(** A first-of-month timestamp. *)
Record Timestamp : Type := {
  ts_year : Z;
  ts_month : Z
}.

(** Months since year 0: the chronological order of timestamps. *)
Definition ts_ord (d : Timestamp) : Z := (ts_year d * 12 + ts_month d)%Z.

(** [pd.to_datetime({"year": y, "month": m, "day": 1}, errors="coerce")]:
    missing unless the month exists and the date lies in the nanosecond range
    of [pd.Timestamp] (1677-09-21 to 2262-04-11). *)
Definition to_datetime (year : Z) (month : option Z) : option Timestamp :=
  match month with
  | Some m =>
      let d := {| ts_year := year; ts_month := m |} in
      if ((1 <=? m) && (m <=? 12) &&
          (1677 * 12 + 10 <=? ts_ord d) && (ts_ord d <=? 2262 * 12 + 4))%Z
      then Some d else None
  | None => None
  end.

(** A row of the long table. *)
Record LongRow : Type := {
  tipe_kendaraan : string;
  bulan : string;
  jumlah : pyfloat;
  month_num : option Z;
  tanggal : option Timestamp
}.

Definition INDO_MONTHS : list string :=
  ["Januari"; "Februari"; "Maret"; "April"; "Mei"; "Juni"; "Juli"; "Agustus";
   "September"; "Oktober"; "November"; "Desember"].

(** [_strip_bom_and_clean(col)]. *)
Definition _strip_bom_and_clean (col : string) : string :=
  Str.strip (Str.remove_bom col).

Definition mem (s : string) (l : list string) : bool :=
  existsb (String.eqb s) l.

(** [{m: i + 1 for i, m in enumerate(INDO_MONTHS)}.get(b)]. *)
Fixpoint month_index (i : Z) (months : list string) (b : string) : option Z :=
  match months with
  | [] => None
  | m :: ms => if String.eqb m b then Some (i + 1)%Z else month_index (i + 1) ms b
  end.

Definition month_map (b : string) : option Z := month_index 0 INDO_MONTHS b.

(** Stable sort by a boolean order, as [sort_values] on several keys. *)
Section SortValues.

Variable A : Type.
Variable leb : A -> A -> bool.

Fixpoint insert_sorted (x : A) (l : list A) : list A :=
  match l with
  | [] => [x]
  | y :: l' => if leb x y then x :: l else y :: insert_sorted x l'
  end.

Fixpoint sort_values (l : list A) : list A :=
  match l with
  | [] => []
  | x :: l' => insert_sorted x (sort_values l')
  end.

End SortValues.

(** Sort keys: a category name and a number, missing numbers last. *)
Definition key : Type := (string * option Z)%type.

Definition opt_leb (a b : option Z) : bool :=
  match a, b with
  | Some x, Some y => (x <=? y)%Z
  | None, Some _ => false
  | _, None => true
  end.

Definition key_leb (k1 k2 : key) : bool :=
  match String.compare (fst k1) (fst k2) with
  | Lt => true
  | Eq => opt_leb (snd k1) (snd k2)
  | Gt => false
  end.

Definition key_month (r : LongRow) : key := (tipe_kendaraan r, month_num r).

Definition key_date (r : LongRow) : key :=
  (tipe_kendaraan r, option_map ts_ord (tanggal r)).

Definition sort_by (k : LongRow -> key) (l : list LongRow) : list LongRow :=
  sort_values (fun r1 r2 => key_leb (k r1) (k r2)) l.

(** [df.dropna(subset=["jumlah", "month_num", "tanggal"])]. *)
Definition complete (r : LongRow) : bool :=
  negb (isna (jumlah r)) &&
  match month_num r with Some _ => true | None => false end &&
  match tanggal r with Some _ => true | None => false end.

Definition dropna (l : list LongRow) : list LongRow := filter complete l.

(** The cell of a row under a column name; missing when the row is short. *)
Fixpoint cell_at (names : list string) (cells : list cell) (b : string) : cell :=
  match names, cells with
  | n :: ns, c :: cs => if String.eqb n b then c else cell_at ns cs b
  | _, _ => CNaN
  end.

(** The aggregate column: [c.lower() == "tahunan"]. *)
Definition is_tahunan (c : string) : bool := String.eqb (Str.lower c) "tahunan".

(** [df.drop(columns=...)] on the columns after the first. *)
Fixpoint drop_cells (dropped : string -> bool) (names : list string)
    (cells : list cell) : list cell :=
  match names, cells with
  | n :: ns, c :: cs =>
      if dropped n then drop_cells dropped ns cs else c :: drop_cells dropped ns cs
  | _, _ => []
  end.

Definition drop (dropped : string -> bool) (names : list string)
    (rs : list Row) : list string * list Row :=
  (filter (fun c => negb (dropped c)) names,
   map (fun r => {| label := label r;
                    values := drop_cells dropped (tl names) (values r) |}) rs).

Definition msg_columns : string :=
  "CSV tidak memiliki format yang diharapkan (minimal 2 kolom).".

Definition msg_months : string :=
  "Tidak ditemukan kolom bulan (Januari..Desember) dalam CSV.".

Definition msg_empty : string := "Daftar input kosong.".

(** ** Table loader and multi-source merger *)

Section Loader.

(** The files, as [pd.read_csv(path, encoding="utf-8-sig")] reads them. *)
Variable read_csv : string -> result DataFrame.

(** The number a text cell denotes for [pd.to_numeric], if any. *)
Variable parse_number : string -> option Q.

(** [pd.to_numeric(cell, errors="coerce")]. *)
Definition to_numeric (c : cell) : pyfloat :=
  match c with
  | CNum q => Some q
  | CStr s => parse_number s
  | CNaN => NaN
  end.

(** The header after cleaning and after renaming the first column. *)
Definition renamed_columns (cols : list string) : list string :=
  let cleaned := map _strip_bom_and_clean cols in
  match cleaned with
  | [] => []
  | first_col :: _ =>
      map (fun c => if String.eqb c first_col then "tipe_kendaraan" else c)
          cleaned
  end.

Definition bulan_kolom (cols : list string) : list string :=
  filter (fun b => mem b (renamed_columns cols)) INDO_MONTHS.

(** [df.melt(id_vars=["tipe_kendaraan"], value_vars=months)] followed by the
    three derived columns. *)
Definition melt (names : list string) (rs : list Row) (months : list string)
    (year : Z) : list LongRow :=
  flat_map (fun b =>
    map (fun r =>
      let m := month_map b in
      {| tipe_kendaraan := label r;
         bulan := b;
         jumlah := to_numeric (cell_at (tl names) (values r) b);
         month_num := m;
         tanggal := to_datetime year m |}) rs) months.

(** The long table of [load_and_transform] before its incomplete rows are
    dropped: the aggregate column is removed and the month columns melted. *)
Definition long_form (df : DataFrame) (year : Z) : list LongRow :=
  let names := renamed_columns (columns df) in
  let months := bulan_kolom (columns df) in
  let drop_cols := filter is_tahunan names in
  let df := drop (fun c => mem c drop_cols) names (rows df) in
  melt (fst df) (snd df) months year.

(** [load_and_transform(input_path, year)]. *)
Definition load_and_transform (input_path : string) (year : Z)
  : result (list LongRow) :=
  df <- read_csv input_path ;;
  if (Np.len (columns df) <? 2)%Z then Err (ValueError msg_columns)
  else
    let months := bulan_kolom (columns df) in
    if (Np.len months =? 0)%Z then Err (ValueError msg_months)
    else
      let long_df := long_form df year in
      Ok (sort_by key_month (dropna long_df)).

Fixpoint load_all (sources : list (string * Z)) : result (list (list LongRow)) :=
  match sources with
  | [] => Ok []
  | (p, y) :: rest =>
      df_i <- load_and_transform p y ;;
      frames <- load_all rest ;;
      Ok (df_i :: frames)
  end.

(** [load_and_transform_multi(paths, years, default_year)]. *)
Definition load_and_transform_multi (paths : list string)
    (years : option (list Z)) (default_year : option Z)
  : result (list LongRow) :=
  match paths with
  | [] => Err (ValueError msg_empty)
  | _ :: _ =>
      norm_years <- _normalize_years_for_inputs paths years default_year ;;
      frames <- load_all (combine paths norm_years) ;;
      Ok (sort_by key_date (List.concat frames))
  end.

End Loader.

(** ** Vocabulary of the statements *)

(** The k-th projected value, k counted from 1. *)
Definition projected_value (a b : Q) (n horizon k : Z) : option Q :=
  if (k <? 1)%Z then None
  else nth_error (_predict_future a b n horizon) (Z.to_nat (k - 1)).

(** All observations carry one value: the series has zero variance. *)
Definition all_identical (y : list Q) : Prop :=
  exists c, forall v, In v y -> v == c.

(** The digit string "20d1d2". *)
Definition year_digits (d1 d2 : ascii) : string :=
  String "2" (String "0" (String d1 (String d2 EmptyString))).

(** The order of resolution for one source. *)
Definition resolved (years : option (list Z)) (d : option Z) (i : nat)
    (p : string) : option Z :=
  match explicit_year years i with
  | Some y => Some y
  | None =>
      match infer_year_from_filename p with
      | Some y => Some y
      | None => d
      end
  end.

(** The four decimal digits of a year, and a name mentioning a year of the
    range 1900..2100, as the specification words it. *)
Definition four_digits (y : Z) : string :=
  let digit (n : Z) := ascii_of_nat (48 + Z.to_nat (n mod 10)) in
  String (digit (y / 1000)%Z) (String (digit (y / 100)%Z)
    (String (digit (y / 10)%Z) (String (digit y) EmptyString))).

Definition names_year (p : string) (y : Z) : Prop :=
  (1900 <= y <= 2100)%Z /\ Str.contains (four_digits y) (Str.basename p) = true.

(** The rows of one category, in the order of the table. *)
Definition series (c : string) (l : list LongRow) : list LongRow :=
  filter (fun r => String.eqb (tipe_kendaraan r) c) l.

(** Chronological order of first-of-month timestamps. *)
Definition chrono_le (d1 d2 : Timestamp) : Prop :=
  (ts_year d1 < ts_year d2 \/
   (ts_year d1 = ts_year d2 /\ ts_month d1 <= ts_month d2))%Z.

Definition chrono_lt (d1 d2 : Timestamp) : Prop :=
  (ts_year d1 < ts_year d2 \/
   (ts_year d1 = ts_year d2 /\ ts_month d1 < ts_month d2))%Z.

(** Two rows with defined dates, the first not after (strictly before) the
    second. *)
Definition date_le (r1 r2 : LongRow) : Prop :=
  exists d1 d2, tanggal r1 = Some d1 /\ tanggal r2 = Some d2 /\ chrono_le d1 d2.

Definition date_lt (r1 r2 : LongRow) : Prop :=
  exists d1 d2, tanggal r1 = Some d1 /\ tanggal r2 = Some d2 /\ chrono_lt d1 d2.

(** The order of a table sorted by a key. *)
Definition key_le (k : LongRow -> key) (r1 r2 : LongRow) : Prop :=
  key_leb (k r1) (k r2) = true.

(** The count of a row is a number that is not negative. *)
Definition count_nonneg (r : LongRow) : Prop :=
  exists q, jumlah r = Some q /\ 0 <= q.

(** A loaded row: nothing is missing, and its date is the first of the month
    [month_num] of the year the table was loaded with. *)
Definition loaded_row (year : Z) (r : LongRow) : Prop :=
  complete r = true /\
  exists q m,
    jumlah r = Some q /\ month_num r = Some m /\ (1 <= m <= 12)%Z /\
    tanggal r = Some {| ts_year := year; ts_month := m |}.

(** What identifies an observation: its category with its date, and, inside
    one table, its category with its month column. *)
Definition key_tanggal (r : LongRow) : string * option Timestamp :=
  (tipe_kendaraan r, tanggal r).

Definition key_bulan (r : LongRow) : string * string :=
  (tipe_kendaraan r, bulan r).

(** ** Sample tables *)

Definition tabel_2024 : DataFrame :=
  {| columns := ["Jenis"; "Januari"; "Februari"; "Tahunan"];
     rows := [ {| label := "Jabodetabek"; values := [CNum 3; CNum 4; CNum 7] |};
               {| label := "Total"; values := [CNum (-5); CStr "abc"; CNum 7] |} ] |}.

Definition tabel_satu_kolom : DataFrame :=
  {| columns := ["Jenis"];
     rows := [ {| label := "Total"; values := [] |} ] |}.

Definition tabel_tanpa_bulan : DataFrame :=
  {| columns := ["Jenis"; "Tahunan"];
     rows := [ {| label := "Total"; values := [CNum 7] |} ] |}.

Definition berkas (path : string) : result DataFrame :=
  if String.eqb path "data/penumpang 2024.csv" then Ok tabel_2024
  else if String.eqb path "data/rekap 2024.csv" then Ok tabel_2024
  else if String.eqb path "data/satu.csv" then Ok tabel_satu_kolom
  else if String.eqb path "data/tanpa_bulan.csv" then Ok tabel_tanpa_bulan
  else Err (IOError "No such file or directory").

Definition no_text_number (s : string) : option Q := None.

(** Two table rows with the same category and the same cells under every
    month column. *)
Definition same_month_cells (names : list string) (r1 r2 : Row) : Prop :=
  label r1 = label r2 /\
  forall b, In b INDO_MONTHS ->
    cell_at (tl names) (values r1) b = cell_at (tl names) (values r2) b.

(** The sample table with another aggregate column, and a second set of
    files. *)
Definition tabel_2024_lain : DataFrame :=
  {| columns := ["Jenis"; "Januari"; "Februari"; "Tahunan"];
     rows := [ {| label := "Jabodetabek"; values := [CNum 3; CNum 4; CStr "-"] |};
               {| label := "Total"; values := [CNum (-5); CStr "abc"; CNaN] |} ] |}.

Definition berkas_lain (path : string) : result DataFrame :=
  if String.eqb path "a_2023.csv" then Ok tabel_2024
  else if String.eqb path "b_2024.csv" then Ok tabel_2024_lain
  else Err (IOError "No such file or directory").

(** ** Month labels *)

(** What the later stages of the program can end with, besides the errors of
    [exn]: a [KeyError], carrying the printed key. *)
Inductive failure : Type :=
| KeyError (key : string)
| Raised (e : exn).

Inductive outcome (A : Type) : Type :=
| Done (a : A)
| Fail (f : failure).

Arguments Done {A} a.
Arguments Fail {A} f.

Definition NEXT_MONTHS_MAP : list (Z * string) :=
  [(1, "Jan"); (2, "Feb"); (3, "Mar"); (4, "Apr"); (5, "Mei"); (6, "Jun");
   (7, "Jul"); (8, "Agu"); (9, "Sep"); (10, "Okt"); (11, "Nov"); (12, "Des")]%Z.

(** [d[k]] on a dictionary with integer keys. *)
Fixpoint dict_get (d : list (Z * string)) (k : Z) : option string :=
  match d with
  | [] => None
  | (k', v) :: d' => if (k' =? k)%Z then Some v else dict_get d' k
  end.

(** [str(n)] on an integer. *)
Definition str_of_int (n : Z) : string := NilZero.string_of_int (Z.to_int n).

(** The loop of [_month_labels_after], [steps] iterations from year [y] and
    month [m]. *)
Fixpoint month_labels_loop (steps : nat) (y m : Z) : outcome (list string) :=
  match steps with
  | O => Done []
  | S steps' =>
      let m := (m + 1)%Z in
      let ym := if (m >? 12)%Z then ((y + 1)%Z, 1%Z) else (y, m) in
      match dict_get NEXT_MONTHS_MAP (snd ym) with
      | None => Fail (KeyError (str_of_int (snd ym)))
      | Some name =>
          match month_labels_loop steps' (fst ym) (snd ym) with
          | Done labels =>
              Done ((str_of_int (fst ym) ++ "-" ++ name) :: labels)
          | Fail f => Fail f
          end
      end
  end.

(** [_month_labels_after(last_date, horizon)]. *)
Definition _month_labels_after (last_date : Timestamp) (horizon : Z)
  : outcome (list string) :=
  month_labels_loop (Z.to_nat horizon) (ts_year last_date) (ts_month last_date).

(** ** File names of the charts *)

(** The class [a-z0-9] and the dash. *)
Definition is_slug_char (c : ascii) : bool :=
  let n := nat_of_ascii c in
  ((97 <=? n)%nat && (n <=? 122)%nat) || ((48 <=? n)%nat && (n <=? 57)%nat).

Definition is_dash (c : ascii) : bool := Ascii.eqb c "-".

(** [re.sub(cls+, "-", s)] for a character class [cls]: every maximal run
    of characters of the class becomes one dash; [in_run] tells that the
    previous character belonged to a run. *)
Fixpoint sub_runs (cls : ascii -> bool) (in_run : bool) (s : string) : string :=
  match s with
  | EmptyString => EmptyString
  | String c r =>
      if cls c then
        if in_run then sub_runs cls true r
        else String "-" (sub_runs cls true r)
      else String c (sub_runs cls false r)
  end.

(** [s.strip(chars)] for a set of characters. *)
Fixpoint lstrip_chars (cls : ascii -> bool) (s : string) : string :=
  match s with
  | EmptyString => EmptyString
  | String c r => if cls c then lstrip_chars cls r else s
  end.

Fixpoint rstrip_chars (cls : ascii -> bool) (s : string) : string :=
  match s with
  | EmptyString => EmptyString
  | String c r =>
      match rstrip_chars cls r with
      | EmptyString => if cls c then EmptyString else String c EmptyString
      | r' => String c r'
      end
  end.

Definition strip_chars (cls : ascii -> bool) (s : string) : string :=
  rstrip_chars cls (lstrip_chars cls s).

(** [_sanitize_filename(name)]. *)
Definition _sanitize_filename (name : string) : string :=
  let name := Str.lower (Str.strip name) in
  let name := sub_runs (fun c => negb (is_slug_char c)) false name in
  let name := strip_chars is_dash (sub_runs is_dash false name) in
  if String.eqb name "" then "kategori" else name.

(** Strings of [a-z0-9] and dashes without two dashes in a row; [prev] tells
    that a dash precedes the string. *)
Fixpoint dashy (prev : bool) (s : string) : bool :=
  match s with
  | EmptyString => true
  | String c r =>
      if is_slug_char c then dashy false r
      else is_dash c && negb prev && dashy true r
  end.

(** The same, and the string does not end in a dash. *)
Fixpoint slug_tail (prev : bool) (s : string) : bool :=
  match s with
  | EmptyString => negb prev
  | String c r =>
      if is_slug_char c then slug_tail false r
      else is_dash c && negb prev && slug_tail true r
  end.

(** A name for a file: not empty, made of [a-z0-9] and single dashes,
    beginning and ending with a letter or digit. *)
Definition is_slug (s : string) : bool :=
  match s with
  | EmptyString => false
  | String c r => is_slug_char c && slug_tail false r
  end.

Fixpoint string_forall (p : ascii -> bool) (s : string) : bool :=
  match s with
  | EmptyString => true
  | String c r => p c && string_forall p r
  end.

(** ** Summary builder *)

(** A row of the long table that has a category name, a date and a finite
    count.  These are the rows the loop of [fit_trend_and_forecast] works
    on: [dropna] removed the rows without a date or a count, and [groupby]
    leaves out the rows without a category name.  A count that is infinite
    is not modelled. *)
Record Observation : Type := {
  obs_tipe : string;
  obs_tanggal : Timestamp;
  obs_jumlah : Q
}.

(** The rows of a long table as observations. *)
Definition observations (df_long : list LongRow) : list Observation :=
  flat_map (fun r =>
              match jumlah r, tanggal r with
              | Some q, Some d =>
                  [{| obs_tipe := tipe_kendaraan r; obs_tanggal := d;
                      obs_jumlah := q |}]
              | _, _ => []
              end) df_long.

(** [df.groupby("tipe_kendaraan", sort=False)]: the categories in the order
    of their first appearance, each with its rows in table order. *)
Fixpoint first_seen (seen : list string) (l : list string) : list string :=
  match l with
  | [] => []
  | c :: r => if mem c seen then first_seen seen r else c :: first_seen (c :: seen) r
  end.

Definition group_keys (df : list Observation) : list string :=
  first_seen [] (map obs_tipe df).

Definition group (c : string) (df : list Observation) : list Observation :=
  filter (fun o => String.eqb (obs_tipe o) c) df.

Definition groupby (df : list Observation) : list (string * list Observation) :=
  map (fun c => (c, group c df)) (group_keys df).

(** [grp.sort_values("tanggal")], taken as a stable sort: pandas leaves the
    order of rows of one date to the sorting algorithm. *)
Definition tanggal_leb (o1 o2 : Observation) : bool :=
  (ts_ord (obs_tanggal o1) <=? ts_ord (obs_tanggal o2))%Z.

(** [grp["tanggal"].max()]. *)
Fixpoint max_tanggal (grp : list Observation) : option Timestamp :=
  match grp with
  | [] => None
  | o :: r =>
      match max_tanggal r with
      | None => Some (obs_tanggal o)
      | Some d =>
          if (ts_ord d <? ts_ord (obs_tanggal o))%Z then Some (obs_tanggal o)
          else Some d
      end
  end.

(** A row of the summary: the category, what was fitted, and the columns
    pred_next_i with their labels. *)
Record SummaryRow : Type := {
  sr_tipe : string;
  sr_fit : CategoryFit;
  sr_next : list (pyfloat * string)
}.

(** An entry of [detail_forecasts]: future_values and future_labels. *)
Definition Detail : Type := (string * (list Q * list string))%type.

(** One iteration of the loop of [fit_trend_and_forecast]. *)
Definition summarize_group (horizon : Z) (g : string * list Observation)
  : outcome (SummaryRow * Detail) :=
  let grp := sort_values tanggal_leb (snd g) in
  let y := map obs_jumlah grp in
  match fit_trend_and_forecast_category y horizon with
  | None =>
      Fail (Raised (ValueError
        "Found array with 0 sample(s) (shape=(0, 1)) while a minimum of 1 is required by LinearRegression."))
  | Some fit =>
      match max_tanggal grp with
      | None => Fail (Raised (ValueError "cannot convert float NaN to integer"))
      | Some last_date =>
          match _month_labels_after last_date horizon with
          | Fail f => Fail f
          | Done future_labels =>
              let preds := future_values fit in
              Done ({| sr_tipe := fst g;
                       sr_fit := fit;
                       sr_next :=
                         map (fun i => (nth_error preds i,
                                        nth i future_labels ""))
                             (seq 0 (Z.to_nat horizon)) |},
                    (fst g, (preds, future_labels)))
          end
      end
  end.

Fixpoint summarize_all (horizon : Z) (groups : list (string * list Observation))
  : outcome (list (SummaryRow * Detail)) :=
  match groups with
  | [] => Done []
  | g :: rest =>
      match summarize_group horizon g with
      | Fail f => Fail f
      | Done row =>
          match summarize_all horizon rest with
          | Fail f => Fail f
          | Done rows => Done (row :: rows)
          end
      end
  end.

(** The two orders of the summary: by category name, and with the category
    "Total" before the others. *)
Definition tipe_leb (r1 r2 : SummaryRow) : bool :=
  match String.compare (sr_tipe r1) (sr_tipe r2) with
  | Gt => false
  | _ => true
  end.

Definition order_of (r : SummaryRow) : Z :=
  if String.eqb (sr_tipe r) "Total" then 0%Z else 1%Z.

Definition total_first_leb (r1 r2 : SummaryRow) : bool :=
  if (order_of r1 <? order_of r2)%Z then true
  else if (order_of r1 =? order_of r2)%Z then tipe_leb r1 r2
  else false.

(** [fit_trend_and_forecast(df_long, horizon)]: the summary and
    [detail_forecasts]. *)
Definition fit_trend_and_forecast (df_long : list Observation) (horizon : Z)
  : outcome (list SummaryRow * list Detail) :=
  match summarize_all horizon (groupby df_long) with
  | Fail f => Fail f
  | Done rows =>
      let summaries := map fst rows in
      let detail_forecasts := map snd rows in
      match summaries with
      | [] => Fail (KeyError "tipe_kendaraan")
      | _ :: _ =>
          let summary_df :=
            if existsb (fun r => String.eqb (sr_tipe r) "Total") summaries
            then sort_values total_first_leb summaries
            else sort_values tipe_leb summaries in
          Done (summary_df, detail_forecasts)
      end
  end.

(** [run(inputs, output_dir, horizon, years, default_year)], without what it
    writes: the directories, the summary file and the charts. *)
Definition run (read_csv : string -> result DataFrame)
    (parse_number : string -> option Q) (inputs : list string) (horizon : Z)
    (years : option (list Z)) (default_year : option Z)
  : outcome (list SummaryRow * list Detail) :=
  match load_and_transform_multi read_csv parse_number inputs years
          default_year with
  | Err e => Fail (Raised e)
  | Ok df_long => fit_trend_and_forecast (observations df_long) horizon
  end.

(** Strict order of category names, and an observation with a real month. *)
Definition string_lt (a b : string) : Prop := String.compare a b = Lt.

Definition valid_obs (o : Observation) : Prop :=
  (1 <= ts_month (obs_tanggal o) <= 12)%Z.

(** The byte-order mark U+FEFF in UTF-8, and a byte that cannot start it. *)
Definition BOM : string :=
  String (ascii_of_nat 239) (String (ascii_of_nat 187)
    (String (ascii_of_nat 191) EmptyString)).

Definition not_bom_lead (c : ascii) : bool :=
  negb (nat_of_ascii c =? 239)%nat.

(** Text within ASCII. *)
Definition ascii_text (s : string) : bool :=
  string_forall (fun c => (nat_of_ascii c <? 128)%nat) s.

(** The headers the loader is modelled on: names that are ASCII text once
    their byte-order marks are removed, distinct after cleaning and renaming,
    none of them [jumlah], the name [melt] gives its value column (pandas
    refuses a frame that has a column of that name). *)
Definition plain_header (cols : list string) : Prop :=
  Forall (fun c => ascii_text (Str.remove_bom c) = true) cols /\
  NoDup (renamed_columns cols) /\
  ~ In "jumlah" (renamed_columns cols).

(** A small table of observations: two categories, the second one "Total",
    with the months out of order. *)
Definition contoh_obs : list Observation :=
  [ {| obs_tipe := "Jabodetabek";
       obs_tanggal := {| ts_year := 2024; ts_month := 12 |};
       obs_jumlah := 120 |};
    {| obs_tipe := "Total";
       obs_tanggal := {| ts_year := 2024; ts_month := 11 |};
       obs_jumlah := 300 |};
    {| obs_tipe := "Jabodetabek";
       obs_tanggal := {| ts_year := 2024; ts_month := 11 |};
       obs_jumlah := 100 |};
    {| obs_tipe := "Total";
       obs_tanggal := {| ts_year := 2024; ts_month := 12 |};
       obs_jumlah := 330 |} ].

(** * Properties *)

Unset Implicit Arguments.

(** ** Comparisons and tolerance *)

Lemma gtb_true_iff (x y : Q) : Np.gtb x y = true <-> y < x.
Proof.
  unfold Np.gtb. rewrite negb_true_iff, <- not_true_iff_false, Qle_bool_iff.
  split; [apply Qnot_le_lt | apply Qlt_not_le].
Qed.

Lemma ltb_true_iff (x y : Q) : Np.ltb x y = true <-> x < y.
Proof. unfold Np.ltb. apply (gtb_true_iff y x). Qed.

Lemma gtb_false_iff (x y : Q) : Np.gtb x y = false <-> x <= y.
Proof.
  unfold Np.gtb. rewrite negb_false_iff. apply Qle_bool_iff.
Qed.

Lemma ltb_false_iff (x y : Q) : Np.ltb x y = false <-> y <= x.
Proof. unfold Np.ltb. apply (gtb_false_iff y x). Qed.

Lemma max_spec (x y : Q) :
  x <= Np.max x y /\ y <= Np.max x y /\ (Np.max x y = x \/ Np.max x y = y).
Proof.
  unfold Np.max. destruct (Np.gtb y x) eqn:E.
  - apply gtb_true_iff in E. repeat split; auto with qarith; lra.
  - apply gtb_false_iff in E. repeat split; auto with qarith; lra.
Qed.

Lemma tolerance_spec (l : Q) :
  10 <= tolerance l /\ 0.005 * Qabs l <= tolerance l /\
  (tolerance l = 0.005 * Qabs l \/ tolerance l = 10).
Proof.
  unfold tolerance. destruct (max_spec (0.005 * Qabs l) 10) as (H1 & H2 & H3).
  auto.
Qed.

(** ** Direction classification *)

(** Comparison of floats is a strict order on the values that are not NaN. *)
Lemma SFcompare_lt_trans (a b c : spec_float) :
  SFcompare a b = Some Lt -> SFcompare b c = Some Lt -> SFcompare a c = Some Lt.
Proof.
  destruct a as [[|]|[|]| |[|] ma ea], b as [[|]|[|]| |[|] mb eb],
    c as [[|]|[|]| |[|] mc ec]; cbn [SFcompare];
    try discriminate; try reflexivity;
    destruct (Z.compare_spec ea eb), (Z.compare_spec eb ec),
      (Z.compare_spec ea ec);
    try discriminate; try reflexivity; try lia; subst;
    fold (Pos.compare ma mb); fold (Pos.compare mb mc); fold (Pos.compare ma mc);
    destruct (Pos.compare_spec ma mb), (Pos.compare_spec mb mc),
      (Pos.compare_spec ma mc);
    simpl; try discriminate; try reflexivity; lia.
Qed.

Lemma SFcompare_lt_asym (a b : spec_float) :
  SFcompare a b = Some Lt -> SFcompare b a = Some Gt.
Proof.
  destruct a as [[|]|[|]| |[|] ma ea], b as [[|]|[|]| |[|] mb eb];
    cbn [SFcompare]; try discriminate; try reflexivity;
    destruct (Z.compare_spec ea eb), (Z.compare_spec eb ea);
    try discriminate; try reflexivity; try lia; subst;
    fold (Pos.compare ma mb); fold (Pos.compare mb ma);
    destruct (Pos.compare_spec ma mb), (Pos.compare_spec mb ma);
    simpl; try discriminate; try reflexivity; lia.
Qed.

Lemma f64_ltb_trans (x y z : float) :
  (x <? y)%float = true -> (y <? z)%float = true -> (x <? z)%float = true.
Proof.
  rewrite !FloatAxioms.ltb_spec. unfold SFltb.
  destruct (SFcompare (Prim2SF x) (Prim2SF y)) as [[| |]|] eqn:E1;
    try discriminate.
  destruct (SFcompare (Prim2SF y) (Prim2SF z)) as [[| |]|] eqn:E2;
    try discriminate.
  now rewrite (SFcompare_lt_trans _ _ _ E1 E2).
Qed.

Lemma f64_ltb_not_leb (x y : float) :
  (x <? y)%float = true -> (y <=? x)%float = false.
Proof.
  rewrite FloatAxioms.ltb_spec, FloatAxioms.leb_spec. unfold SFltb, SFleb.
  destruct (SFcompare (Prim2SF x) (Prim2SF y)) as [[| |]|] eqn:E1;
    try discriminate.
  now rewrite (SFcompare_lt_asym _ _ E1).
Qed.

Lemma f64_ltb_irrefl (x : float) : (x <? x)%float = false.
Proof.
  destruct (x <? x)%float eqn:E; [|reflexivity].
  pose proof (f64_ltb_not_leb _ _ E) as H. revert E H.
  rewrite FloatAxioms.ltb_spec, FloatAxioms.leb_spec. unfold SFltb, SFleb.
  destruct (SFcompare (Prim2SF x) (Prim2SF x)) as [[| |]|]; discriminate.
Qed.

(** C2, in the arithmetic of the program: tolerance = max(0.005*|last|, 10),
    and hi = last + tolerance, lo = last - tolerance are the rounded sums the
    code compares with.  If either value is NaN the direction is [unknown].
    Otherwise it is [up] exactly when pred > hi; when it is not [up] it is
    [down] exactly when pred < lo, and [flat] otherwise; the boundary
    pred = hi is not [up].  When lo <= hi, the two tests exclude each other:
    the direction is [down] exactly when pred < lo, and the boundary
    pred = hi is [flat]. *)
Theorem classify_direction_spec (last pred : float) :
  let tol := F64.tolerance last in
  let hi := (last + tol)%float in
  let lo := (last - tol)%float in
  (tol = F64.max (F64.rel_tol * abs last) 10) /\
  (is_nan last = true \/ is_nan pred = true ->
   F64._classify_direction last pred = unknown) /\
  (is_nan last = false -> is_nan pred = false ->
   (F64._classify_direction last pred = up <-> (hi <? pred)%float = true) /\
   (F64._classify_direction last pred = down <->
    (hi <? pred)%float = false /\ (pred <? lo)%float = true) /\
   (F64._classify_direction last pred = flat <->
    (hi <? pred)%float = false /\ (pred <? lo)%float = false) /\
   (pred = hi -> F64._classify_direction last pred <> up) /\
   ((lo <=? hi)%float = true ->
    (F64._classify_direction last pred = down <-> (pred <? lo)%float = true) /\
    (pred = hi -> F64._classify_direction last pred = flat))).
Proof.
  intros tol hi lo. split; [reflexivity|]. split.
  - intros H. unfold F64._classify_direction.
    destruct H as [-> | ->]; [reflexivity | now rewrite orb_true_r].
  - intros Hl Hp. unfold F64._classify_direction. rewrite Hl, Hp. cbn [orb].
    fold tol hi lo. fold up down flat.
    destruct (hi <? pred)%float eqn:E1.
    + (* naik *)
      split; [tauto|].
      split; [split; [discriminate | intros [H _]; discriminate H]|].
      split; [split; [discriminate | intros [H _]; discriminate H]|].
      split.
      * intros ->. rewrite f64_ltb_irrefl in E1. discriminate E1.
      * intros Ho. split.
        -- split; [discriminate|]. intros E2. exfalso.
           pose proof (f64_ltb_not_leb _ _ (f64_ltb_trans _ _ _ E1 E2)) as H.
           congruence.
        -- intros ->. rewrite f64_ltb_irrefl in E1. discriminate E1.
    + destruct (pred <? lo)%float eqn:E2.
      * (* turun *)
        split; [split; discriminate|]. split; [tauto|].
        split; [split; [discriminate | intros [_ H]; discriminate H]|].
        split; [discriminate|].
        intros Ho. split; [tauto|].
        intros ->. apply f64_ltb_not_leb in E2. congruence.
      * (* tetap *)
        split; [split; discriminate|].
        split; [split; [discriminate | intros [_ H]; discriminate H]|].
        split; [tauto|]. split; [discriminate|].
        intros Ho. split; [split; discriminate | reflexivity].
Qed.

(** At last = 2001.0 the tolerance is 10.005 and the boundary is the float
    2011.005: it is [flat]. *)
Lemma classify_direction_spec_witness :
  is_nan 2001 = false /\ is_nan 0x1.f6c051eb851ecp+10 = false /\
  (2001 - F64.tolerance 2001 <=? 2001 + F64.tolerance 2001)%float = true /\
  0x1.f6c051eb851ecp+10%float = (2001 + F64.tolerance 2001)%float /\
  F64._classify_direction 2001 0x1.f6c051eb851ecp+10 = flat.
Proof.
  split; [reflexivity|]. split; [reflexivity|]. split; [reflexivity|].
  split; [reflexivity|].
  destruct (classify_direction_spec 2001 0x1.f6c051eb851ecp+10) as (_ & _ & H).
  destruct (H eq_refl eq_refl) as (_ & _ & _ & _ & Ho).
  exact (proj2 (Ho eq_refl) eq_refl).
Defined.

(** ** Projection *)

Lemma arange_length (start stop : Z) :
  List.length (Np.arange start stop) = Z.to_nat (stop - start).
Proof. unfold Np.arange. now rewrite length_map, length_seq. Qed.

Lemma arange_nth (start stop : Z) (i : nat) :
  (Z.of_nat i < stop - start)%Z ->
  nth_error (Np.arange start stop) i = Some (start + Z.of_nat i)%Z.
Proof.
  intros H. unfold Np.arange.
  rewrite nth_error_map, nth_error_seq.
  destruct (Nat.ltb_spec i (Z.to_nat (stop - start))); [reflexivity | lia].
Qed.

Lemma projected_value_eq (a b : Q) (n horizon k : Z) :
  (1 <= k <= horizon)%Z ->
  projected_value a b n horizon k = Some (a + b * inject_Z (n + k)).
Proof.
  intros H. unfold projected_value, _predict_future.
  destruct (Z.ltb_spec k 1); [lia|].
  rewrite nth_error_map, arange_nth by lia.
  simpl.
  replace (n + 1 + Z.of_nat (Z.to_nat (k - 1)))%Z with (n + k)%Z by lia.
  reflexivity.
Qed.

Lemma predict_future_length (a b : Q) (n horizon : Z) :
  Np.len (_predict_future a b n horizon) = Z.max 0 horizon.
Proof.
  unfold Np.len, _predict_future. rewrite length_map, arange_length. lia.
Qed.

Lemma f64_predict_future_length (a b : float) (n horizon : Z) :
  List.length (F64._predict_future a b n horizon) = Z.to_nat horizon.
Proof.
  unfold F64._predict_future. rewrite length_map, arange_length.
  f_equal. lia.
Qed.

(** C5, as amended: for n and horizon in the range of [int64], there are
    horizon projected values and the k-th is a + b*(n + k) as binary64
    evaluates it, the product rounded and then the sum; so consecutive values
    differ by b up to that rounding. *)
Theorem projection_line (a b : float) (n horizon k : Z) :
  (0 <= n)%Z -> (n + horizon < 2 ^ 62)%Z -> (1 <= k <= horizon)%Z ->
  F64.projected_value a b n horizon k
  = Some (a + b * F64.of_int (n + k))%float /\
  List.length (F64._predict_future a b n horizon) = Z.to_nat horizon.
Proof.
  intros _ _ Hk. split; [|apply f64_predict_future_length].
  unfold F64.projected_value, F64._predict_future.
  destruct (Z.ltb_spec k 1) as [H | _]; [lia|].
  rewrite nth_error_map, arange_nth by lia.
  cbn [option_map].
  replace (n + 1 + Z.of_nat (Z.to_nat (k - 1)))%Z with (n + k)%Z by lia.
  reflexivity.
Qed.

Lemma projection_line_witness :
  F64.projected_value 90 10 4 3 2 = Some 150%float /\
  List.length (F64._predict_future 90 10 4 3) = 3%nat.
Proof.
  apply (projection_line 90 10 4 3 2); [lia | reflexivity | lia].
Defined.

(** C5 fails as stated: with a = 0.0, b = 0.1, n = 0 and horizon 3 the
    projected values are 0.1, 0.2 and 0.30000000000000004; the last step is
    0.10000000000000003, not b, whether the difference is taken in binary64
    or exactly. *)
Lemma projection_step_not_constant :
  exists p2 p3,
    F64.projected_value 0 0x1.999999999999ap-4 0 3 2 = Some p2 /\
    F64.projected_value 0 0x1.999999999999ap-4 0 3 (2 + 1) = Some p3 /\
    (p3 - p2 =? 0x1.999999999999ap-4)%float = false /\
    ~ (F64.to_Q p3 - F64.to_Q p2 == F64.to_Q 0x1.999999999999ap-4).
Proof.
  eexists. eexists. split; [reflexivity|]. split; [reflexivity|].
  split; [reflexivity|]. vm_compute. discriminate.
Qed.

(** ** Degenerate fits *)

(** C4: with no observation the fit step gives a = 0, b = 0, r2 = 1; with one
    observation v it gives a = v, b = 0, r2 = 1. *)
Theorem degenerate_fit :
  fit_step [] = Some (0, 0, 1) /\
  (forall v, exists a, fit_step [v] = Some (a, 0, 1) /\ a == v) /\
  (forall h, exists c, fit_trend_and_forecast_category [] h = Some c /\
     n_obs c = 0%Z /\ intercept c = 0 /\ slope_per_bulan c = 0 /\ r2 c = 1) /\
  (forall v h, exists c, fit_trend_and_forecast_category [v] h = Some c /\
     n_obs c = 1%Z /\ intercept c == v /\ slope_per_bulan c = 0 /\ r2 c = 1).
Proof.
  assert (M : forall v, Np.mean [v] == v).
  { intros v. unfold Np.mean, Np.sum, Np.len. simpl. field. }
  split; [reflexivity|]. split; [|split].
  - intros v. exists (Np.mean [v]). split; [reflexivity | apply M].
  - intros h. eexists. split; [reflexivity|]. simpl. auto.
  - intros v h. eexists. split; [reflexivity|]. simpl.
    repeat split. apply M.
Qed.

(** ** The four-month scenario *)

(** C1: on [100, 110, 120, 130], fitted against t = 1..4, the slope is 10 and
    the intercept 90; the one-step projection is 90 + 10*5 = 140; against
    last_actual = 130 the tolerance is max(0.005*130, 10) = 10 and, 140 not
    being strictly above 130 + 10, the direction is [flat]. *)
Theorem scenario_four_months :
  map inject_Z (Np.arange 1 (Np.len [100; 110; 120; 130] + 1)) = [1; 2; 3; 4] /\
  exists a b r p,
    _fit_linear_trend [100; 110; 120; 130] = Some (a, b, r) /\
    b == 10 /\ a == 90 /\
    _predict_future a b 4 1 = [p] /\
    p == 90 + 10 * 5 /\ p == 140 /\
    0.005 * Qabs 130 == 0.65 /\ tolerance 130 = 10 /\
    ~ p > 130 + tolerance 130 /\
    _classify_direction (Some 130) (Some p) = flat /\
    option_map arah_prediksi
      (fit_trend_and_forecast_category [100; 110; 120; 130] 1) = Some flat.
Proof.
  split; [reflexivity|].
  do 4 eexists.
  split; [reflexivity|].
  split; [vm_compute; reflexivity|].
  split; [vm_compute; reflexivity|].
  split; [reflexivity|].
  split; [vm_compute; reflexivity|].
  split; [vm_compute; reflexivity|].
  split; [vm_compute; reflexivity|].
  split; [reflexivity|].
  split; [vm_compute; discriminate|].
  split; vm_compute; reflexivity.
Qed.

(** ** Least squares: the coefficient of determination *)

Section SumsOfSquares.

Variable A : Type.
Variable f : A -> Q.

Lemma sq_nonneg (x : Q) : 0 <= Np.sq x.
Proof. unfold Np.sq. nra. Qed.

Lemma sum_sq_nonneg (l : list A) :
  0 <= Np.sum (map (fun x => Np.sq (f x)) l).
Proof.
  induction l as [|x l IH]; simpl; [lra|].
  pose proof (sq_nonneg (f x)). lra.
Qed.

Lemma sum_sq_zero (l : list A) :
  Np.sum (map (fun x => Np.sq (f x)) l) == 0 ->
  forall x, In x l -> f x == 0.
Proof.
  induction l as [|a l IH]; simpl; intros H x Hx; [contradiction|].
  pose proof (sq_nonneg (f a)) as Ha. pose proof (sum_sq_nonneg l) as Hl.
  destruct Hx as [<- | Hx].
  - assert (E : f a * f a == 0) by (unfold Np.sq in *; lra).
    apply Qmult_integral in E. tauto.
  - apply IH; [lra | assumption].
Qed.

Lemma sum_zero (l : list A) :
  (forall x, In x l -> f x == 0) -> Np.sum (map f l) == 0.
Proof.
  induction l as [|a l IH]; simpl; intros H; [reflexivity|].
  rewrite IH, (H a) by auto. ring.
Qed.

End SumsOfSquares.

Lemma combine_map_swap (g : Q -> Q) (t y : list Q) :
  combine y (map g t) = map (fun p => (snd p, g (fst p))) (combine t y).
Proof.
  revert y. induction t as [|ti t IH]; intros [|yi y]; simpl; auto.
  now rewrite IH.
Qed.

Lemma map_snd_combine {B : Type} (h : Q -> B) (t y : list Q) :
  List.length t = List.length y ->
  map (fun p => h (snd p)) (combine t y) = map h y.
Proof.
  revert y. induction t as [|ti t IH]; intros [|yi y] H; simpl in *;
    try discriminate; auto.
  f_equal. apply IH. lia.
Qed.

Lemma map_fst_combine {B : Type} (h : Q -> B) (t y : list Q) :
  List.length t = List.length y ->
  map (fun p => h (fst p)) (combine t y) = map h t.
Proof.
  revert y. induction t as [|ti t IH]; intros [|yi y] H; simpl in *;
    try discriminate; auto.
  f_equal. apply IH. lia.
Qed.

(** The residual sum of squares of the line through the means with slope b. *)
Lemma residual_expansion (tb yb b : Q) (l : list (Q * Q)) :
  Np.sum (map (fun p => Np.sq (snd p - (fst p * b + (yb - tb * b)))) l) ==
  Np.sum (map (fun p => Np.sq (snd p - yb)) l)
  - 2 * b * Np.sum (map (fun p => (fst p - tb) * (snd p - yb)) l)
  + b * b * Np.sum (map (fun p => Np.sq (fst p - tb)) l).
Proof.
  induction l as [|[ti yi] l IH]; simpl; [ring|].
  rewrite IH. unfold Np.sq. ring.
Qed.

Lemma fit_some (t y : list Q) :
  y <> [] ->
  Sk.fit t y =
    Some {| Sk.intercept_ :=
              Np.mean y - Np.mean t *
                (if Qeq_bool (Sk.sxx t) 0 then 0 else Sk.sxy t y / Sk.sxx t);
            Sk.coef_ :=
              if Qeq_bool (Sk.sxx t) 0 then 0 else Sk.sxy t y / Sk.sxx t |}.
Proof. destruct y; [congruence | reflexivity]. Qed.

Lemma ss_res_fit (t y : list Q) (m : Sk.LinearRegression) :
  List.length t = List.length y ->
  Sk.fit t y = Some m ->
  Sk.ss_res y (Sk.predict m t) ==
  Sk.ss_tot y - 2 * Sk.coef_ m * Sk.sxy t y
  + Sk.coef_ m * Sk.coef_ m * Sk.sxx t.
Proof.
  intros Hlen Hfit.
  assert (Hy : y <> []) by (destruct y; [discriminate | congruence]).
  rewrite (fit_some t y Hy) in Hfit. injection Hfit as <-.
  unfold Sk.ss_res, Sk.predict, Sk.ss_tot, Sk.sxx, Sk.sxy. simpl.
  set (b := if Qeq_bool _ 0 then 0 else _).
  rewrite combine_map_swap, map_map. simpl.
  rewrite residual_expansion.
  rewrite (map_snd_combine (fun v => Np.sq (v - Np.mean y)) t y Hlen).
  rewrite (map_fst_combine (fun v => Np.sq (v - Np.mean t)) t y Hlen).
  reflexivity.
Qed.

Lemma ss_res_nonneg (y yh : list Q) : 0 <= Sk.ss_res y yh.
Proof. unfold Sk.ss_res. apply (sum_sq_nonneg _ (fun p => fst p - snd p)). Qed.

Lemma ss_tot_nonneg (y : list Q) : 0 <= Sk.ss_tot y.
Proof. unfold Sk.ss_tot. apply (sum_sq_nonneg _ (fun v => v - Np.mean y)). Qed.

(** The fitted line never does worse than the horizontal line at the mean. *)
Lemma ss_res_le_ss_tot (t y : list Q) (m : Sk.LinearRegression) :
  List.length t = List.length y ->
  Sk.fit t y = Some m ->
  Sk.ss_res y (Sk.predict m t) <= Sk.ss_tot y.
Proof.
  intros Hlen Hfit. rewrite (ss_res_fit t y m Hlen Hfit).
  assert (Hy : y <> []) by (destruct y; [discriminate | congruence]).
  rewrite (fit_some t y Hy) in Hfit. injection Hfit as <-. simpl.
  destruct (Qeq_bool (Sk.sxx t) 0) eqn:E.
  - lra.
  - apply Qeq_bool_neq in E.
    assert (Hxx : 0 <= Sk.sxx t)
      by (unfold Sk.sxx; apply (sum_sq_nonneg _ (fun v => v - Np.mean t))).
    set (q := Sk.sxy t y / Sk.sxx t).
    assert (Hq : Sk.sxy t y == q * Sk.sxx t) by (unfold q; field; exact E).
    rewrite Hq.
    assert (0 <= q * q * Sk.sxx t).
    { apply Qmult_le_0_compat; [apply (sq_nonneg q) | exact Hxx]. }
    lra.
Qed.

Lemma r2_score_bounds (y yh : list Q) :
  Sk.ss_res y yh <= Sk.ss_tot y ->
  (0 <= Sk.r2_score y yh /\ Sk.r2_score y yh <= 1) /\
  (Sk.ss_tot y == 0 -> Sk.r2_score y yh = 1).
Proof.
  intros Hle. pose proof (ss_res_nonneg y yh) as H0.
  unfold Sk.r2_score.
  destruct (Qeq_bool (Sk.ss_res y yh) 0) eqn:En; simpl.
  - split; [lra | reflexivity].
  - apply Qeq_bool_neq in En.
    assert (Hnum : 0 < Sk.ss_res y yh) by lra.
    assert (Hden : 0 < Sk.ss_tot y) by lra.
    destruct (Qeq_bool (Sk.ss_tot y) 0) eqn:Ed; simpl.
    + apply Qeq_bool_iff in Ed. lra.
    + split; [|lra].
      assert (Sk.ss_res y yh / Sk.ss_tot y <= 1)
        by (apply Qle_shift_div_r; lra).
      assert (0 <= Sk.ss_res y yh / Sk.ss_tot y)
        by (apply Qle_shift_div_l; lra).
      lra.
Qed.

Lemma len_pos_nonzero (A : Type) (y : list A) :
  y <> [] -> ~ inject_Z (Np.len y) == 0.
Proof.
  intros Hy. destruct y as [|a y]; [congruence|].
  unfold Np.len, Qeq. simpl. lia.
Qed.

Lemma sum_const (c : Q) (y : list Q) :
  (forall v, In v y -> v == c) -> Np.sum y == inject_Z (Np.len y) * c.
Proof.
  unfold Np.len. induction y as [|a y IH]; intros H.
  - simpl. ring.
  - cbn [Np.sum fold_right List.length]. fold (Np.sum y).
    rewrite Nat2Z.inj_succ, <- Z.add_1_r, inject_Z_plus.
    assert (Hy : Np.sum y == inject_Z (Z.of_nat (List.length y)) * c)
      by (apply IH; intros v Hv; apply H; simpl; auto).
    assert (Ha : a == c) by (apply H; simpl; auto).
    rewrite Hy, Ha. change (inject_Z 1) with 1. ring.
Qed.

Lemma mean_const (c : Q) (y : list Q) :
  y <> [] -> (forall v, In v y -> v == c) -> Np.mean y == c.
Proof.
  intros Hy H. unfold Np.mean. rewrite (sum_const c y H).
  field. apply len_pos_nonzero, Hy.
Qed.

Lemma ss_tot_zero_iff (y : list Q) :
  y <> [] -> (Sk.ss_tot y == 0 <-> all_identical y).
Proof.
  intros Hy. split.
  - intros H. exists (Np.mean y). intros v Hv.
    pose proof (sum_sq_zero _ (fun v => v - Np.mean y) y H v Hv) as E.
    simpl in E. lra.
  - intros [c Hc]. unfold Sk.ss_tot.
    apply (sum_zero _ (fun yi => Np.sq (yi - Np.mean y))).
    intros v Hv. unfold Np.sq.
    rewrite (mean_const c y Hy Hc), (Hc v Hv). ring.
Qed.

Lemma index_length (A : Type) (y : list A) :
  List.length (map inject_Z (Np.arange 1 (Np.len y + 1))) = List.length y.
Proof. rewrite length_map, arange_length. unfold Np.len. lia. Qed.

(** What [_fit_linear_trend] returns on a non-empty series. *)
Lemma fit_linear_trend_some (y : list Q) :
  y <> [] ->
  exists m,
    Sk.fit (map inject_Z (Np.arange 1 (Np.len y + 1))) y = Some m /\
    _fit_linear_trend y =
      Some (Sk.intercept_ m, Sk.coef_ m,
            if (Np.len y >=? 2)%Z
            then Sk.r2_score y
                   (Sk.predict m (map inject_Z (Np.arange 1 (Np.len y + 1))))
            else 1).
Proof.
  intros Hy. unfold _fit_linear_trend.
  rewrite (fit_some _ y Hy). eexists. split; reflexivity.
Qed.

Lemma fit_linear_trend_r2 (y : list Q) :
  y <> [] ->
  exists a b r,
    _fit_linear_trend y = Some (a, b, r) /\
    0 <= r /\ r <= 1 /\
    ((Np.len y <= 1)%Z \/ all_identical y -> r = 1).
Proof.
  intros Hy. destruct (fit_linear_trend_some y Hy) as (m & Hm & ->).
  do 3 eexists. split; [reflexivity|].
  destruct (Z.geb_spec (Np.len y) 2) as [Hn | Hn].
  - pose proof (ss_res_le_ss_tot _ y m (index_length _ y) Hm) as Hle.
    destruct (r2_score_bounds y _ Hle) as ((H0 & H1) & Hz).
    repeat split; auto.
    intros [H | H]; [lia|].
    apply Hz, ss_tot_zero_iff; assumption.
  - repeat split; try lra. 
Qed.

(** ** Year resolution *)

Lemma prefix_app (p x : string) : prefix p (p ++ x) = true.
Proof.
  induction p as [|c p IH]; simpl.
  - destruct x; reflexivity.
  - destruct (ascii_dec c c); [exact IH | congruence].
Qed.

Lemma contains_prefix (n h : string) : prefix n h = true -> Str.contains n h = true.
Proof. intros H. destruct h; cbn [Str.contains]; rewrite H; reflexivity. Qed.

Lemma contains_app_l (n pre h : string) :
  Str.contains n h = true -> Str.contains n (pre ++ h) = true.
Proof.
  intros H. induction pre as [|c pre IH]; [exact H|].
  change (String c pre ++ h) with (String c (pre ++ h)).
  cbn [Str.contains]. rewrite IH. apply orb_true_r.
Qed.

Lemma year_error_names_source (p : string) :
  Str.contains p (exn_msg (year_error p)) = true.
Proof.
  unfold year_error, exn_msg.
  apply contains_app_l, contains_prefix, prefix_app.
Qed.

Lemma is_digit_range (c : ascii) :
  Str.is_digit c = true -> (48 <= nat_of_ascii c <= 57)%nat.
Proof.
  unfold Str.is_digit. intros H. apply andb_true_iff in H as [H1 H2].
  apply Nat.leb_le in H1, H2. lia.
Qed.

Lemma match_20dd_some (s g : string) :
  Str.match_20dd s = Some g ->
  exists d1 d2,
    Str.is_digit d1 = true /\ Str.is_digit d2 = true /\
    g = year_digits d1 d2 /\ prefix g s = true.
Proof.
  destruct s as [|c0 [|c1 [|d1 [|d2 r]]]]; simpl; try discriminate.
  destruct (Ascii.eqb c0 "2") eqn:E0; simpl; [|discriminate].
  destruct (Ascii.eqb c1 "0") eqn:E1; simpl; [|discriminate].
  destruct (Str.is_digit d1) eqn:D1; simpl; [|discriminate].
  destruct (Str.is_digit d2) eqn:D2; simpl; [|discriminate].
  apply Ascii.eqb_eq in E0, E1. subst c0 c1.
  intros [= <-]. exists d1, d2. repeat split; auto.
  apply (prefix_app (year_digits d1 d2) r).
Qed.

Lemma search_20dd_some (s g : string) :
  Str.search_20dd s = Some g ->
  exists d1 d2,
    Str.is_digit d1 = true /\ Str.is_digit d2 = true /\
    g = year_digits d1 d2 /\ Str.contains g s = true.
Proof.
  induction s as [|c r IH]; [discriminate|].
  cbn [Str.search_20dd].
  destruct (Str.match_20dd (String c r)) as [g'|] eqn:E.
  - intros [= ->]. destruct (match_20dd_some _ _ E) as (d1 & d2 & ? & ? & ? & ?).
    exists d1, d2. repeat split; auto. now apply contains_prefix.
  - intros H. destruct (IH H) as (d1 & d2 & ? & ? & ? & Hc).
    exists d1, d2. repeat split; auto.
    cbn [Str.contains]. rewrite Hc. apply orb_true_r.
Qed.

Lemma int_year_digits (d1 d2 : ascii) :
  Str.is_digit d1 = true -> Str.is_digit d2 = true ->
  (Str.int (year_digits d1 d2) =
     2000 + 10 * Z.of_nat (nat_of_ascii d1 - 48) + Z.of_nat (nat_of_ascii d2 - 48)
   /\ 2000 <= Str.int (year_digits d1 d2) <= 2099)%Z.
Proof.
  intros H1 H2. apply is_digit_range in H1, H2.
  unfold Str.int, year_digits. cbn [Str.int_from].
  change (nat_of_ascii "2") with 50%nat. change (nat_of_ascii "0") with 48%nat.
  lia.
Qed.

Lemma resolve_year_resolved (years : option (list Z)) (d : option Z) (i : nat)
    (p : string) :
  resolve_year years d i p =
    match resolved years d i p with
    | Some y => Ok y
    | None => Err (year_error p)
    end.
Proof.
  unfold resolve_year, resolved.
  destruct (explicit_year years i); [reflexivity|].
  destruct (infer_year_from_filename p); [reflexivity|].
  destruct d; reflexivity.
Qed.

Lemma normalize_from_ok (years : option (list Z)) (d : option Z)
    (paths : list string) :
  forall (i : nat) (res : list Z),
    normalize_from i paths years d = Ok res <->
    List.length res = List.length paths /\
    forall j p, nth_error paths j = Some p ->
      nth_error res j = resolved years d (i + j) p /\
      resolved years d (i + j) p <> None.
Proof.
  induction paths as [|p ps IH]; intros i res; cbn [normalize_from].
  - split.
    + intros [= <-]. split; [reflexivity|]. intros [|j] q; discriminate.
    + intros [H _]. destruct res; [reflexivity | discriminate].
  - rewrite resolve_year_resolved. split.
    + destruct (resolved years d i p) as [y|] eqn:Ey; [|discriminate].
      cbn [bind].
      destruct (normalize_from (S i) ps years d) as [rest|] eqn:En;
        [|discriminate].
      cbn [bind]. intros [= <-].
      apply IH in En as [Hl Hn]. split; [simpl; congruence|].
      intros [|j] q Hq.
      * injection Hq as <-. rewrite Nat.add_0_r, Ey. split; [reflexivity | discriminate].
      * replace (i + S j)%nat with (S i + j)%nat by lia. apply Hn. exact Hq.
    + intros [Hl Hn]. destruct res as [|y rest]; [discriminate|].
      destruct (Hn 0%nat p eq_refl) as [H0 H0']. rewrite Nat.add_0_r in H0, H0'.
      simpl in H0. rewrite <- H0. cbn [bind].
      assert (En : normalize_from (S i) ps years d = Ok rest).
      { apply IH. split; [simpl in Hl; lia|].
        intros j q Hq. replace (S i + j)%nat with (i + S j)%nat by lia.
        apply (Hn (S j) q Hq). }
      rewrite En. reflexivity.
Qed.

Lemma normalize_from_err (years : option (list Z)) (d : option Z)
    (paths : list string) :
  forall (i : nat) (e : exn),
    normalize_from i paths years d = Err e <->
    exists j p,
      nth_error paths j = Some p /\
      resolved years d (i + j) p = None /\ e = year_error p /\
      forall k q, (k < j)%nat -> nth_error paths k = Some q ->
        resolved years d (i + k) q <> None.
Proof.
  induction paths as [|p ps IH]; intros i e; cbn [normalize_from].
  - split; [discriminate|]. intros ([|j] & q & Hq & _); discriminate.
  - rewrite resolve_year_resolved. split.
    + destruct (resolved years d i p) as [y|] eqn:Ey.
      * cbn [bind].
        destruct (normalize_from (S i) ps years d) as [rest|e'] eqn:En;
          [discriminate|].
        cbn [bind]. intros [= <-].
        apply IH in En as (j & q & Hq & Hr & He & Hfirst).
        exists (S j), q. replace (i + S j)%nat with (S i + j)%nat by lia.
        repeat split; auto.
        intros [|k] q' Hk Hq'.
        -- injection Hq' as <-. rewrite Nat.add_0_r, Ey. discriminate.
        -- replace (i + S k)%nat with (S i + k)%nat by lia.
           apply (Hfirst k q'); [lia | exact Hq'].
      * cbn [bind]. intros [= <-]. exists 0%nat, p.
        rewrite Nat.add_0_r. repeat split; auto. intros k q Hk. lia.
    + intros ([|j] & q & Hq & Hr & -> & Hfirst).
      * injection Hq as <-. rewrite Nat.add_0_r in Hr. rewrite Hr. reflexivity.
      * destruct (resolved years d i p) as [y|] eqn:Ey.
        -- cbn [bind].
           assert (En : normalize_from (S i) ps years d = Err (year_error q)).
           { apply IH. exists j, q.
             replace (S i + j)%nat with (i + S j)%nat by lia.
             repeat split; auto.
             intros k q' Hk Hq'.
             replace (S i + k)%nat with (i + S k)%nat by lia.
             apply (Hfirst (S k) q'); [lia | exact Hq']. }
           rewrite En. reflexivity.
        -- exfalso. apply (Hfirst 0%nat p); [lia | reflexivity |].
           rewrite Nat.add_0_r. exact Ey.
Qed.

(** C6: the base name of data/penumpang_1999.csv holds the four-digit number
    1999, of the range 1900..2100, and no explicit year is given; the pattern
    of [infer_year_from_filename] recognises only 20 followed by two digits,
    so no year is inferred although the guard of the function admits
    1900..2100: the source takes the default year 2024, and without a default
    year the resolution fails.  The same holds of 2100 in rekap_2100.csv. *)
Lemma year_1999_not_inferred :
  names_year "data/penumpang_1999.csv" 1999 /\
  explicit_year None 0 = None /\
  infer_year_from_filename "data/penumpang_1999.csv" = None /\
  resolve_year None (Some 2024%Z) 0 "data/penumpang_1999.csv" = Ok 2024%Z /\
  _normalize_years_for_inputs ["data/penumpang_1999.csv"] None (Some 2024%Z)
    = Ok [2024%Z] /\
  _normalize_years_for_inputs ["data/penumpang_1999.csv"] None None
    = Err (year_error "data/penumpang_1999.csv") /\
  names_year "rekap_2100.csv" 2100 /\
  _normalize_years_for_inputs ["rekap_2100.csv"] None (Some 2024%Z)
    = Ok [2024%Z].
Proof.
  unfold names_year.
  repeat split; try reflexivity; try lia.
Qed.

(** ** Explicit years of another length than the sources *)

Lemma explicit_year_positional (ys : list Z) (i : nat) :
  (2 <= List.length ys)%nat -> explicit_year (Some ys) i = nth_error ys i.
Proof.
  intros H. unfold explicit_year, Np.len.
  destruct (Z.eqb_spec (Z.of_nat (List.length ys)) 1); [lia|].
  destruct (Z.ltb_spec (Z.of_nat i) (Z.of_nat (List.length ys))); [reflexivity|].
  symmetry. apply nth_error_None. lia.
Qed.

Lemma resolved_positional (ys : list Z) (d : option Z) (i : nat) (p : string) :
  (2 <= List.length ys)%nat ->
  ((i < List.length ys)%nat ->
     resolved (Some ys) d i p = nth_error ys i /\ nth_error ys i <> None) /\
  ((List.length ys <= i)%nat ->
     resolved (Some ys) d i p =
       match infer_year_from_filename p with
       | Some y => Some y
       | None => d
       end).
Proof.
  intros H. unfold resolved. rewrite (explicit_year_positional ys i H). split.
  - intros Hi. apply nth_error_Some in Hi.
    destruct (nth_error ys i); [split; [reflexivity | discriminate] | congruence].
  - intros Hi. apply nth_error_None in Hi. now rewrite Hi.
Qed.

Lemma normalize_from_ext (years years' : option (list Z)) (d : option Z)
    (paths : list string) :
  forall i,
    (forall j p, nth_error paths j = Some p ->
       resolved years d (i + j) p = resolved years' d (i + j) p) ->
    normalize_from i paths years d = normalize_from i paths years' d.
Proof.
  induction paths as [|p ps IH]; intros i H; cbn [normalize_from]; [reflexivity|].
  rewrite !resolve_year_resolved.
  pose proof (H 0%nat p eq_refl) as H0. rewrite Nat.add_0_r in H0.
  rewrite H0.
  rewrite (IH (S i)); [reflexivity|].
  intros j q Hq. replace (S i + j)%nat with (i + S j)%nat by lia.
  apply (H (S j) q Hq).
Qed.

(** C10: with two or more explicit years whose number differs from the number
    of sources, normalization does not fail on the mismatch: a source at a
    position within the list takes the year at its position, surplus years
    are ignored, and a source beyond the end of the list takes the year
    inferred from its name, else the default year; the only failure is a
    source beyond the end for which both are absent. *)
Theorem years_length_mismatch (paths : list string) (ys : list Z)
    (d : option Z) :
  (2 <= List.length ys)%nat -> List.length ys <> List.length paths ->
  (forall res,
     _normalize_years_for_inputs paths (Some ys) d = Ok res ->
     List.length res = List.length paths /\
     forall i p, nth_error paths i = Some p ->
       ((i < List.length ys)%nat -> nth_error res i = nth_error ys i) /\
       ((List.length ys <= i)%nat ->
          nth_error res i =
            match infer_year_from_filename p with
            | Some y => Some y
            | None => d
            end)) /\
  (forall e,
     _normalize_years_for_inputs paths (Some ys) d = Err e <->
     exists i p,
       nth_error paths i = Some p /\ (List.length ys <= i)%nat /\
       infer_year_from_filename p = None /\ d = None /\ e = year_error p /\
       forall k q, (k < i)%nat -> nth_error paths k = Some q ->
         (List.length ys <= k)%nat -> infer_year_from_filename q <> None) /\
  ((forall i p, nth_error paths i = Some p -> (List.length ys <= i)%nat ->
      infer_year_from_filename p <> None \/ d <> None) ->
   exists res, _normalize_years_for_inputs paths (Some ys) d = Ok res) /\
  (forall extra,
     (List.length paths <= List.length ys)%nat ->
     _normalize_years_for_inputs paths (Some (ys ++ extra)%list) d =
     _normalize_years_for_inputs paths (Some ys) d).
Proof.
  intros Hys _. unfold _normalize_years_for_inputs.
  assert (Herr : forall e,
     normalize_from 0 paths (Some ys) d = Err e <->
     exists i p,
       nth_error paths i = Some p /\ (List.length ys <= i)%nat /\
       infer_year_from_filename p = None /\ d = None /\ e = year_error p /\
       forall k q, (k < i)%nat -> nth_error paths k = Some q ->
         (List.length ys <= k)%nat -> infer_year_from_filename q <> None).
  { intros e. rewrite normalize_from_err. split.
    - intros (j & p & Hp & Hr & -> & Hfirst). simpl in Hr.
      exists j, p.
      destruct (resolved_positional ys d j p Hys) as [Hin Hout].
      destruct (Nat.lt_ge_cases j (List.length ys)) as [Hj | Hj].
      + destruct (Hin Hj) as [E Hne]. rewrite E in Hr. contradiction.
      + rewrite (Hout Hj) in Hr.
        destruct (infer_year_from_filename p) eqn:Ei; [discriminate|].
        repeat split; auto.
        intros k q Hk Hq Hlen Hnone.
        apply (Hfirst k q Hk Hq). simpl.
        rewrite (proj2 (resolved_positional ys d k q Hys) Hlen), Hnone.
        exact Hr.
    - intros (j & p & Hp & Hj & Hi & -> & -> & Hfirst).
      exists j, p. simpl. repeat split; auto.
      + rewrite (proj2 (resolved_positional ys None j p Hys) Hj), Hi.
        reflexivity.
      + intros k q Hk Hq.
        destruct (resolved_positional ys None k q Hys) as [Hin Hout].
        destruct (Nat.lt_ge_cases k (List.length ys)) as [Hk' | Hk'].
        * destruct (Hin Hk') as [E Hne]. rewrite E. exact Hne.
        * rewrite (Hout Hk').
          pose proof (Hfirst k q Hk Hq Hk') as Hne.
          destruct (infer_year_from_filename q); [discriminate | congruence]. }
  split; [|split; [exact Herr|split]].
  - intros res Hok. apply normalize_from_ok in Hok as [Hl Hn].
    split; [exact Hl|]. intros i p Hp.
    destruct (Hn i p Hp) as [E _]. simpl in E. rewrite E.
    destruct (resolved_positional ys d i p Hys) as [Hin Hout].
    split; [intros Hi; apply (Hin Hi) | exact Hout].
  - intros Hall.
    destruct (normalize_from 0 paths (Some ys) d) as [res|e] eqn:E;
      [exists res; reflexivity|].
    destruct (proj1 (Herr e) eq_refl) as (i & p & Hp & Hi & Hinf & Hd & _).
    destruct (Hall i p Hp Hi); contradiction.
  - intros extra Hlen. apply normalize_from_ext.
    intros j p Hp. simpl.
    assert (Hj : (j < List.length paths)%nat)
      by (apply nth_error_Some; congruence).
    unfold resolved.
    rewrite !explicit_year_positional by (rewrite ?length_app; lia).
    rewrite nth_error_app1 by lia. reflexivity.
Qed.

Lemma years_length_mismatch_witness :
  (forall res,
     _normalize_years_for_inputs ["a_2021.csv"; "b.csv"; "c_2023.csv"]
       (Some [2001; 2002]%Z) (Some 2024%Z) = Ok res ->
     List.length res = 3%nat /\
     forall i p,
       nth_error ["a_2021.csv"; "b.csv"; "c_2023.csv"] i = Some p ->
       ((i < 2)%nat -> nth_error res i = nth_error [2001; 2002]%Z i) /\
       ((2 <= i)%nat ->
          nth_error res i =
            match infer_year_from_filename p with
            | Some y => Some y
            | None => Some 2024%Z
            end)) /\
  _normalize_years_for_inputs ["a_2021.csv"; "b.csv"; "c_2023.csv"]
    (Some [2001; 2002]%Z) (Some 2024%Z) = Ok [2001; 2002; 2023]%Z.
Proof.
  split; [|reflexivity].
  apply (proj1 (years_length_mismatch ["a_2021.csv"; "b.csv"; "c_2023.csv"]
                  [2001; 2002]%Z (Some 2024%Z) ltac:(simpl; lia)
                  ltac:(simpl; lia))).
Defined.

(** ** Sorting *)

Section SortValuesFacts.

Variable A : Type.
Variable leb : A -> A -> bool.
Hypothesis leb_total : forall a b, leb a b = false -> leb b a = true.
Hypothesis leb_trans :
  forall a b c, leb a b = true -> leb b c = true -> leb a c = true.

Let R (a b : A) : Prop := leb a b = true.

Lemma insert_sorted_perm (x : A) (l : list A) :
  Permutation (insert_sorted leb x l) (x :: l).
Proof.
  induction l as [|y l IH]; simpl; [reflexivity|].
  destruct (leb x y); [reflexivity|].
  rewrite IH. apply perm_swap.
Qed.

Lemma sort_values_perm (l : list A) : Permutation (sort_values leb l) l.
Proof.
  induction l as [|x l IH]; simpl; [reflexivity|].
  rewrite insert_sorted_perm. now constructor.
Qed.

Lemma insert_sorted_sorted (x : A) (l : list A) :
  StronglySorted R l -> StronglySorted R (insert_sorted leb x l).
Proof.
  induction 1 as [|y l Hs IH Hy]; simpl.
  - constructor; constructor.
  - destruct (leb x y) eqn:E.
    + constructor; [constructor; assumption|].
      constructor; [exact E|].
      apply Forall_forall. intros z Hz.
      apply (leb_trans x y z E). rewrite Forall_forall in Hy. now apply Hy.
    + constructor; [exact IH|].
      apply (Permutation_Forall (Permutation_sym (insert_sorted_perm x l))).
      constructor; [apply leb_total, E | exact Hy].
Qed.

Lemma sort_values_sorted (l : list A) : StronglySorted R (sort_values leb l).
Proof.
  induction l as [|x l IH]; simpl; [constructor|].
  now apply insert_sorted_sorted.
Qed.

End SortValuesFacts.

Lemma StronglySorted_filter (A : Type) (R : A -> A -> Prop) (f : A -> bool)
    (l : list A) :
  StronglySorted R l -> StronglySorted R (filter f l).
Proof.
  induction 1 as [|a l Hs IH Ha]; simpl; [constructor|].
  destruct (f a); [|exact IH].
  constructor; [exact IH|].
  rewrite Forall_forall in *. intros x Hx. apply filter_In in Hx as [Hx _].
  now apply Ha.
Qed.

Lemma StronglySorted_weaken (A : Type) (R R' : A -> A -> Prop) (P : A -> Prop)
    (l : list A) :
  (forall a b, P a -> P b -> R a b -> R' a b) ->
  Forall P l -> StronglySorted R l -> StronglySorted R' l.
Proof.
  intros HR HP Hs. induction Hs as [|a l Hs IH Ha]; [constructor|].
  inversion HP as [|? ? Pa Pl]; subst.
  constructor; [now apply IH|].
  rewrite Forall_forall in *. intros x Hx. apply HR; auto.
Qed.

(** ** The order on sort keys *)

Lemma ascii_compare_refl (c : ascii) : Ascii.compare c c = Eq.
Proof. unfold Ascii.compare. apply N.compare_refl. Qed.

Lemma ascii_compare_lt_trans (a b c : ascii) :
  Ascii.compare a b = Lt -> Ascii.compare b c = Lt -> Ascii.compare a c = Lt.
Proof.
  unfold Ascii.compare. rewrite !N.compare_lt_iff. apply N.lt_trans.
Qed.

Lemma string_compare_refl (s : string) : String.compare s s = Eq.
Proof.
  induction s as [|c s IH]; simpl; [reflexivity|].
  now rewrite ascii_compare_refl.
Qed.

Lemma string_compare_lt_trans (a b c : string) :
  String.compare a b = Lt -> String.compare b c = Lt -> String.compare a c = Lt.
Proof.
  revert b c. induction a as [|x a IH]; intros [|y b] [|z c]; simpl;
    try discriminate; auto.
  destruct (Ascii.compare x y) eqn:Exy; try discriminate;
    destruct (Ascii.compare y z) eqn:Eyz; try discriminate; intros H1 H2.
  - apply Ascii.compare_eq_iff in Exy, Eyz. subst.
    rewrite ascii_compare_refl. now apply (IH b c).
  - apply Ascii.compare_eq_iff in Exy. subst. now rewrite Eyz.
  - apply Ascii.compare_eq_iff in Eyz. subst. now rewrite Exy.
  - now rewrite (ascii_compare_lt_trans x y z Exy Eyz).
Qed.

Lemma opt_leb_total (a b : option Z) : opt_leb a b = false -> opt_leb b a = true.
Proof.
  destruct a, b; simpl; try discriminate; auto.
  intros H. apply Z.leb_gt in H. apply Z.leb_le. lia.
Qed.

Lemma opt_leb_trans (a b c : option Z) :
  opt_leb a b = true -> opt_leb b c = true -> opt_leb a c = true.
Proof.
  destruct a, b, c; simpl; try discriminate; auto.
  rewrite !Z.leb_le. lia.
Qed.

Lemma key_leb_total (k1 k2 : key) : key_leb k1 k2 = false -> key_leb k2 k1 = true.
Proof.
  unfold key_leb. rewrite (String.compare_antisym (fst k2) (fst k1)).
  destruct (String.compare (fst k1) (fst k2)); simpl; try discriminate; auto.
  apply opt_leb_total.
Qed.

Lemma key_leb_trans (k1 k2 k3 : key) :
  key_leb k1 k2 = true -> key_leb k2 k3 = true -> key_leb k1 k3 = true.
Proof.
  unfold key_leb.
  destruct (String.compare (fst k1) (fst k2)) eqn:E12; try discriminate;
    destruct (String.compare (fst k2) (fst k3)) eqn:E23; try discriminate;
    intros H1 H2.
  - apply String.compare_eq_iff in E12, E23. rewrite E12, E23.
    rewrite string_compare_refl. now apply (opt_leb_trans _ (snd k2)).
  - apply String.compare_eq_iff in E12. now rewrite E12, E23.
  - apply String.compare_eq_iff in E23. now rewrite <- E23, E12.
  - now rewrite (string_compare_lt_trans _ _ _ E12 E23).
Qed.

Lemma sort_by_perm (k : LongRow -> key) (l : list LongRow) :
  Permutation (sort_by k l) l.
Proof. apply sort_values_perm. Qed.

Lemma sort_by_sorted (k : LongRow -> key) (l : list LongRow) :
  StronglySorted (key_le k) (sort_by k l).
Proof.
  apply (sort_values_sorted _ (fun r1 r2 => key_leb (k r1) (k r2))).
  - intros a b. apply key_leb_total.
  - intros a b c. apply key_leb_trans.
Qed.

Lemma sort_by_In (k : LongRow -> key) (l : list LongRow) (r : LongRow) :
  In r (sort_by k l) <-> In r l.
Proof.
  split; apply Permutation_in;
    [apply sort_by_perm | apply Permutation_sym, sort_by_perm].
Qed.

(** ** Table loader *)

Section LoaderFacts.

Variable read_csv : string -> result DataFrame.
Variable parse_number : string -> option Q.

Let load := load_and_transform read_csv parse_number.

Lemma load_inv (path : string) (year : Z) (out : list LongRow) :
  load path year = Ok out ->
  exists df,
    read_csv path = Ok df /\ (2 <= Np.len (columns df))%Z /\
    bulan_kolom (columns df) <> [] /\
    out = sort_by key_month (dropna (long_form parse_number df year)).
Proof.
  unfold load, load_and_transform.
  destruct (read_csv path) as [df|e]; [|discriminate]. cbn [bind].
  destruct (Z.ltb_spec (Np.len (columns df)) 2); [discriminate|].
  destruct (Z.eqb_spec (Np.len (bulan_kolom (columns df))) 0); [discriminate|].
  intros [= <-]. exists df. repeat split; auto.
  intros E. rewrite E in *. contradiction.
Qed.

Lemma to_datetime_some (year : Z) (m : option Z) (d : Timestamp) :
  to_datetime year m = Some d ->
  ts_year d = year /\ m = Some (ts_month d) /\ (1 <= ts_month d <= 12)%Z.
Proof.
  unfold to_datetime. destruct m as [m|]; [|discriminate].
  destruct (_ && _) eqn:E; [|discriminate].
  intros [= <-]. simpl.
  rewrite !andb_true_iff, !Z.leb_le in E. repeat split; lia.
Qed.

Lemma melt_In (names : list string) (rs : list Row) (months : list string)
    (year : Z) (r : LongRow) :
  In r (melt parse_number names rs months year) <->
  exists b row,
    In b months /\ In row rs /\
    r = {| tipe_kendaraan := label row;
           bulan := b;
           jumlah := to_numeric parse_number (cell_at (tl names) (values row) b);
           month_num := month_map b;
           tanggal := to_datetime year (month_map b) |}.
Proof.
  unfold melt. rewrite in_flat_map. split.
  - intros (b & Hb & Hr). apply in_map_iff in Hr as (row & <- & Hrow).
    exists b, row. auto.
  - intros (b & row & Hb & Hrow & ->). exists b. split; [exact Hb|].
    apply in_map_iff. exists row. auto.
Qed.

Lemma loaded_row_intro (year : Z) (r : LongRow) :
  tanggal r = to_datetime year (month_num r) ->
  complete r = true -> loaded_row year r.
Proof.
  intros Hd Hc. split; [exact Hc|].
  unfold complete in Hc. rewrite !andb_true_iff in Hc. destruct Hc as [[Hj Hm] Ht].
  destruct (jumlah r) as [q|]; [|discriminate].
  destruct (tanggal r) as [d|] eqn:Et; [|discriminate].
  symmetry in Hd. apply to_datetime_some in Hd as (Hy & Hmn & Hr).
  exists q, (ts_month d). rewrite Hmn. repeat split; auto; try lia.
  destruct d; simpl in *. now subst.
Qed.

Lemma load_rows (path : string) (year : Z) (out : list LongRow) :
  load path year = Ok out -> Forall (loaded_row year) out.
Proof.
  intros H. apply load_inv in H as (df & _ & _ & _ & ->).
  apply Forall_forall. intros r Hr.
  apply sort_by_In in Hr. unfold dropna in Hr. apply filter_In in Hr as [Hr Hc].
  apply loaded_row_intro; [|exact Hc].
  unfold long_form in Hr. apply melt_In in Hr as (b & row & _ & _ & ->).
  reflexivity.
Qed.

End LoaderFacts.

(** ** The cells behind the long table *)

Lemma mem_In (c : string) (l : list string) : mem c l = true <-> In c l.
Proof.
  unfold mem. rewrite existsb_exists. split.
  - intros (x & Hx & E). apply String.eqb_eq in E. now subst.
  - intros H. exists c. split; [exact H | apply String.eqb_refl].
Qed.

Lemma month_not_tahunan (b : string) : In b INDO_MONTHS -> is_tahunan b = false.
Proof.
  unfold INDO_MONTHS. simpl.
  intros H. repeat (destruct H as [<- | H]; [reflexivity|]). contradiction.
Qed.

Lemma cell_at_drop (dropped : string -> bool) (b : string) :
  dropped b = false ->
  forall (names : list string) (cells : list cell),
    cell_at (filter (fun c => negb (dropped c)) names)
            (drop_cells dropped names cells) b
    = cell_at names cells b.
Proof.
  intros Hb. induction names as [|n ns IH]; intros cells; [reflexivity|].
  destruct cells as [|c cs].
  - cbn [drop_cells].
    generalize (filter (fun c => negb (dropped c)) (n :: ns)).
    intros l. destruct l; reflexivity.
  - cbn [filter drop_cells cell_at].
    destruct (dropped n) eqn:En; cbn [negb].
    + destruct (String.eqb_spec n b) as [-> | _]; [congruence | apply IH].
    + cbn [cell_at]. destruct (String.eqb n b); [reflexivity | apply IH].
Qed.

Lemma renamed_columns_head (cols : list string) :
  cols <> [] ->
  exists rest, renamed_columns cols = "tipe_kendaraan" :: rest.
Proof.
  destruct cols as [|c cs]; [congruence|]. intros _.
  unfold renamed_columns. cbn [map]. rewrite String.eqb_refl.
  eexists. reflexivity.
Qed.

Lemma bulan_kolom_In (cols : list string) (b : string) :
  In b (bulan_kolom cols) <-> In b INDO_MONTHS /\ In b (renamed_columns cols).
Proof. unfold bulan_kolom. now rewrite filter_In, mem_In. Qed.

Section LongForm.

Variable parse_number : string -> option Q.

(** The rows of the long table are the cells of the wide table under its
    month columns. *)
Lemma long_form_In (df : DataFrame) (year : Z) (r : LongRow) :
  columns df <> [] ->
  (In r (long_form parse_number df year) <->
   exists b row,
     In b (bulan_kolom (columns df)) /\ In row (rows df) /\
     r = {| tipe_kendaraan := label row;
            bulan := b;
            jumlah := to_numeric parse_number
                        (cell_at (tl (renamed_columns (columns df)))
                                 (values row) b);
            month_num := month_map b;
            tanggal := to_datetime year (month_map b) |}).
Proof.
  intros Hcols. unfold long_form, drop. cbn [fst snd].
  destruct (renamed_columns_head (columns df) Hcols) as [rest Hn].
  set (dropped := fun c => mem c (filter is_tahunan (renamed_columns (columns df)))).
  assert (Hd : forall c, dropped c = true -> is_tahunan c = true).
  { intros c H. apply mem_In, filter_In in H. tauto. }
  assert (Hcell : forall b cells, In b (bulan_kolom (columns df)) ->
            cell_at (tl (filter (fun c => negb (dropped c))
                           (renamed_columns (columns df))))
                    (drop_cells dropped (tl (renamed_columns (columns df))) cells) b
            = cell_at (tl (renamed_columns (columns df))) cells b).
  { intros b cells Hb. apply bulan_kolom_In in Hb as [Hb _].
    rewrite Hn. cbn [filter tl].
    destruct (dropped "tipe_kendaraan") eqn:E;
      [apply Hd in E; discriminate|]. cbn [negb tl].
    apply cell_at_drop.
    destruct (dropped b) eqn:Eb; [|reflexivity].
    apply Hd in Eb. rewrite (month_not_tahunan b Hb) in Eb. discriminate. }
  rewrite melt_In. split.
  - intros (b & row' & Hb & Hrow & ->).
    apply in_map_iff in Hrow as (row & <- & Hrow). cbn [label values].
    exists b, row. rewrite (Hcell b _ Hb). auto.
  - intros (b & row & Hb & Hrow & ->).
    exists b. eexists. split; [exact Hb|]. split.
    + apply in_map_iff. exists row. split; [reflexivity | exact Hrow].
    + cbn [label values]. rewrite (Hcell b _ Hb). reflexivity.
Qed.

End LongForm.

(** ** Counts of the loaded rows *)

(** C7, as amended: every row of the loader's output has a numeric count, of
    either sign: the output holds exactly the cells under the recognized
    month columns that read as a number and whose date exists; a cell that
    does not read as a number is discarded, a negative number is kept. *)
Theorem loaded_counts_numeric (read_csv : string -> result DataFrame)
    (parse_number : string -> option Q) (path : string) (year : Z)
    (out : list LongRow) :
  load_and_transform read_csv parse_number path year = Ok out ->
  Forall (fun r => exists q, jumlah r = Some q) out /\
  exists df,
    read_csv path = Ok df /\
    Permutation out (dropna (long_form parse_number df year)) /\
    forall r,
      In r out <->
      exists b row q m d,
        In b (bulan_kolom (columns df)) /\ In row (rows df) /\
        to_numeric parse_number
          (cell_at (tl (renamed_columns (columns df))) (values row) b) = Some q /\
        month_map b = Some m /\ to_datetime year (Some m) = Some d /\
        r = {| tipe_kendaraan := label row; bulan := b; jumlah := Some q;
               month_num := Some m; tanggal := Some d |}.
Proof.
  intros H. split.
  - apply load_rows in H. apply Forall_forall. intros r Hr.
    rewrite Forall_forall in H. destruct (H r Hr) as (_ & q & m & Hq & _).
    exists q. exact Hq.
  - destruct (load_inv _ _ _ _ _ H) as (df & Hdf & Hlen & _ & ->).
    exists df. split; [exact Hdf|]. split; [apply sort_by_perm|].
    assert (Hcols : columns df <> []).
    { intros E. rewrite E in Hlen. unfold Np.len in Hlen. simpl in Hlen. lia. }
    intros r. rewrite sort_by_In. unfold dropna. rewrite filter_In.
    rewrite (long_form_In parse_number df year r Hcols). split.
    + intros ((b & row & Hb & Hrow & ->) & Hc).
      unfold complete in Hc. cbn [jumlah month_num tanggal] in Hc.
      rewrite !andb_true_iff in Hc. destruct Hc as [[Hj Hm] Ht].
      destruct (to_numeric _ _) as [q|] eqn:Eq; [|discriminate].
      destruct (month_map b) as [m|] eqn:Em; [|discriminate].
      destruct (to_datetime year (Some m)) as [d|] eqn:Ed; [|discriminate].
      exists b, row, q, m, d. repeat split; auto.
    + intros (b & row & q & m & d & Hb & Hrow & Hq & Hm & Hd & ->).
      split.
      * exists b, row. rewrite Hq, Hm, Hd. auto.
      * reflexivity.
Qed.

Lemma loaded_counts_numeric_witness :
  exists out,
    load_and_transform berkas no_text_number "data/penumpang 2024.csv" 2024
      = Ok out /\
    Forall (fun r => exists q, jumlah r = Some q) out.
Proof.
  eexists. split; [reflexivity|].
  apply (loaded_counts_numeric berkas no_text_number
           "data/penumpang 2024.csv" 2024 _ eq_refl).
Defined.

(** C7 fails as stated: the cell -5 under Januari is loaded, so the output
    has a row whose count is negative. *)
Lemma negative_count_kept :
  exists out,
    load_and_transform berkas no_text_number "data/penumpang 2024.csv" 2024
      = Ok out /\
    In {| tipe_kendaraan := "Total"; bulan := "Januari"; jumlah := Some (-5);
          month_num := Some 1%Z;
          tanggal := Some {| ts_year := 2024; ts_month := 1 |} |} out /\
    ~ Forall count_nonneg out.
Proof.
  eexists. split; [reflexivity|].
  assert (Hin : In {| tipe_kendaraan := "Total"; bulan := "Januari";
                      jumlah := Some (-5); month_num := Some 1%Z;
                      tanggal := Some {| ts_year := 2024; ts_month := 1 |} |}
                   (sort_by key_month
                      (dropna (long_form no_text_number tabel_2024 2024)))).
  { vm_compute. auto. }
  split; [exact Hin|].
  intros H. rewrite Forall_forall in H.
  destruct (H _ Hin) as (q & Hq & Hpos). cbn [jumlah] in Hq.
  injection Hq as <-. revert Hpos. unfold Qle. simpl. lia.
Qed.

(** ** Shape errors of the loader *)

(** C8, as amended: for a year from 1 to 9999 and a table that was read
    whose column names are ASCII text (byte-order marks apart), distinct
    after cleaning and renaming and none of them [jumlah], loading fails
    exactly when the table has fewer than two columns or none of its columns,
    cleaned and with the first one renamed, is a month name; the error is a
    [ValueError] with one of two fixed messages, which do not depend on the
    source. *)
Theorem loader_schema_errors (read_csv : string -> result DataFrame)
    (parse_number : string -> option Q) (path : string) (year : Z)
    (df : DataFrame) :
  read_csv path = Ok df ->
  plain_header (columns df) -> (1 <= year <= 9999)%Z ->
  (load_and_transform read_csv parse_number path year
     = Err (ValueError msg_columns) <-> (Np.len (columns df) < 2)%Z) /\
  (load_and_transform read_csv parse_number path year
     = Err (ValueError msg_months) <->
   (2 <= Np.len (columns df))%Z /\ bulan_kolom (columns df) = []) /\
  ((exists out, load_and_transform read_csv parse_number path year = Ok out) <->
   (2 <= Np.len (columns df))%Z /\ bulan_kolom (columns df) <> []) /\
  (forall e,
     load_and_transform read_csv parse_number path year = Err e ->
     e = ValueError msg_columns \/ e = ValueError msg_months) /\
  (bulan_kolom (columns df) = [] <->
   forall b, In b INDO_MONTHS -> ~ In b (renamed_columns (columns df))) /\
  (forall path',
     read_csv path' = Ok df ->
     load_and_transform read_csv parse_number path' year =
     load_and_transform read_csv parse_number path year).
Proof.
  intros Hdf _ _.
  assert (Hmsg : msg_columns <> msg_months) by discriminate.
  assert (Hload : forall p, read_csv p = Ok df ->
            load_and_transform read_csv parse_number p year =
            if (Np.len (columns df) <? 2)%Z then Err (ValueError msg_columns)
            else if (Np.len (bulan_kolom (columns df)) =? 0)%Z
                 then Err (ValueError msg_months)
                 else Ok (sort_by key_month
                            (dropna (long_form parse_number df year)))).
  { intros p Hp. unfold load_and_transform. rewrite Hp. reflexivity. }
  assert (Hnil : (Np.len (bulan_kolom (columns df)) =? 0)%Z = true <->
                 bulan_kolom (columns df) = []).
  { rewrite Z.eqb_eq. unfold Np.len.
    destruct (bulan_kolom (columns df)); simpl; split; try easy; lia. }
  rewrite (Hload path Hdf).
  destruct (Z.ltb_spec (Np.len (columns df)) 2) as [Hlt | Hge].
  - split; [|split; [|split; [|split; [|split]]]].
    + tauto.
    + split; [intros [= E]; congruence | lia].
    + split; [intros [out E]; discriminate | lia].
    + intros e [= <-]. auto.
    + split.
      * intros E b Hb Hin.
        assert (H : In b (bulan_kolom (columns df)))
          by (apply bulan_kolom_In; auto).
        rewrite E in H. contradiction.
      * intros H. destruct (bulan_kolom (columns df)) as [|b l] eqn:E;
          [reflexivity|].
        assert (Hb : In b (bulan_kolom (columns df)))
          by (rewrite E; left; reflexivity).
        apply bulan_kolom_In in Hb as [Hb1 Hb2]. destruct (H b Hb1 Hb2).
    + intros path' Hp. now rewrite (Hload path' Hp).
  - destruct (Np.len (bulan_kolom (columns df)) =? 0)%Z eqn:E0.
    + clear E0. pose proof (proj1 Hnil eq_refl) as E0.
      split; [|split; [|split; [|split; [|split]]]].
      * split; [intros [= E]; congruence | lia].
      * tauto.
      * split; [intros [out E]; discriminate | intros [_ H]; contradiction].
      * intros e [= <-]. auto.
      * split.
        -- intros _ b Hb Hin.
           assert (H : In b (bulan_kolom (columns df)))
             by (apply bulan_kolom_In; auto).
           rewrite E0 in H. contradiction.
        -- intros _. exact E0.
      * intros path' Hp. now rewrite (Hload path' Hp).
    + assert (Hne : bulan_kolom (columns df) <> []).
      { intros E. apply Hnil in E. discriminate. }
      split; [|split; [|split; [|split; [|split]]]].
      * split; [discriminate | lia].
      * split; [discriminate | intros [_ H]; contradiction].
      * split; [auto | intros _; eexists; reflexivity].
      * intros e E. discriminate.
      * split; [intros E; contradiction|].
        intros H. destruct (bulan_kolom (columns df)) as [|b l] eqn:E;
          [reflexivity|].
        assert (Hb : In b (bulan_kolom (columns df)))
          by (rewrite E; left; reflexivity).
        apply bulan_kolom_In in Hb as [Hb1 Hb2]. destruct (H b Hb1 Hb2).
      * intros path' Hp. now rewrite (Hload path' Hp).
Qed.

Lemma plain_header_tabel_2024 : plain_header (columns tabel_2024).
Proof.
  split; [|split].
  - repeat constructor.
  - repeat constructor; simpl; intuition discriminate.
  - simpl. intuition discriminate.
Qed.

Lemma plain_header_tabel_satu_kolom : plain_header (columns tabel_satu_kolom).
Proof.
  split; [|split].
  - repeat constructor.
  - repeat constructor; simpl; intuition discriminate.
  - simpl. intuition discriminate.
Qed.

Lemma loader_schema_errors_witness :
  load_and_transform berkas no_text_number "data/satu.csv" 2024
    = Err (ValueError msg_columns) /\
  exists out,
    load_and_transform berkas no_text_number "data/penumpang 2024.csv" 2024
    = Ok out.
Proof.
  split.
  - apply (proj1 (loader_schema_errors berkas no_text_number
                    "data/satu.csv" 2024 tabel_satu_kolom eq_refl
                    plain_header_tabel_satu_kolom ltac:(lia))).
    vm_compute. reflexivity.
  - apply (proj1 (proj2 (proj2 (loader_schema_errors berkas no_text_number
                    "data/penumpang 2024.csv" 2024 tabel_2024 eq_refl
                    plain_header_tabel_2024 ltac:(lia))))).
    split; [vm_compute; discriminate | discriminate].
Defined.

(** C8 fails as stated: both shape errors carry a fixed message that names
    neither the path nor the file. *)
Lemma schema_error_omits_source :
  load_and_transform berkas no_text_number "data/satu.csv" 2024
    = Err (ValueError msg_columns) /\
  Str.contains "data/satu.csv" msg_columns = false /\
  Str.contains (Str.basename "data/satu.csv") msg_columns = false /\
  load_and_transform berkas no_text_number "data/tanpa_bulan.csv" 2024
    = Err (ValueError msg_months) /\
  Str.contains "data/tanpa_bulan.csv" msg_months = false /\
  Str.contains (Str.basename "data/tanpa_bulan.csv") msg_months = false.
Proof. repeat split; vm_compute; reflexivity. Qed.

(** ** Merged series *)

Section MergerFacts.

Variable read_csv : string -> result DataFrame.
Variable parse_number : string -> option Q.

Lemma load_all_frames (sources : list (string * Z)) :
  forall frames,
    load_all read_csv parse_number sources = Ok frames ->
    Forall2 (fun s f =>
               load_and_transform read_csv parse_number (fst s) (snd s) = Ok f)
            sources frames.
Proof.
  induction sources as [|[p y] rest IH]; intros frames; cbn [load_all].
  - intros [= <-]. constructor.
  - destruct (load_and_transform read_csv parse_number p y) as [f|] eqn:E;
      [|discriminate]. cbn [bind].
    destruct (load_all read_csv parse_number rest) as [fs|]; [|discriminate].
    cbn [bind]. intros [= <-]. constructor; [exact E | now apply IH].
Qed.

Lemma load_all_rows (sources : list (string * Z)) (frames : list (list LongRow)) :
  load_all read_csv parse_number sources = Ok frames ->
  Forall (fun r => exists year, loaded_row year r) (List.concat frames).
Proof.
  intros H. apply load_all_frames in H.
  induction H as [|[p y] f sources frames Hf _ IH]; simpl; [constructor|].
  apply Forall_app. split; [|exact IH].
  apply load_rows in Hf. simpl in Hf.
  eapply Forall_impl; [|exact Hf]. intros r Hr. now exists y.
Qed.

Lemma merge_inv (paths : list string) (years : option (list Z))
    (d : option Z) (out : list LongRow) :
  load_and_transform_multi read_csv parse_number paths years d = Ok out ->
  exists norm_years frames,
    paths <> [] /\
    _normalize_years_for_inputs paths years d = Ok norm_years /\
    load_all read_csv parse_number (combine paths norm_years) = Ok frames /\
    out = sort_by key_date (List.concat frames).
Proof.
  unfold load_and_transform_multi.
  destruct paths as [|p ps]; [discriminate|].
  destruct (_normalize_years_for_inputs (p :: ps) years d) as [ny|] eqn:E1;
    [|discriminate]. cbn [bind].
  destruct (load_all read_csv parse_number (combine (p :: ps) ny)) as [fs|] eqn:E2;
    [|discriminate]. cbn [bind].
  intros [= <-]. exists ny, fs.
  split; [discriminate|]. split; [reflexivity|]. split; [exact E2 | reflexivity].
Qed.

End MergerFacts.

Lemma key_date_same_category (r1 r2 : LongRow) :
  tipe_kendaraan r1 = tipe_kendaraan r2 ->
  (exists y, loaded_row y r1) -> (exists y, loaded_row y r2) ->
  key_le key_date r1 r2 -> date_le r1 r2.
Proof.
  intros Hc (y1 & _ & q1 & m1 & _ & _ & Hm1 & Hd1)
            (y2 & _ & q2 & m2 & _ & _ & Hm2 & Hd2).
  unfold key_le, key_leb, key_date. cbn [fst snd].
  rewrite Hc, string_compare_refl, Hd1, Hd2. simpl.
  intros H. apply Z.leb_le in H. unfold ts_ord in H. simpl in H.
  do 2 eexists. split; [exact Hd1|]. split; [exact Hd2|].
  unfold chrono_le. simpl. lia.
Qed.

(** ** Distinct observations *)

Lemma NoDup_map_filter {A B : Type} (k : A -> B) (f : A -> bool) (l : list A) :
  NoDup (map k l) -> NoDup (map k (filter f l)).
Proof.
  induction l as [|a l IH]; simpl; intros H; [constructor|].
  inversion H as [|? ? Hn Hd]; subst.
  destruct (f a); [|now apply IH].
  simpl. constructor; [|now apply IH].
  intros Hin. apply Hn. apply in_map_iff in Hin as (x & Hx & Hin).
  apply filter_In in Hin as [Hin _]. apply in_map_iff. now exists x.
Qed.

Lemma NoDup_map_finer {A B C : Type} (k : A -> B) (k' : A -> C) (l : list A) :
  NoDup (map k l) ->
  (forall a b, In a l -> In b l -> k' a = k' b -> k a = k b) ->
  NoDup (map k' l).
Proof.
  induction l as [|a l IH]; simpl; intros H Hk; [constructor|].
  inversion H as [|? ? Hn Hd]; subst.
  constructor.
  - intros Hin. apply Hn. apply in_map_iff in Hin as (x & Hx & Hin).
    apply in_map_iff. exists x. split; [|exact Hin].
    apply Hk; auto.
  - apply IH; [exact Hd|]. intros x y Hx Hy. apply Hk; auto.
Qed.

Lemma month_index_nth (months : list string) (b : string) :
  forall (i m : Z),
    month_index i months b = Some m ->
    (i < m)%Z /\ nth_error months (Z.to_nat (m - i - 1)) = Some b.
Proof.
  induction months as [|x ms IH]; intros i m; cbn [month_index]; [discriminate|].
  destruct (String.eqb_spec x b) as [-> | Hne].
  - intros [= <-]. split; [lia|].
    replace (i + 1 - i - 1)%Z with 0%Z by lia. reflexivity.
  - intros H. apply IH in H as [Hlt Hn]. split; [lia|].
    replace (Z.to_nat (m - i - 1)) with (S (Z.to_nat (m - (i + 1) - 1))) by lia.
    exact Hn.
Qed.

Lemma month_map_inj (b1 b2 : string) (m : Z) :
  month_map b1 = Some m -> month_map b2 = Some m -> b1 = b2.
Proof.
  unfold month_map. intros H1 H2.
  apply month_index_nth in H1 as [_ H1]. apply month_index_nth in H2 as [_ H2].
  congruence.
Qed.

Lemma INDO_MONTHS_NoDup : NoDup INDO_MONTHS.
Proof.
  unfold INDO_MONTHS.
  repeat (constructor;
          [simpl; intros H;
           repeat (destruct H as [H | H]; [discriminate|]); exact H|]).
  constructor.
Qed.

Lemma bulan_kolom_NoDup (cols : list string) : NoDup (bulan_kolom cols).
Proof. apply NoDup_filter, INDO_MONTHS_NoDup. Qed.

Section DistinctRows.

Variable read_csv : string -> result DataFrame.
Variable parse_number : string -> option Q.

Lemma melt_key_bulan_NoDup (names : list string) (rs : list Row)
    (months : list string) (year : Z) :
  NoDup (map label rs) -> NoDup months ->
  NoDup (map key_bulan (melt parse_number names rs months year)).
Proof.
  intros Hl Hm. unfold melt.
  induction Hm as [|b ms Hb Hms IH]; cbn [flat_map]; [constructor|].
  rewrite map_app. apply NoDup_app.
  - rewrite map_map. apply (NoDup_map_finer label _ rs Hl).
    intros x y _ _ E. unfold key_bulan in E. cbn in E. congruence.
  - exact IH.
  - intros x H1 H2.
    rewrite map_map in H1. apply in_map_iff in H1 as (row & <- & _).
    apply in_map_iff in H2 as (r & E & Hr).
    apply in_flat_map in Hr as (b' & Hb' & Hr).
    apply in_map_iff in Hr as (row' & <- & _).
    unfold key_bulan in E. cbn in E. injection E as _ ->. contradiction.
Qed.

Lemma long_form_key_bulan_NoDup (df : DataFrame) (year : Z) :
  NoDup (map label (rows df)) ->
  NoDup (map key_bulan (long_form parse_number df year)).
Proof.
  intros H. unfold long_form, drop. cbn [fst snd].
  apply melt_key_bulan_NoDup; [|apply bulan_kolom_NoDup].
  rewrite map_map. cbn [label]. exact H.
Qed.

Lemma frame_key_tanggal_NoDup (path : string) (year : Z) (f : list LongRow) :
  (forall df, read_csv path = Ok df -> NoDup (map label (rows df))) ->
  load_and_transform read_csv parse_number path year = Ok f ->
  NoDup (map key_tanggal f).
Proof.
  intros Hlab H. apply load_inv in H as (df & Hdf & _ & _ & ->).
  apply (Permutation_NoDup
           (Permutation_map key_tanggal (Permutation_sym (sort_by_perm _ _)))).
  apply (NoDup_map_finer key_bulan).
  - apply NoDup_map_filter, long_form_key_bulan_NoDup, Hlab, Hdf.
  - intros a b Ha Hb E.
    unfold dropna in Ha, Hb. apply filter_In in Ha as [Ha Hca], Hb as [Hb Hcb].
    unfold long_form in Ha, Hb.
    apply melt_In in Ha as (ba & rowa & _ & _ & ->).
    apply melt_In in Hb as (bb & rowb & _ & _ & ->).
    unfold key_tanggal in E. cbn [tipe_kendaraan tanggal] in E.
    injection E as El Et.
    unfold complete in Hca. cbn [jumlah month_num tanggal] in Hca.
    rewrite !andb_true_iff in Hca. destruct Hca as [_ Hta].
    destruct (to_datetime year (month_map ba)) as [d|] eqn:Ea; [|discriminate].
    symmetry in Et.
    apply to_datetime_some in Ea as (_ & Ema & _).
    apply to_datetime_some in Et as (_ & Emb & _).
    unfold key_bulan. cbn [tipe_kendaraan bulan]. f_equal; [exact El|].
    apply (month_map_inj ba bb (ts_month d)); assumption.
Qed.

Lemma frames_sources (sources : list (string * Z))
    (frames : list (list LongRow)) :
  Forall2 (fun s f =>
             load_and_transform read_csv parse_number (fst s) (snd s) = Ok f)
          sources frames ->
  forall r, In r (List.concat frames) ->
    exists s, In s sources /\ loaded_row (snd s) r.
Proof.
  induction 1 as [|s f sources frames Hf _ IH]; simpl; intros r Hr;
    [contradiction|].
  apply in_app_or in Hr as [Hr | Hr].
  - exists s. split; [now left|].
    apply load_rows in Hf. rewrite Forall_forall in Hf. now apply Hf.
  - destruct (IH r Hr) as (s' & Hs' & Hl). exists s'. split; [now right | exact Hl].
Qed.

Lemma merged_key_tanggal_NoDup (sources : list (string * Z))
    (frames : list (list LongRow)) :
  NoDup (map snd sources) ->
  (forall s df, In s sources -> read_csv (fst s) = Ok df ->
     NoDup (map label (rows df))) ->
  load_all read_csv parse_number sources = Ok frames ->
  NoDup (map key_tanggal (List.concat frames)).
Proof.
  intros Hy Hlab H. pose proof (load_all_frames _ _ _ _ H) as HF. clear H.
  induction HF as [|s f sources frames Hf HF IH]; [constructor|].
  cbn [List.concat]. rewrite map_app.
  cbn [map] in Hy. inversion Hy as [|? ? Hn Hd]; subst.
  apply NoDup_app.
  - apply (frame_key_tanggal_NoDup (fst s) (snd s)); [|exact Hf].
    intros df. apply (Hlab s); now left.
  - apply IH; [exact Hd|]. intros s' df Hs'. apply (Hlab s'). now right.
  - intros x H1 H2.
    apply in_map_iff in H1 as (r1 & <- & Hr1).
    apply in_map_iff in H2 as (r2 & E & Hr2).
    apply load_rows in Hf. rewrite Forall_forall in Hf.
    destruct (Hf r1 Hr1) as (_ & q1 & m1 & _ & _ & _ & Hd1).
    destruct (frames_sources _ _ HF r2 Hr2)
      as (s' & Hs' & _ & q2 & m2 & _ & _ & _ & Hd2).
    unfold key_tanggal in E. injection E as _ Et.
    rewrite Hd1, Hd2 in Et. injection Et as Ey _.
    apply Hn. rewrite <- Ey. apply in_map. exact Hs'.
Qed.

End DistinctRows.

Lemma StronglySorted_strict {A B : Type} (k : A -> B) (R R' : A -> A -> Prop)
    (P : A -> Prop) (l : list A) :
  (forall a b, P a -> P b -> R a b -> k a <> k b -> R' a b) ->
  Forall P l -> NoDup (map k l) -> StronglySorted R l -> StronglySorted R' l.
Proof.
  intros HR HP Hk Hs. induction Hs as [|a l Hs IH Ha]; [constructor|].
  inversion HP as [|? ? Pa Pl]; subst.
  cbn [map] in Hk. inversion Hk as [|? ? Hn Hd]; subst.
  constructor; [now apply IH|].
  rewrite Forall_forall in *. intros x Hx. apply HR; auto.
  intros E. apply Hn. rewrite E. now apply in_map.
Qed.

Lemma combine_snd (paths : list string) (ny : list Z) :
  List.length ny = List.length paths -> map snd (combine paths ny) = ny.
Proof.
  revert ny. induction paths as [|p ps IH]; intros [|y ny] H; simpl in *;
    try discriminate; auto.
  f_equal. apply IH. lia.
Qed.

(** C9, as amended: the merged table is sorted by (category, date), every
    row has a date, and the dates of each category never decrease; they
    increase strictly when the sources resolve to pairwise distinct years and
    no table repeats a category name. *)
Theorem merged_series_sorted (read_csv : string -> result DataFrame)
    (parse_number : string -> option Q) (paths : list string)
    (years : option (list Z)) (d : option Z) (out : list LongRow) :
  load_and_transform_multi read_csv parse_number paths years d = Ok out ->
  StronglySorted (key_le key_date) out /\
  Forall (fun r => exists t, tanggal r = Some t) out /\
  (forall c, StronglySorted date_le (series c out)) /\
  (forall norm_years,
     _normalize_years_for_inputs paths years d = Ok norm_years ->
     NoDup norm_years ->
     (forall p df, In p paths -> read_csv p = Ok df ->
        NoDup (map label (rows df))) ->
     forall c, StronglySorted date_lt (series c out)).
Proof.
  intros H.
  destruct (merge_inv _ _ _ _ _ _ H) as (ny & frames & _ & Hny & Hall & ->).
  pose proof (load_all_rows _ _ _ _ Hall) as Hrows.
  assert (Hout : Forall (fun r => exists year, loaded_row year r)
                   (sort_by key_date (List.concat frames))).
  { apply (Permutation_Forall (Permutation_sym (sort_by_perm _ _))), Hrows. }
  assert (Hser : forall c,
            Forall (fun r => tipe_kendaraan r = c /\ exists y, loaded_row y r)
                   (series c (sort_by key_date (List.concat frames)))).
  { intros c. apply Forall_forall. intros r Hr. apply filter_In in Hr as [Hr Hc].
    apply String.eqb_eq in Hc. split; [exact Hc|].
    rewrite Forall_forall in Hout. now apply Hout. }
  assert (Hle : forall c,
            StronglySorted date_le
              (series c (sort_by key_date (List.concat frames)))).
  { intros c.
    apply (StronglySorted_weaken _ (key_le key_date) date_le _ _
             (fun a b Ha Hb Hab =>
                key_date_same_category a b
                  (eq_trans (proj1 Ha) (eq_sym (proj1 Hb)))
                  (proj2 Ha) (proj2 Hb) Hab)
             (Hser c)).
    apply StronglySorted_filter, sort_by_sorted. }
  split; [apply sort_by_sorted|]. split; [|split; [exact Hle|]].
  - eapply Forall_impl; [|exact Hout].
    intros r (y & _ & q & m & _ & _ & _ & Hd). eexists. exact Hd.
  - intros ny' Hny' Hdup Hlab c. rewrite Hny in Hny'. injection Hny' as <-.
    assert (Hlen : List.length ny = List.length paths).
    { unfold _normalize_years_for_inputs in Hny.
      apply normalize_from_ok in Hny. tauto. }
    assert (Hkeys : NoDup (map key_tanggal
                             (series c (sort_by key_date (List.concat frames))))).
    { unfold series. apply NoDup_map_filter.
      apply (Permutation_NoDup
               (Permutation_map key_tanggal
                  (Permutation_sym (sort_by_perm _ _)))).
      apply (merged_key_tanggal_NoDup read_csv parse_number
               (combine paths ny) frames).
      - rewrite (combine_snd paths ny Hlen). exact Hdup.
      - intros [p y] df Hs. apply in_combine_l in Hs. apply (Hlab p df Hs).
      - exact Hall. }
    apply (StronglySorted_strict key_tanggal date_le date_lt
             (fun r => tipe_kendaraan r = c /\ exists y, loaded_row y r) _);
      [|exact (Hser c) | exact Hkeys | exact (Hle c)].
    intros a b [Hca _] [Hcb _] (d1 & d2 & H1 & H2 & Hab) Hne.
    exists d1, d2. split; [exact H1|]. split; [exact H2|].
    unfold chrono_le in Hab. unfold chrono_lt.
    assert (Hd : d1 <> d2).
    { intros ->. apply Hne. unfold key_tanggal. congruence. }
    destruct d1 as [y1 m1], d2 as [y2 m2]. simpl in *.
    destruct (Z.eq_dec m1 m2) as [-> | Hm]; [|lia].
    destruct Hab as [Hy | [-> _]]; [lia|]. congruence.
Qed.

Lemma merged_series_sorted_witness :
  exists out,
    load_and_transform_multi berkas no_text_number
      ["data/penumpang 2024.csv"; "data/rekap 2024.csv"] (Some [2023; 2024]%Z)
      None = Ok out /\
    (forall c, StronglySorted date_le (series c out)) /\
    (forall c, StronglySorted date_lt (series c out)).
Proof.
  eexists. split; [reflexivity|].
  destruct (merged_series_sorted berkas no_text_number
              ["data/penumpang 2024.csv"; "data/rekap 2024.csv"]
              (Some [2023; 2024]%Z) None _ eq_refl)
    as (_ & _ & Hle & Hlt).
  split; [exact Hle|].
  apply (Hlt [2023; 2024]%Z eq_refl).
  - repeat constructor; simpl; intuition discriminate.
  - intros p df [<- | [<- | []]] [= <-]; simpl;
      repeat constructor; simpl; intuition discriminate.
Defined.

(** C9 fails as stated: two sources that resolve to the same year give each
    category two observations of every date. *)
Lemma same_year_sources_share_dates :
  exists out r1 r2,
    load_and_transform_multi berkas no_text_number
      ["data/penumpang 2024.csv"; "data/rekap 2024.csv"] None None = Ok out /\
    nth_error (series "Total" out) 0 = Some r1 /\
    nth_error (series "Total" out) 1 = Some r2 /\
    tanggal r1 = Some {| ts_year := 2024; ts_month := 1 |} /\
    tanggal r2 = Some {| ts_year := 2024; ts_month := 1 |} /\
    ~ date_lt r1 r2 /\
    ~ StronglySorted date_lt (series "Total" out).
Proof.
  eexists. do 2 eexists.
  split; [reflexivity|].
  split; [vm_compute; reflexivity|].
  split; [vm_compute; reflexivity|].
  split; [reflexivity|].
  split; [reflexivity|].
  assert (Hlt : forall r : LongRow,
            tanggal r = Some {| ts_year := 2024; ts_month := 1 |} ->
            ~ date_lt
                {| tipe_kendaraan := "Total"; bulan := "Januari";
                   jumlah := Some (-5); month_num := Some 1%Z;
                   tanggal := Some {| ts_year := 2024; ts_month := 1 |} |} r).
  { intros r Hr (d1 & d2 & H1 & H2 & Hlt). cbn [tanggal] in H1.
    rewrite Hr in H2. injection H1 as <-. injection H2 as <-.
    unfold chrono_lt in Hlt. simpl in Hlt. lia. }
  split.
  - apply Hlt. reflexivity.
  - intros Hs.
    assert (E : series "Total"
                  (sort_by key_date
                     (List.concat
                        [sort_by key_month
                           (dropna (long_form no_text_number tabel_2024 2024));
                         sort_by key_month
                           (dropna (long_form no_text_number tabel_2024 2024))]))
                = [ {| tipe_kendaraan := "Total"; bulan := "Januari";
                       jumlah := Some (-5); month_num := Some 1%Z;
                       tanggal := Some {| ts_year := 2024; ts_month := 1 |} |};
                    {| tipe_kendaraan := "Total"; bulan := "Januari";
                       jumlah := Some (-5); month_num := Some 1%Z;
                       tanggal := Some {| ts_year := 2024; ts_month := 1 |} |} ])
      by (vm_compute; reflexivity).
    change (StronglySorted date_lt
              (series "Total"
                 (sort_by key_date
                    (List.concat
                       [sort_by key_month
                          (dropna (long_form no_text_number tabel_2024 2024));
                        sort_by key_month
                          (dropna (long_form no_text_number tabel_2024 2024))]))))
      in Hs.
    rewrite E in Hs. apply StronglySorted_inv in Hs as [_ Hf].
    inversion Hf as [|? ? H1 _]; subst.
    revert H1. apply Hlt. reflexivity.
Qed.

(** ** Sanity checks on concrete inputs *)

Example infer_year_2024 :
  infer_year_from_filename "data/Jumlah Penumpang Kereta Api, 2024.csv"
  = Some 2024%Z.
Proof. reflexivity. Qed.

Example infer_year_leftmost :
  infer_year_from_filename "rekap_2019_2024.csv" = Some 2019%Z.
Proof. reflexivity. Qed.

Example clean_column_name :
  _strip_bom_and_clean
    (String (ascii_of_nat 239) (String (ascii_of_nat 187)
       (String (ascii_of_nat 191) " Januari ")))
  = "Januari".
Proof. reflexivity. Qed.

Example aggregate_column_ignored :
  option_map (map bulan)
    (match load_and_transform berkas no_text_number
             "data/penumpang 2024.csv" 2024 with
     | Ok out => Some out
     | Err _ => None
     end)
  = Some ["Januari"; "Februari"; "Januari"].
Proof. reflexivity. Qed.

Example single_observation_is_flat :
  option_map arah_prediksi (fit_trend_and_forecast_category [100] 2)
  = Some flat.
Proof. reflexivity. Qed.

Example no_horizon_is_unknown :
  option_map arah_prediksi (fit_trend_and_forecast_category [100; 110] 0)
  = Some unknown.
Proof. reflexivity. Qed.

(** * Further properties of the loader and the merger *)

Lemma sort_values_sorted_id (A : Type) (leb : A -> A -> bool) (l : list A) :
  StronglySorted (fun a b => leb a b = true) l -> sort_values leb l = l.
Proof.
  induction 1 as [|a l Hs IH Ha]; simpl; [reflexivity|].
  rewrite IH. destruct l as [|y l']; [reflexivity|].
  simpl. inversion Ha as [|? ? Hy _]; subst. now rewrite Hy.
Qed.

Lemma key_month_date (year : Z) (r1 r2 : LongRow) :
  loaded_row year r1 -> loaded_row year r2 ->
  key_le key_month r1 r2 -> key_le key_date r1 r2.
Proof.
  intros (_ & q1 & m1 & _ & Hm1 & _ & Hd1) (_ & q2 & m2 & _ & Hm2 & _ & Hd2).
  unfold key_le, key_leb, key_month, key_date. cbn [fst snd].
  rewrite Hm1, Hm2, Hd1, Hd2.
  destruct (String.compare (tipe_kendaraan r1) (tipe_kendaraan r2)); auto.
  simpl. unfold ts_ord. simpl. rewrite !Z.leb_le. lia.
Qed.

Lemma loader_sorted_by_month (read_csv : string -> result DataFrame)
    (parse_number : string -> option Q) (path : string) (year : Z)
    (out : list LongRow) :
  load_and_transform read_csv parse_number path year = Ok out ->
  StronglySorted (key_le key_month) out.
Proof.
  intros H. apply load_inv in H as (df & _ & _ & _ & ->). apply sort_by_sorted.
Qed.

(** X1: the table [load_and_transform] returns is sorted ascending by
    category name and, within a category, by month index. *)
Theorem loader_output_sorted (read_csv : string -> result DataFrame)
    (parse_number : string -> option Q) (path : string) (year : Z)
    (out : list LongRow) :
  load_and_transform read_csv parse_number path year = Ok out ->
  StronglySorted (key_le key_month) out /\
  forall c, StronglySorted
              (fun r1 r2 => exists m1 m2,
                 month_num r1 = Some m1 /\ month_num r2 = Some m2 /\
                 (m1 <= m2)%Z)
              (series c out).
Proof.
  intros H. pose proof (load_rows _ _ _ _ _ H) as Hrows.
  apply load_inv in H as (df & _ & _ & _ & ->).
  split; [apply sort_by_sorted|].
  intros c. unfold series.
  apply (StronglySorted_weaken _ (key_le key_month) _
           (fun r => tipe_kendaraan r = c /\ loaded_row year r)).
  - intros a b [Ha (_ & qa & ma & _ & Hma & _)] [Hb (_ & qb & mb & _ & Hmb & _)].
    unfold key_le, key_leb, key_month. cbn [fst snd].
    rewrite Ha, Hb, string_compare_refl, Hma, Hmb. simpl.
    intros Hle. apply Z.leb_le in Hle. exists ma, mb. auto.
  - apply Forall_forall. intros r Hr. apply filter_In in Hr as [Hr Hc].
    apply String.eqb_eq in Hc. split; [exact Hc|].
    rewrite Forall_forall in Hrows. now apply Hrows.
  - apply StronglySorted_filter, sort_by_sorted.
Qed.

Lemma loader_output_sorted_witness :
  exists out,
    load_and_transform berkas no_text_number "data/penumpang 2024.csv" 2024
      = Ok out /\
    StronglySorted (key_le key_month) out.
Proof.
  eexists. split; [reflexivity|].
  apply (loader_output_sorted berkas no_text_number
           "data/penumpang 2024.csv" 2024 _ eq_refl).
Defined.

(** X2: every row [load_and_transform] returns carries a number, a month
    index from 1 to 12, the month name of that index in [INDO_MONTHS], and
    the first day of that month in the year it was called with. *)
Theorem loader_rows_shape (read_csv : string -> result DataFrame)
    (parse_number : string -> option Q) (path : string) (year : Z)
    (out : list LongRow) :
  load_and_transform read_csv parse_number path year = Ok out ->
  Forall (fun r => exists q m,
            jumlah r = Some q /\ month_num r = Some m /\ (1 <= m <= 12)%Z /\
            nth_error INDO_MONTHS (Z.to_nat (m - 1)) = Some (bulan r) /\
            tanggal r = Some {| ts_year := year; ts_month := m |}) out.
Proof.
  intros H. pose proof (load_rows _ _ _ _ _ H) as Hrows.
  apply load_inv in H as (df & _ & _ & _ & ->).
  apply Forall_forall. intros r Hr.
  rewrite Forall_forall in Hrows.
  destruct (Hrows r Hr) as (_ & q & m & Hq & Hm & Hrange & Hd).
  exists q, m. repeat split; auto; try lia.
  apply sort_by_In in Hr. unfold dropna in Hr. apply filter_In in Hr as [Hr _].
  unfold long_form in Hr. apply melt_In in Hr as (b & row & _ & _ & ->).
  cbn [month_num bulan] in *. unfold month_map in Hm.
  apply month_index_nth in Hm as [_ Hn].
  replace (m - 0 - 1)%Z with (m - 1)%Z in Hn by lia. exact Hn.
Qed.

Lemma loader_rows_shape_witness :
  exists out,
    load_and_transform berkas no_text_number "data/penumpang 2024.csv" 2024
      = Ok out /\
    Forall (fun r => exists q m,
              jumlah r = Some q /\ month_num r = Some m /\ (1 <= m <= 12)%Z /\
              nth_error INDO_MONTHS (Z.to_nat (m - 1)) = Some (bulan r) /\
              tanggal r = Some {| ts_year := 2024; ts_month := m |}) out.
Proof.
  eexists. split; [reflexivity|].
  apply (loader_rows_shape berkas no_text_number
           "data/penumpang 2024.csv" 2024 _ eq_refl).
Defined.

Lemma melt_length (parse_number : string -> option Q) (names : list string)
    (rs : list Row) (months : list string) (year : Z) :
  List.length (melt parse_number names rs months year)
  = (List.length months * List.length rs)%nat.
Proof.
  unfold melt. induction months as [|b ms IH]; [reflexivity|].
  cbn [flat_map]. rewrite length_app, length_map, IH. simpl. lia.
Qed.

Lemma long_form_length (parse_number : string -> option Q) (df : DataFrame)
    (year : Z) :
  List.length (long_form parse_number df year)
  = (List.length (bulan_kolom (columns df)) * List.length (rows df))%nat.
Proof.
  unfold long_form, drop. cbn [fst snd]. now rewrite melt_length, length_map.
Qed.

Lemma filter_length_full (A : Type) (f : A -> bool) (l : list A) :
  List.length (filter f l) = List.length l <-> Forall (fun x => f x = true) l.
Proof.
  induction l as [|a l IH]; simpl.
  - split; [constructor | reflexivity].
  - pose proof (filter_length_le f l) as Hle.
    destruct (f a) eqn:E; simpl.
    + split.
      * intros H. constructor; [exact E | apply IH; lia].
      * intros H. inversion H; subst. f_equal. now apply IH.
    + split; [lia|]. intros H. inversion H; subst. congruence.
Qed.

(** X3: [load_and_transform] returns at most one row for each pair of a
    table row and a recognized month column, of which there are at most
    twelve; it returns exactly one for each pair when no cell under a month
    column is dropped. *)
Theorem loader_row_count (read_csv : string -> result DataFrame)
    (parse_number : string -> option Q) (path : string) (year : Z)
    (out : list LongRow) :
  load_and_transform read_csv parse_number path year = Ok out ->
  exists df,
    read_csv path = Ok df /\
    (List.length (bulan_kolom (columns df)) <= 12)%nat /\
    (List.length out
       <= List.length (rows df) * List.length (bulan_kolom (columns df)))%nat /\
    (List.length out
       = (List.length (rows df) * List.length (bulan_kolom (columns df)))%nat
     <-> Forall (fun r => complete r = true)
                (long_form parse_number df year)).
Proof.
  intros H. apply load_inv in H as (df & Hdf & _ & _ & ->).
  exists df. split; [exact Hdf|].
  assert (Hlen : List.length (sort_by key_month
                                (dropna (long_form parse_number df year)))
                 = List.length (dropna (long_form parse_number df year)))
    by apply Permutation_length, sort_by_perm.
  rewrite Hlen. unfold dropna.
  pose proof (long_form_length parse_number df year) as HL.
  pose proof (filter_length_le complete (long_form parse_number df year)) as Hle.
  split; [|split].
  - unfold bulan_kolom.
    pose proof (filter_length_le
                  (fun b => mem b (renamed_columns (columns df))) INDO_MONTHS)
      as H12.
    exact H12.
  - lia.
  - rewrite <- filter_length_full. rewrite HL. lia.
Qed.

Lemma loader_row_count_witness :
  exists out df,
    load_and_transform berkas no_text_number "data/penumpang 2024.csv" 2024
      = Ok out /\
    berkas "data/penumpang 2024.csv" = Ok df /\
    (List.length out
       <= List.length (rows df) * List.length (bulan_kolom (columns df)))%nat.
Proof.
  destruct (loader_row_count berkas no_text_number
              "data/penumpang 2024.csv" 2024 _ eq_refl)
    as (df & Hdf & _ & Hle & _).
  eexists. exists df. split; [reflexivity|]. split; [exact Hdf | exact Hle].
Defined.

Lemma flat_map_ext_in (A B : Type) (f g : A -> list B) (l : list A) :
  (forall a, In a l -> f a = g a) -> flat_map f l = flat_map g l.
Proof.
  induction l as [|a l IH]; intros H; [reflexivity|].
  cbn [flat_map]. rewrite (H a) by now left.
  rewrite IH; [reflexivity|]. intros x Hx. apply H. now right.
Qed.

Lemma cell_at_dropped_table (cols : list string) (b : string)
    (cells : list cell) :
  cols <> [] -> In b INDO_MONTHS ->
  let names := renamed_columns cols in
  let dropped := fun c => mem c (filter is_tahunan names) in
  cell_at (tl (filter (fun c => negb (dropped c)) names))
          (drop_cells dropped (tl names) cells) b
  = cell_at (tl names) cells b.
Proof.
  intros Hcols Hb names dropped.
  assert (Hd : forall c, dropped c = true -> is_tahunan c = true).
  { intros c H. apply mem_In, filter_In in H. tauto. }
  destruct (renamed_columns_head cols Hcols) as [rest Hn].
  unfold names in *. rewrite Hn. cbn [filter tl].
  destruct (dropped "tipe_kendaraan") eqn:E; [apply Hd in E; discriminate|].
  cbn [negb tl]. apply cell_at_drop.
  destruct (dropped b) eqn:Eb; [|reflexivity].
  apply Hd in Eb. rewrite (month_not_tahunan b Hb) in Eb. discriminate.
Qed.

(** Dropping the aggregate column does not change what is melted. *)
Lemma long_form_undropped (parse_number : string -> option Q) (df : DataFrame)
    (year : Z) :
  columns df <> [] ->
  long_form parse_number df year
  = melt parse_number (renamed_columns (columns df)) (rows df)
         (bulan_kolom (columns df)) year.
Proof.
  intros Hcols. unfold long_form, drop, melt. cbn [fst snd].
  apply flat_map_ext_in. intros b Hb.
  apply bulan_kolom_In in Hb as [Hb _].
  rewrite map_map. apply map_ext. intros row. cbn [label values].
  now rewrite (cell_at_dropped_table (columns df) b (values row) Hcols Hb).
Qed.

Lemma melt_same_month_cells (parse_number : string -> option Q)
    (names months : list string) (rs1 rs2 : list Row) (year : Z) :
  (forall b, In b months -> In b INDO_MONTHS) ->
  Forall2 (same_month_cells names) rs1 rs2 ->
  melt parse_number names rs1 months year
  = melt parse_number names rs2 months year.
Proof.
  intros Hm HF. unfold melt. apply flat_map_ext_in. intros b Hb.
  induction HF as [|r1 r2 l1 l2 [Hl Hc] _ IH]; [reflexivity|].
  cbn [map]. rewrite IH, Hl, (Hc b (Hm b Hb)). reflexivity.
Qed.

(** X4: only the category names and the cells under the month columns
    matter to [load_and_transform]: two tables with the same header whose
    rows agree there load to the same result, whatever their other columns
    (the aggregate column among them) hold. *)
Theorem loader_reads_month_cells_only (read_csv : string -> result DataFrame)
    (parse_number : string -> option Q) (p1 p2 : string) (year : Z)
    (df1 df2 : DataFrame) :
  read_csv p1 = Ok df1 -> read_csv p2 = Ok df2 ->
  columns df1 = columns df2 ->
  Forall2 (same_month_cells (renamed_columns (columns df1)))
          (rows df1) (rows df2) ->
  load_and_transform read_csv parse_number p1 year
  = load_and_transform read_csv parse_number p2 year.
Proof.
  intros H1 H2 Hc HF. unfold load_and_transform. rewrite H1, H2. cbn [bind].
  rewrite <- Hc.
  destruct (Z.ltb_spec (Np.len (columns df1)) 2) as [|Hlen]; [reflexivity|].
  destruct (Np.len (bulan_kolom (columns df1)) =? 0)%Z; [reflexivity|].
  assert (Hne : columns df1 <> []).
  { intros E. rewrite E in Hlen. unfold Np.len in Hlen. simpl in Hlen. lia. }
  rewrite (long_form_undropped parse_number df1 year Hne).
  rewrite (long_form_undropped parse_number df2 year) by (rewrite <- Hc; exact Hne).
  rewrite <- Hc.
  rewrite (melt_same_month_cells parse_number _ _ (rows df1) (rows df2) year);
    [reflexivity | | exact HF].
  intros b Hb. apply bulan_kolom_In in Hb. tauto.
Qed.

Lemma loader_reads_month_cells_only_witness :
  load_and_transform berkas_lain no_text_number "a_2023.csv" 2024
  = load_and_transform berkas_lain no_text_number "b_2024.csv" 2024.
Proof.
  apply (loader_reads_month_cells_only berkas_lain no_text_number
           "a_2023.csv" "b_2024.csv" 2024 tabel_2024 tabel_2024_lain
           eq_refl eq_refl eq_refl).
  repeat constructor; intros b Hb; simpl in Hb;
    repeat (destruct Hb as [<- | Hb]; [reflexivity|]); contradiction.
Defined.

(** ** The merger *)

Lemma load_all_err (read_csv : string -> result DataFrame)
    (parse_number : string -> option Q) (sources : list (string * Z))
    (e : exn) :
  load_all read_csv parse_number sources = Err e <->
  exists i s,
    nth_error sources i = Some s /\
    load_and_transform read_csv parse_number (fst s) (snd s) = Err e /\
    forall j s', (j < i)%nat -> nth_error sources j = Some s' ->
      exists f, load_and_transform read_csv parse_number (fst s') (snd s') = Ok f.
Proof.
  induction sources as [|[p y] rest IH]; cbn [load_all].
  - split; [discriminate|]. intros ([|i] & s & H & _); discriminate.
  - destruct (load_and_transform read_csv parse_number p y) as [f|e'] eqn:E;
      cbn [bind].
    + destruct (load_all read_csv parse_number rest) as [fs|e'] eqn:E';
        cbn [bind].
      * split; [discriminate|].
        intros ([|i] & s & Hs & He & Hfirst).
        -- injection Hs as <-. simpl in He. congruence.
        -- assert (H : Ok fs = Err e :> result (list (list LongRow)));
             [|discriminate].
           apply IH. exists i, s. repeat split; auto.
           intros j s' Hj Hs'. apply (Hfirst (S j) s'); [lia | exact Hs'].
      * split.
        -- intros [= <-].
           destruct (proj1 IH eq_refl) as (i & s & Hs & He & Hfirst).
           exists (S i), s. repeat split; auto.
           intros [|j] s' Hj Hs'.
           ++ injection Hs' as <-. exists f. exact E.
           ++ apply (Hfirst j s'); [lia | exact Hs'].
        -- intros ([|i] & s & Hs & He & Hfirst).
           ++ injection Hs as <-. simpl in He. congruence.
           ++ apply IH. exists i, s. repeat split; auto.
              intros j s' Hj Hs'. apply (Hfirst (S j) s'); [lia | exact Hs'].
    + split.
      * intros [= <-]. exists 0%nat, (p, y). repeat split; auto.
        intros j s' Hj. lia.
      * intros ([|i] & s & Hs & He & Hfirst).
        -- injection Hs as <-. simpl in He. congruence.
        -- destruct (Hfirst 0%nat (p, y)) as [f Hf]; [lia | reflexivity |].
           simpl in Hf. congruence.
Qed.

(** X5: [load_and_transform_multi] rejects an empty list of sources; it
    resolves every year before it reads any file, so a year that cannot be
    resolved is the error whatever the files hold; otherwise it fails with
    the error of the first source that does not load. *)
Theorem merger_errors (read_csv : string -> result DataFrame)
    (parse_number : string -> option Q) (paths : list string)
    (years : option (list Z)) (d : option Z) :
  (paths = [] ->
   load_and_transform_multi read_csv parse_number paths years d
   = Err (ValueError msg_empty)) /\
  (forall e, paths <> [] ->
     _normalize_years_for_inputs paths years d = Err e ->
     load_and_transform_multi read_csv parse_number paths years d = Err e) /\
  (forall norm_years e,
     _normalize_years_for_inputs paths years d = Ok norm_years ->
     paths <> [] ->
     (load_and_transform_multi read_csv parse_number paths years d = Err e <->
      exists i p y,
        nth_error paths i = Some p /\ nth_error norm_years i = Some y /\
        load_and_transform read_csv parse_number p y = Err e /\
        forall j p' y', (j < i)%nat ->
          nth_error paths j = Some p' -> nth_error norm_years j = Some y' ->
          exists f, load_and_transform read_csv parse_number p' y' = Ok f)).
Proof.
  split; [|split].
  - intros ->. reflexivity.
  - intros e Hp He. unfold load_and_transform_multi.
    destruct paths; [congruence|]. rewrite He. reflexivity.
  - intros ny e Hny Hp. unfold load_and_transform_multi.
    destruct paths as [|p0 ps]; [congruence|]. rewrite Hny. cbn [bind].
    set (paths := p0 :: ps) in *.
    assert (Hlen : List.length ny = List.length paths).
    { unfold _normalize_years_for_inputs in Hny.
      apply normalize_from_ok in Hny. tauto. }
    assert (Hcomb : forall i p y,
              nth_error (combine paths ny) i = Some (p, y) <->
              nth_error paths i = Some p /\ nth_error ny i = Some y).
    { clear - Hlen. revert ny Hlen.
      induction paths as [|q qs IH]; intros [|z zs] Hlen [|i] p y;
        simpl in *; try discriminate; try (split; [discriminate | intros []; discriminate]).
      - split; [intros [= -> ->]; auto | intros [[= ->] [= ->]]; reflexivity].
      - apply IH. lia. }
    destruct (load_all read_csv parse_number (combine paths ny)) as [fs|e']
      eqn:E; cbn [bind].
    + split; [discriminate|].
      intros (i & p & y & Hpi & Hyi & He & Hfirst).
      assert (H : load_all read_csv parse_number (combine paths ny) = Err e).
      { apply load_all_err. exists i, (p, y). split; [now apply Hcomb|].
        split; [exact He|].
        intros j [p' y'] Hj Hs. apply Hcomb in Hs as [Hp' Hy'].
        apply (Hfirst j p' y' Hj Hp' Hy'). }
      congruence.
    + split.
      * intros [= <-]. apply load_all_err in E as (i & [p y] & Hs & He & Hfirst).
        apply Hcomb in Hs as [Hpi Hyi].
        exists i, p, y. repeat split; auto.
        intros j p' y' Hj Hp' Hy'.
        apply (Hfirst j (p', y') Hj). apply Hcomb. auto.
      * intros (i & p & y & Hpi & Hyi & He & Hfirst).
        assert (H : load_all read_csv parse_number (combine paths ny) = Err e).
        { apply load_all_err. exists i, (p, y). split; [now apply Hcomb|].
          split; [exact He|].
          intros j [p' y'] Hj Hs. apply Hcomb in Hs as [Hp' Hy'].
          apply (Hfirst j p' y' Hj Hp' Hy'). }
        congruence.
Qed.

Lemma merger_errors_witness :
  load_and_transform_multi berkas no_text_number [] None None
    = Err (ValueError msg_empty) /\
  load_and_transform_multi berkas no_text_number
    ["tidak ada.csv"; "data/satu.csv"] None None
    = Err (year_error "tidak ada.csv").
Proof.
  split.
  - apply (proj1 (merger_errors berkas no_text_number [] None None) eq_refl).
  - apply (proj1 (proj2 (merger_errors berkas no_text_number
                           ["tidak ada.csv"; "data/satu.csv"] None None))).
    + discriminate.
    + reflexivity.
Defined.

(** X6: the table [load_and_transform_multi] returns holds exactly the rows
    of the tables loaded from its sources, one table per source with that
    source's resolved year: it is a permutation of their concatenation, and
    its length is the sum of their lengths. *)
Theorem merger_keeps_all_rows (read_csv : string -> result DataFrame)
    (parse_number : string -> option Q) (paths : list string)
    (years : option (list Z)) (d : option Z) (out : list LongRow) :
  load_and_transform_multi read_csv parse_number paths years d = Ok out ->
  exists norm_years frames,
    _normalize_years_for_inputs paths years d = Ok norm_years /\
    Forall2 (fun s f =>
               load_and_transform read_csv parse_number (fst s) (snd s) = Ok f)
            (combine paths norm_years) frames /\
    List.length frames = List.length paths /\
    Permutation out (List.concat frames) /\
    List.length out = list_sum (map (@List.length LongRow) frames).
Proof.
  intros H.
  destruct (merge_inv _ _ _ _ _ _ H) as (ny & frames & _ & Hny & Hall & ->).
  exists ny, frames. split; [exact Hny|].
  pose proof (load_all_frames _ _ _ _ Hall) as HF.
  split; [exact HF|]. split; [|split].
  - rewrite <- (Forall2_length HF), length_combine.
    unfold _normalize_years_for_inputs in Hny.
    apply normalize_from_ok in Hny as [Hl _]. lia.
  - apply sort_by_perm.
  - rewrite (Permutation_length (sort_by_perm key_date (List.concat frames))).
    clear. induction frames as [|f fs IH]; [reflexivity|].
    simpl. now rewrite length_app, IH.
Qed.

Lemma merger_keeps_all_rows_witness :
  exists out,
    load_and_transform_multi berkas_lain no_text_number
      ["a_2023.csv"; "b_2024.csv"] None None = Ok out /\
    exists norm_years frames,
      _normalize_years_for_inputs ["a_2023.csv"; "b_2024.csv"] None None
        = Ok norm_years /\
      Forall2 (fun s f =>
                 load_and_transform berkas_lain no_text_number (fst s) (snd s)
                 = Ok f)
              (combine ["a_2023.csv"; "b_2024.csv"] norm_years) frames /\
      List.length frames = 2%nat /\
      Permutation out (List.concat frames) /\
      List.length out = list_sum (map (@List.length LongRow) frames).
Proof.
  eexists. split; [reflexivity|].
  apply (merger_keeps_all_rows berkas_lain no_text_number
           ["a_2023.csv"; "b_2024.csv"] None None _ eq_refl).
Defined.

(** X7: for a single source [load_and_transform_multi] returns what
    [load_and_transform] returns for it with its resolved year: the same
    table in the same order, or the same error. *)
Theorem merger_single_source (read_csv : string -> result DataFrame)
    (parse_number : string -> option Q) (p : string)
    (years : option (list Z)) (d : option Z) (y : Z) :
  _normalize_years_for_inputs [p] years d = Ok [y] ->
  load_and_transform_multi read_csv parse_number [p] years d
  = load_and_transform read_csv parse_number p y.
Proof.
  intros Hny. unfold load_and_transform_multi. rewrite Hny.
  cbn [bind combine load_all].
  destruct (load_and_transform read_csv parse_number p y) as [f|e] eqn:E;
    [|reflexivity].
  cbn [bind List.concat]. rewrite app_nil_r. f_equal.
  apply sort_values_sorted_id.
  pose proof (load_rows _ _ _ _ _ E) as Hrows.
  pose proof (loader_sorted_by_month _ _ _ _ _ E) as Hs.
  apply (StronglySorted_weaken _ (key_le key_month) _ (loaded_row y)
           f (key_month_date y) Hrows Hs).
Qed.

Lemma merger_single_source_witness :
  load_and_transform_multi berkas no_text_number
    ["data/penumpang 2024.csv"] None None
  = load_and_transform berkas no_text_number "data/penumpang 2024.csv" 2024.
Proof.
  apply (merger_single_source berkas no_text_number
           "data/penumpang 2024.csv" None None 2024 eq_refl).
Defined.

(** * Further properties of year resolution *)

Lemma normalize_closed_form (paths : list string) (years : option (list Z))
    (d : option Z) (res : list Z) :
  List.length res = List.length paths ->
  (forall j p, nth_error paths j = Some p ->
     nth_error res j = resolved years d j p /\ resolved years d j p <> None) ->
  _normalize_years_for_inputs paths years d = Ok res.
Proof.
  intros Hl Hn. unfold _normalize_years_for_inputs.
  apply normalize_from_ok. split; [exact Hl | exact Hn].
Qed.

(** X8: a single explicit year is broadcast: every source takes it,
    whatever its name and the default year, and normalization cannot fail. *)
Theorem single_year_broadcast (paths : list string) (y : Z) (d : option Z) :
  _normalize_years_for_inputs paths (Some [y]) d
  = Ok (repeat y (List.length paths)).
Proof.
  apply normalize_closed_form; [apply repeat_length|].
  intros j p Hp.
  assert (Hj : (j < List.length paths)%nat)
    by (apply nth_error_Some; congruence).
  rewrite (nth_error_repeat y Hj). unfold resolved, explicit_year. simpl.
  split; [reflexivity | discriminate].
Qed.

(** X9: explicit years, one for each source, are taken as they are: names
    and default year play no part, and normalization cannot fail. *)
Theorem explicit_years_positional (paths : list string) (ys : list Z)
    (d : option Z) :
  List.length ys = List.length paths ->
  _normalize_years_for_inputs paths (Some ys) d = Ok ys.
Proof.
  intros Hl. apply normalize_closed_form; [exact Hl|].
  intros j p Hp.
  assert (Hj : (j < List.length ys)%nat)
    by (rewrite Hl; apply nth_error_Some; congruence).
  assert (He : explicit_year (Some ys) j = nth_error ys j).
  { destruct ys as [|y0 [|y1 ys']].
    - simpl in Hj. lia.
    - simpl in Hj. assert (j = 0%nat) by lia. subst. reflexivity.
    - apply explicit_year_positional. simpl. lia. }
  unfold resolved. rewrite He.
  destruct (nth_error ys j) eqn:E.
  - split; [reflexivity | discriminate].
  - apply nth_error_None in E. lia.
Qed.

Lemma explicit_years_positional_witness :
  _normalize_years_for_inputs ["a_2021.csv"; "b.csv"] (Some [1999; 2050]%Z) None
  = Ok [1999; 2050]%Z.
Proof.
  apply (explicit_years_positional ["a_2021.csv"; "b.csv"] [1999; 2050]%Z None
           eq_refl).
Defined.

(** X10: without explicit years and with a default year, normalization
    cannot fail: every source takes the year inferred from its name, else
    the default year. *)
Theorem default_year_fallback (paths : list string) (dy : Z) :
  _normalize_years_for_inputs paths None (Some dy)
  = Ok (map (fun p => match infer_year_from_filename p with
                      | Some y => y
                      | None => dy
                      end) paths).
Proof.
  apply normalize_closed_form; [apply length_map|].
  intros j p Hp. rewrite nth_error_map, Hp. unfold resolved. simpl.
  destruct (infer_year_from_filename p); split; try reflexivity; discriminate.
Qed.

Lemma basename_from_no_slash (n cur : string) :
  Str.contains "/" n = false -> Str.basename_from n cur = cur.
Proof.
  induction n as [|c r IH]; [reflexivity|].
  cbn [Str.contains Str.basename_from]. intros H.
  apply orb_false_iff in H as [Hc Hr].
  destruct (Ascii.eqb_spec c "/") as [-> | Hne].
  - simpl in Hc. destruct r; discriminate.
  - now apply IH.
Qed.

Lemma basename_from_dir (dir n cur : string) :
  Str.basename_from (dir ++ String "/" n) cur = Str.basename_from n n.
Proof.
  revert cur. induction dir as [|c dir IH]; intros cur.
  - reflexivity.
  - change (String c dir ++ String "/" n) with (String c (dir ++ String "/" n)).
    cbn [Str.basename_from]. destruct (Ascii.eqb c "/"); apply IH.
Qed.

(** X11: [infer_year_from_filename] looks at the file name only: the
    directories of the path, and any year written in them, are ignored. *)
Theorem infer_year_ignores_directories (dir name : string) :
  Str.contains "/" name = false ->
  infer_year_from_filename (dir ++ String "/" name)
  = infer_year_from_filename name.
Proof.
  intros H. unfold infer_year_from_filename, Str.basename.
  rewrite basename_from_dir, !(basename_from_no_slash name) by exact H.
  reflexivity.
Qed.

Lemma infer_year_ignores_directories_witness :
  infer_year_from_filename ("arsip/2019" ++ String "/" "penumpang.csv")
  = infer_year_from_filename "penumpang.csv".
Proof.
  apply (infer_year_ignores_directories "arsip/2019" "penumpang.csv").
  reflexivity.
Defined.

(** * Further properties of the forecaster *)

Lemma classify_cases (last pred : Q) :
  (last + tolerance last < pred /\
     _classify_direction (Some last) (Some pred) = up) \/
  (pred < last - tolerance last /\
     _classify_direction (Some last) (Some pred) = down) \/
  (pred <= last + tolerance last /\ last - tolerance last <= pred /\
     _classify_direction (Some last) (Some pred) = flat).
Proof.
  unfold _classify_direction.
  destruct (Np.gtb pred (last + tolerance last)) eqn:E1.
  - left. apply gtb_true_iff in E1. auto.
  - apply gtb_false_iff in E1.
    destruct (Np.ltb pred (last - tolerance last)) eqn:E2.
    + right; left. apply ltb_true_iff in E2. auto.
    + right; right. apply ltb_false_iff in E2. auto.
Qed.

Lemma fit_step_total (y : list Q) : exists a b r, fit_step y = Some (a, b, r).
Proof.
  unfold fit_step. destruct (Z.ltb_spec (Np.len y) 2) as [H | H].
  - do 3 eexists. reflexivity.
  - assert (Hy : y <> []).
    { intros ->. unfold Np.len in H. simpl in H. lia. }
    destruct (fit_linear_trend_r2 y Hy) as (a & b & r & E & _).
    exists a, b, r. exact E.
Qed.

Lemma predict_future_first (a b : Q) (n horizon : Z) :
  (0 < horizon)%Z ->
  nth_error (_predict_future a b n horizon) 0
  = Some (a + b * inject_Z (n + 1)).
Proof.
  intros H. unfold _predict_future.
  rewrite nth_error_map, arange_nth by (simpl; lia).
  simpl. now rewrite Z.add_0_r.
Qed.

Lemma category_fit_exists (y : list Q) (horizon : Z) :
  exists c, fit_trend_and_forecast_category y horizon = Some c.
Proof.
  destruct (fit_step_total y) as (a & b & r & E).
  unfold fit_trend_and_forecast_category. rewrite E. eexists. reflexivity.
Qed.

(** X14: a series of one observation v gives the horizontal line through v:
    every projected value equals v and, when anything is projected, the
    direction is [tetap]. *)
Theorem single_observation_flat (v : Q) (horizon : Z) :
  (1 <= horizon)%Z ->
  exists c,
    fit_trend_and_forecast_category [v] horizon = Some c /\
    last_month_actual c = Some v /\
    List.length (future_values c) = Z.to_nat horizon /\
    Forall (fun p => p == v) (future_values c) /\
    arah_prediksi c = flat.
Proof.
  intros Hh. eexists. split; [reflexivity|].
  cbn [last_month_actual future_values arah_prediksi].
  assert (M : Np.mean [v] == v).
  { unfold Np.mean, Np.sum, Np.len. simpl. field. }
  change (Np.len [v]) with 1%Z. cbn [Z.eqb Z.gtb Z.compare last].
  destruct (Z.gtb_spec horizon 0) as [_ | ?]; [|lia].
  split; [reflexivity|]. split; [|split].
  - unfold _predict_future. rewrite length_map, arange_length. lia.
  - unfold _predict_future. apply Forall_forall. intros p Hp.
    apply in_map_iff in Hp as (t & <- & _). rewrite M. ring.
  - rewrite predict_future_first by lia.
    destruct (tolerance_spec v) as (T10 & _ & _).
    destruct (classify_cases v (Np.mean [v] + 0 * inject_Z (1 + 1)))
      as [[H _] | [[H _] | (_ & _ & E)]]; [| | exact E].
    + rewrite M in H. lra.
    + rewrite M in H. lra.
Qed.

Lemma single_observation_flat_witness :
  exists c,
    fit_trend_and_forecast_category [100] 2 = Some c /\
    last_month_actual c = Some 100 /\
    List.length (future_values c) = Z.to_nat 2 /\
    Forall (fun p => p == 100) (future_values c) /\
    arah_prediksi c = flat.
Proof. apply (single_observation_flat 100 2). lia. Defined.

(** * Month labels *)

Lemma next_month_name (m : Z) :
  (1 <= m <= 12)%Z -> exists name, dict_get NEXT_MONTHS_MAP m = Some name.
Proof.
  intros H.
  assert (Hm : (m = 1 \/ m = 2 \/ m = 3 \/ m = 4 \/ m = 5 \/ m = 6 \/ m = 7 \/
                m = 8 \/ m = 9 \/ m = 10 \/ m = 11 \/ m = 12)%Z) by lia.
  repeat (destruct Hm as [-> | Hm]; [eexists; reflexivity|]).
  subst. eexists. reflexivity.
Qed.

Lemma month_labels_loop_spec (steps : nat) :
  forall y m, (1 <= m <= 12)%Z ->
  exists labels,
    month_labels_loop steps y m = Done labels /\
    List.length labels = steps /\
    forall i, (i < steps)%nat ->
      exists name,
        dict_get NEXT_MONTHS_MAP ((m + Z.of_nat i) mod 12 + 1)%Z = Some name /\
        nth_error labels i
        = Some (str_of_int (y + (m + Z.of_nat i) / 12)%Z ++ "-" ++ name).
Proof.
  induction steps as [|steps IH]; intros y m Hm.
  - exists []. split; [reflexivity|]. split; [reflexivity|]. intros i Hi. lia.
  - cbn [month_labels_loop].
    set (ym := if (m + 1 >? 12)%Z then ((y + 1)%Z, 1%Z) else (y, (m + 1)%Z)).
    assert (Hym : (1 <= snd ym <= 12)%Z /\
                  snd ym = (m mod 12 + 1)%Z /\ fst ym = (y + m / 12)%Z).
    { unfold ym. destruct (Z.gtb_spec (m + 1) 12) as [Hg | Hg]; cbn [fst snd].
      - assert (E12 : m = 12%Z) by lia. subst m.
        repeat split; try reflexivity; lia.
      - rewrite Z.mod_small, Z.div_small by lia. lia. }
    destruct Hym as (Hr & Hs & Hf).
    destruct (next_month_name (snd ym) Hr) as [name Hname]. rewrite Hname.
    destruct (IH (fst ym) (snd ym) Hr) as (labels & -> & Hlen & Hnth).
    eexists. split; [reflexivity|]. split; [simpl; lia|].
    intros [|i] Hi.
    + exists name. rewrite Z.add_0_r, <- Hs, <- Hf. split; [exact Hname | reflexivity].
    + destruct (Hnth i ltac:(lia)) as (name' & Hn' & Hl').
      exists name'. cbn [nth_error]. rewrite Hl'.
      assert (Hmod : ((snd ym + Z.of_nat i) mod 12
                      = (m + Z.of_nat (S i)) mod 12)%Z).
      { rewrite Hs, Nat2Z.inj_succ.
        replace (m + Z.succ (Z.of_nat i))%Z
          with ((m + 1) + Z.of_nat i)%Z by lia.
        rewrite (Z.add_mod (m mod 12 + 1)), (Z.add_mod (m + 1)) by lia.
        f_equal. f_equal.
        rewrite (Z.add_mod (m mod 12)), (Z.add_mod m 1) by lia.
        now rewrite Z.mod_mod by lia. }
      assert (Hdiv : (fst ym + (snd ym + Z.of_nat i) / 12
                      = y + (m + Z.of_nat (S i)) / 12)%Z).
      { rewrite Hf, Hs, Nat2Z.inj_succ.
        pose proof (Z.div_mod m 12 ltac:(lia)) as Em.
        pose proof (Z.mod_pos_bound m 12 ltac:(lia)) as Bm.
        replace (m + Z.succ (Z.of_nat i))%Z
          with ((m mod 12 + 1 + Z.of_nat i) + (m / 12) * 12)%Z by lia.
        rewrite Z.div_add by lia. lia. }
      rewrite <- Hmod, <- Hdiv. split; [exact Hn' | reflexivity].
Qed.

(** X17: for a date whose month is from 1 to 12, [_month_labels_after]
    never fails and returns one label for each step of the horizon (none
    for a horizon of 0 or less); the k-th label names the month k months
    after the date, December being followed by January of the next year. *)
Theorem month_labels_follow_calendar (last_date : Timestamp) (horizon : Z) :
  (1 <= ts_month last_date <= 12)%Z ->
  exists labels,
    _month_labels_after last_date horizon = Done labels /\
    Np.len labels = Z.max 0 horizon /\
    forall k, (1 <= k <= horizon)%Z ->
      exists name,
        dict_get NEXT_MONTHS_MAP ((ts_month last_date + k - 1) mod 12 + 1)%Z
          = Some name /\
        nth_error labels (Z.to_nat (k - 1))
        = Some (str_of_int (ts_year last_date
                            + (ts_month last_date + k - 1) / 12)%Z
                ++ "-" ++ name).
Proof.
  intros Hm. unfold _month_labels_after.
  destruct (month_labels_loop_spec (Z.to_nat horizon) (ts_year last_date)
              (ts_month last_date) Hm) as (labels & E & Hlen & Hnth).
  exists labels. split; [exact E|]. split; [unfold Np.len; lia|].
  intros k Hk. destruct (Hnth (Z.to_nat (k - 1)) ltac:(lia)) as (name & H1 & H2).
  exists name.
  replace (ts_month last_date + Z.of_nat (Z.to_nat (k - 1)))%Z
    with (ts_month last_date + k - 1)%Z in H1, H2 by lia.
  auto.
Qed.

Lemma month_labels_follow_calendar_witness :
  exists labels,
    _month_labels_after {| ts_year := 2024; ts_month := 12 |} 3 = Done labels /\
    Np.len labels = Z.max 0 3.
Proof.
  destruct (month_labels_follow_calendar {| ts_year := 2024; ts_month := 12 |} 3
              ltac:(simpl; lia)) as (labels & H1 & H2 & _).
  exists labels. auto.
Defined.

Example month_labels_docstring :
  _month_labels_after {| ts_year := 2024; ts_month := 12 |} 3
  = Done ["2025-Jan"; "2025-Feb"; "2025-Mar"].
Proof. reflexivity. Qed.

(** * File names of the charts *)

Lemma is_dash_eq (c : ascii) : is_dash c = true -> c = "-"%char.
Proof. unfold is_dash. apply Ascii.eqb_eq. Qed.

Lemma slug_char_facts (c : ascii) :
  is_slug_char c = true ->
  is_dash c = false /\ Str.is_space c = false /\ Str.lower_char c = c.
Proof.
  unfold is_slug_char, is_dash, Str.is_space, Str.lower_char. intros H.
  rewrite orb_true_iff, !andb_true_iff, !Nat.leb_le in H.
  split; [|split].
  - destruct (Ascii.eqb_spec c "-") as [-> | _]; [|reflexivity].
    change (nat_of_ascii "-") with 45%nat in H. lia.
  - rewrite orb_false_iff, !andb_false_iff, !Nat.leb_gt. lia.
  - destruct (_ && _) eqn:E; [|reflexivity].
    rewrite andb_true_iff, !Nat.leb_le in E. lia.
Qed.

Lemma dash_facts :
  is_slug_char "-" = false /\ Str.is_space "-" = false /\
  Str.lower_char "-" = "-"%char /\ is_dash "-" = true.
Proof. repeat split. Qed.

Lemma dashy_weaken (s : string) : dashy true s = true -> dashy false s = true.
Proof.
  destruct s as [|c r]; [reflexivity|]. simpl.
  destruct (is_slug_char c); [auto|].
  rewrite andb_false_r. discriminate.
Qed.

Lemma sub_runs_dashy (s : string) :
  forall in_run,
    dashy in_run (sub_runs (fun c => negb (is_slug_char c)) in_run s) = true.
Proof.
  induction s as [|c r IH]; intros in_run; [reflexivity|].
  cbn [sub_runs]. destruct (is_slug_char c) eqn:E; cbn [negb].
  - cbn [dashy]. rewrite E. apply IH.
  - destruct in_run; [apply IH|].
    cbn [dashy]. change (is_slug_char "-") with false.
    change (is_dash "-") with true. simpl. apply IH.
Qed.

(** On such strings both substitutions change nothing. *)
Lemma sub_runs_dash_id (s : string) :
  forall prev, dashy prev s = true -> sub_runs is_dash prev s = s.
Proof.
  induction s as [|c r IH]; intros prev H; [reflexivity|].
  cbn [dashy] in H. cbn [sub_runs].
  destruct (is_slug_char c) eqn:E.
  - destruct (slug_char_facts c E) as (-> & _). f_equal. now apply IH.
  - rewrite !andb_true_iff in H. destruct H as [[Hd Hp] Hr].
    rewrite Hd. apply negb_true_iff in Hp. subst prev.
    apply is_dash_eq in Hd. subst c. f_equal. now apply IH.
Qed.

Lemma sub_runs_other_id (s : string) :
  forall prev,
    dashy prev s = true ->
    sub_runs (fun c => negb (is_slug_char c)) prev s = s.
Proof.
  induction s as [|c r IH]; intros prev H; [reflexivity|].
  cbn [dashy] in H. cbn [sub_runs].
  destruct (is_slug_char c) eqn:E; cbn [negb].
  - f_equal. now apply IH.
  - rewrite !andb_true_iff in H. destruct H as [[Hd Hp] Hr].
    apply negb_true_iff in Hp. subst prev.
    apply is_dash_eq in Hd. subst c. f_equal. now apply IH.
Qed.

Lemma lstrip_dashy (s : string) :
  forall prev,
    dashy prev s = true ->
    dashy false (lstrip_chars is_dash s) = true /\
    (lstrip_chars is_dash s = EmptyString \/
     exists c r, lstrip_chars is_dash s = String c r /\ is_slug_char c = true).
Proof.
  induction s as [|c r IH]; intros prev H.
  - split; [reflexivity | left; reflexivity].
  - cbn [dashy] in H. cbn [lstrip_chars].
    destruct (is_slug_char c) eqn:E.
    + destruct (slug_char_facts c E) as (-> & _).
      split; [cbn [dashy]; now rewrite E|].
      right. exists c, r. auto.
    + rewrite !andb_true_iff in H. destruct H as [[Hd _] Hr].
      rewrite Hd. apply (IH true Hr).
Qed.

Lemma rstrip_slug_tail (s : string) :
  forall prev,
    dashy prev s = true ->
    rstrip_chars is_dash s = EmptyString \/
    slug_tail prev (rstrip_chars is_dash s) = true.
Proof.
  induction s as [|c r IH]; intros prev H; [left; reflexivity|].
  cbn [dashy] in H. cbn [rstrip_chars].
  destruct (is_slug_char c) eqn:E.
  - destruct (slug_char_facts c E) as (Hd & _). right.
    destruct (IH false H) as [Hr | Hr].
    + rewrite Hr, Hd. cbn [slug_tail]. now rewrite E.
    + destruct (rstrip_chars is_dash r) as [|c' r'] eqn:Er.
      * rewrite Hd. cbn [slug_tail]. now rewrite E.
      * cbn [slug_tail]. rewrite E. exact Hr.
  - rewrite !andb_true_iff in H. destruct H as [[Hd Hp] Hr].
    apply negb_true_iff in Hp. subst prev.
    destruct (IH true Hr) as [Her | Hst].
    + left. now rewrite Her, Hd.
    + destruct (rstrip_chars is_dash r) as [|c' r'] eqn:Er.
      * left. now rewrite Hd.
      * right. cbn [slug_tail]. rewrite E, Hd. exact Hst.
Qed.

Lemma prefix_cons (a b : ascii) (s1 s2 : string) :
  prefix (String a s1) (String b s2)
  = if Ascii.eqb a b then prefix s1 s2 else false.
Proof.
  cbn [prefix]. destruct (ascii_dec a b) as [-> | Hne].
  - now rewrite Ascii.eqb_refl.
  - destruct (Ascii.eqb_spec a b); [contradiction | reflexivity].
Qed.

Lemma slug_tail_cons_slug (c : ascii) (t : string) (prev : bool) :
  is_slug_char c = true -> slug_tail prev (String c t) = slug_tail false t.
Proof. intros H. cbn [slug_tail]. now rewrite H. Qed.

Lemma strip_dashy_slug (s : string) :
  dashy false s = true ->
  strip_chars is_dash s = EmptyString \/ is_slug (strip_chars is_dash s) = true.
Proof.
  intros H. unfold strip_chars.
  destruct (lstrip_dashy s false H) as [Hd [He | (c & r & Hs & Hc)]].
  - left. now rewrite He.
  - right. rewrite Hs in *.
    destruct (slug_char_facts c Hc) as (Hnd & _).
    destruct (rstrip_slug_tail (String c r) false Hd) as [Her | Hst].
    + cbn [rstrip_chars] in Her. rewrite Hnd in Her.
      destruct (rstrip_chars is_dash r); discriminate.
    + cbn [rstrip_chars] in Hst |- *.
      destruct (rstrip_chars is_dash r) as [|c' r'].
      * rewrite Hnd. unfold is_slug. now rewrite Hc.
      * rewrite (slug_tail_cons_slug c _ false Hc) in Hst.
        unfold is_slug. now rewrite Hc, Hst.
Qed.

(** X18: [_sanitize_filename] always returns a usable file name: it is not
    empty, consists of the characters a-z, 0-9 and the dash, begins and ends
    with a letter or digit, and has no two dashes in a row. *)
Theorem sanitize_filename_slug (name : string) :
  is_slug (_sanitize_filename name) = true /\
  _sanitize_filename name <> "" /\
  string_forall (fun c => is_slug_char c || is_dash c)
                (_sanitize_filename name) = true /\
  Str.contains "--" (_sanitize_filename name) = false /\
  strip_chars is_dash (_sanitize_filename name) = _sanitize_filename name.
Proof.
  assert (Hslug : is_slug (_sanitize_filename name) = true).
  { unfold _sanitize_filename.
    set (s1 := sub_runs (fun c => negb (is_slug_char c)) false
                 (Str.lower (Str.strip name))).
    assert (H1 : dashy false s1 = true) by apply sub_runs_dashy.
    rewrite (sub_runs_dash_id s1 false H1).
    destruct (strip_dashy_slug s1 H1) as [E | E].
    - rewrite E. reflexivity.
    - destruct (strip_chars is_dash s1) eqn:Es; [discriminate E|].
      exact E. }
  split; [exact Hslug|].
  revert Hslug. generalize (_sanitize_filename name). intros s Hs.
  assert (Hne : s <> "") by (destruct s; [discriminate | discriminate]).
  split; [exact Hne|].
  destruct s as [|c r]; [discriminate|]. cbn [is_slug] in Hs.
  apply andb_true_iff in Hs as [Hc Hr].
  destruct (slug_char_facts c Hc) as (Hnd & _).
  assert (Hall : forall prev t, slug_tail prev t = true ->
            string_forall (fun c => is_slug_char c || is_dash c) t = true /\
            dashy prev t = true /\
            (t <> "" -> rstrip_chars is_dash t = t) /\
            (prev = true -> t <> "")).
  { intros prev t. revert prev. induction t as [|c' t IH]; intros prev H.
    - repeat split; try congruence. intros ->. discriminate H.
    - cbn [slug_tail] in H. cbn [string_forall dashy rstrip_chars].
      destruct (is_slug_char c') eqn:E'.
      + destruct (IH false H) as (Ha & Hb & Hcn & _).
        destruct (slug_char_facts c' E') as (Hnd' & _).
        repeat split; auto; try discriminate.
        intros _. destruct t as [|c'' t'].
        * simpl. now rewrite Hnd'.
        * rewrite Hcn by discriminate. reflexivity.
      + rewrite !andb_true_iff in H. destruct H as [[Hd Hp] Hr'].
        destruct (IH true Hr') as (Ha & Hb & Hcn & Hne').
        rewrite Hd, Hp, Ha, Hb. repeat split; auto; try discriminate.
        intros _. assert (Ht : t <> "") by (apply Hne'; reflexivity).
        rewrite (Hcn Ht). destruct t; [congruence | reflexivity]. }
  destruct (Hall false r Hr) as (Ha & Hb & Hcn & _).
  split; [|split].
  - cbn [string_forall]. now rewrite Hc, Ha.
  - assert (Hdd : forall prev t, dashy prev t = true ->
              Str.contains "--" t = false /\
              (prev = true -> prefix "-" t = false)).
    { intros prev t. revert prev. induction t as [|c' t IH]; intros prev H.
      - split; reflexivity.
      - cbn [dashy] in H. cbn [Str.contains].
        change "--" with (String "-" "-"). rewrite !prefix_cons.
        destruct (is_slug_char c') eqn:E'.
        + destruct (IH false H) as [Hn _].
          destruct (slug_char_facts c' E') as (Hnd' & _).
          destruct (Ascii.eqb_spec "-" c') as [<- | _]; [discriminate Hnd'|].
          rewrite Hn. split; reflexivity.
        + rewrite !andb_true_iff in H. destruct H as [[Hd Hp] Hr'].
          apply negb_true_iff in Hp. subst prev.
          destruct (IH true Hr') as [Hn Hpre].
          apply is_dash_eq in Hd. subst c'.
          rewrite Hn, (Hpre eq_refl). split; [reflexivity | discriminate]. }
    destruct (Hdd false (String c r)) as [Hn _]; [|exact Hn].
    cbn [dashy]. now rewrite Hc.
  - unfold strip_chars. cbn [lstrip_chars]. rewrite Hnd.
    cbn [rstrip_chars]. destruct r as [|c' r'].
    + simpl. now rewrite Hnd.
    + rewrite Hcn by discriminate. reflexivity.
Qed.

Lemma slug_or_dash_facts (c : ascii) :
  is_slug_char c || is_dash c = true ->
  Str.is_space c = false /\ Str.lower_char c = c.
Proof.
  intros H. apply orb_true_iff in H as [H | H].
  - destruct (slug_char_facts c H) as (_ & H1 & H2). auto.
  - apply is_dash_eq in H. subst c. split; reflexivity.
Qed.

Lemma slug_tail_facts (t : string) :
  forall prev,
    slug_tail prev t = true ->
    string_forall (fun c => is_slug_char c || is_dash c) t = true /\
    dashy prev t = true /\
    (t <> "" -> rstrip_chars is_dash t = t) /\
    (prev = true -> t <> "").
Proof.
  induction t as [|c t IH]; intros prev H.
  - repeat split; try congruence. intros ->. discriminate H.
  - cbn [slug_tail] in H. cbn [string_forall dashy rstrip_chars].
    destruct (is_slug_char c) eqn:E.
    + destruct (IH false H) as (Ha & Hb & Hcn & _).
      destruct (slug_char_facts c E) as (Hnd & _).
      repeat split; auto; try discriminate.
      intros _. destruct t as [|c' t'].
      * simpl. now rewrite Hnd.
      * rewrite Hcn by discriminate. reflexivity.
    + rewrite !andb_true_iff in H. destruct H as [[Hd Hp] Hr].
      destruct (IH true Hr) as (Ha & Hb & Hcn & Hne).
      rewrite Hd, Hp, Ha, Hb. repeat split; auto; try discriminate.
      intros _. assert (Ht : t <> "") by (apply Hne; reflexivity).
      rewrite (Hcn Ht). destruct t; [congruence | reflexivity].
Qed.

Lemma rstrip_no_space (t : string) :
  string_forall (fun c => is_slug_char c || is_dash c) t = true ->
  Str.rstrip t = t.
Proof.
  induction t as [|c t IH]; [reflexivity|].
  cbn [string_forall Str.rstrip]. intros H.
  apply andb_true_iff in H as [Hc Ht].
  destruct (slug_or_dash_facts c Hc) as [Hs _].
  rewrite (IH Ht), Hs. destruct t; reflexivity.
Qed.

Lemma lower_fixed (t : string) :
  string_forall (fun c => is_slug_char c || is_dash c) t = true ->
  Str.lower t = t.
Proof.
  induction t as [|c t IH]; [reflexivity|].
  cbn [string_forall Str.lower]. intros H.
  apply andb_true_iff in H as [Hc Ht].
  destruct (slug_or_dash_facts c Hc) as [_ Hl].
  now rewrite (IH Ht), Hl.
Qed.

(** X19: [_sanitize_filename] leaves a name it could have produced as it
    is; sanitizing twice is sanitizing once. *)
Theorem sanitize_filename_idempotent (name : string) :
  (is_slug name = true -> _sanitize_filename name = name) /\
  _sanitize_filename (_sanitize_filename name) = _sanitize_filename name.
Proof.
  assert (Hfix : forall s, is_slug s = true -> _sanitize_filename s = s).
  { intros s Hs. destruct s as [|c r]; [discriminate|].
    cbn [is_slug] in Hs. apply andb_true_iff in Hs as [Hc Hr].
    destruct (slug_char_facts c Hc) as (Hnd & Hsp & Hlow).
    destruct (slug_tail_facts r false Hr) as (Ha & Hb & Hcn & _).
    assert (Hall : string_forall (fun c => is_slug_char c || is_dash c)
                     (String c r) = true)
      by (cbn [string_forall]; now rewrite Hc, Ha).
    assert (Hd : dashy false (String c r) = true)
      by (cbn [dashy]; now rewrite Hc).
    unfold _sanitize_filename, Str.strip.
    cbn [Str.lstrip]. rewrite Hsp.
    rewrite (rstrip_no_space _ Hall), (lower_fixed _ Hall).
    rewrite (sub_runs_other_id _ false Hd), (sub_runs_dash_id _ false Hd).
    unfold strip_chars. cbn [lstrip_chars]. rewrite Hnd.
    cbn [rstrip_chars]. destruct r as [|c' r'].
    - simpl. rewrite Hnd. reflexivity.
    - rewrite Hcn by discriminate. reflexivity. }
  split; [apply Hfix|].
  apply Hfix.
  unfold _sanitize_filename.
  set (s1 := sub_runs (fun c => negb (is_slug_char c)) false
               (Str.lower (Str.strip name))).
  assert (H1 : dashy false s1 = true) by apply sub_runs_dashy.
  rewrite (sub_runs_dash_id s1 false H1).
  destruct (strip_dashy_slug s1 H1) as [E | E].
  - rewrite E. reflexivity.
  - destruct (strip_chars is_dash s1) eqn:Es; [discriminate E | exact E].
Qed.

Lemma sanitize_filename_idempotent_witness :
  _sanitize_filename "non-jabodetabek-jawa" = "non-jabodetabek-jawa".
Proof.
  apply (proj1 (sanitize_filename_idempotent "non-jabodetabek-jawa")).
  reflexivity.
Defined.

Lemma sub_runs_all (cls : ascii -> bool) (s : string) :
  string_forall cls s = true -> sub_runs cls true s = EmptyString.
Proof.
  induction s as [|c r IH]; [reflexivity|].
  cbn [string_forall sub_runs]. intros H.
  apply andb_true_iff in H as [Hc Hr]. rewrite Hc. now apply IH.
Qed.

(** X20: a name of ASCII characters without any letter or digit, the empty
    name among them, is given the file name "kategori". *)
Theorem sanitize_filename_fallback (name : string) :
  ascii_text name = true ->
  string_forall (fun c => negb (is_slug_char c))
                (Str.lower (Str.strip name)) = true ->
  _sanitize_filename name = "kategori".
Proof.
  intros _ H. unfold _sanitize_filename.
  destruct (Str.lower (Str.strip name)) as [|c r]; [reflexivity|].
  cbn [string_forall] in H. apply andb_true_iff in H as [Hc Hr].
  cbn [sub_runs]. rewrite Hc, (sub_runs_all _ r Hr).
  reflexivity.
Qed.

Lemma sanitize_filename_fallback_witness :
  _sanitize_filename " ?! / -- " = "kategori".
Proof.
  apply (sanitize_filename_fallback " ?! / -- "); reflexivity.
Defined.

(** * Summary builder *)

Lemma first_seen_In (l : list string) :
  forall seen c, In c (first_seen seen l) <-> In c l /\ ~ In c seen.
Proof.
  induction l as [|x l IH]; intros seen c; cbn [first_seen].
  - simpl. tauto.
  - destruct (mem x seen) eqn:E.
    + apply mem_In in E. rewrite IH. simpl. split.
      * tauto.
      * intros [[-> | H] Hn]; [contradiction | tauto].
    + assert (Hx : ~ In x seen).
      { intros H. apply mem_In in H. congruence. }
      simpl. rewrite IH. simpl. split.
      * intros [<- | [H Hn]]; [tauto|]. split; [tauto|]. tauto.
      * intros [[<- | H] Hn]; [tauto|].
        destruct (string_dec x c) as [-> | Hne]; [tauto|]. right. tauto.
Qed.

Lemma first_seen_NoDup (l : list string) :
  forall seen, NoDup (first_seen seen l).
Proof.
  induction l as [|x l IH]; intros seen; cbn [first_seen]; [constructor|].
  destruct (mem x seen); [apply IH|].
  constructor; [|apply IH].
  intros H. apply first_seen_In in H. simpl in H. tauto.
Qed.

Lemma group_keys_In (df : list Observation) (c : string) :
  In c (group_keys df) <-> exists o, In o df /\ obs_tipe o = c.
Proof.
  unfold group_keys. rewrite first_seen_In, in_map_iff. simpl.
  split; [intros [(o & E & H) _]; eauto | intros (o & H & E); eauto].
Qed.

Lemma group_In (c : string) (df : list Observation) (o : Observation) :
  In o (group c df) <-> In o df /\ obs_tipe o = c.
Proof. unfold group. now rewrite filter_In, String.eqb_eq. Qed.

Lemma max_tanggal_In (grp : list Observation) :
  grp <> [] ->
  exists o, In o grp /\ max_tanggal grp = Some (obs_tanggal o).
Proof.
  induction grp as [|o r IH]; [congruence|]. intros _.
  cbn [max_tanggal]. destruct r as [|o' r'].
  - exists o. split; [now left | reflexivity].
  - destruct IH as (m & Hm & ->); [discriminate|].
    destruct (ts_ord (obs_tanggal m) <? ts_ord (obs_tanggal o))%Z.
    + exists o. split; [now left | reflexivity].
    + exists m. split; [now right | reflexivity].
Qed.

Lemma month_labels_loop_length (steps : nat) :
  forall y m labels,
    month_labels_loop steps y m = Done labels -> List.length labels = steps.
Proof.
  induction steps as [|steps IH]; intros y m labels; cbn [month_labels_loop].
  - intros [= <-]. reflexivity.
  - destruct (dict_get NEXT_MONTHS_MAP _); [|discriminate].
    destruct (month_labels_loop steps _ _) as [l|] eqn:E; [|discriminate].
    intros [= <-]. simpl. f_equal. apply (IH _ _ _ E).
Qed.

Lemma next_columns (preds : list Q) :
  forall (labels : list string),
    List.length labels = List.length preds ->
    map (fun i => (nth_error preds i, nth i labels ""))
        (seq 0 (List.length preds))
    = combine (map Some preds) labels.
Proof.
  induction preds as [|q preds IH]; intros [|lab labels] H;
    try discriminate; [reflexivity|].
  cbn [List.length seq map combine nth_error nth]. f_equal.
  rewrite <- seq_shift, map_map. cbn [nth_error nth].
  apply IH. simpl in H. lia.
Qed.

Lemma summarize_group_inv (horizon : Z) (g : string * list Observation)
    (row : SummaryRow * Detail) :
  summarize_group horizon g = Done row ->
  exists fit last_date labels,
    fit_trend_and_forecast_category
      (map obs_jumlah (sort_values tanggal_leb (snd g))) horizon = Some fit /\
    max_tanggal (sort_values tanggal_leb (snd g)) = Some last_date /\
    _month_labels_after last_date horizon = Done labels /\
    row = ({| sr_tipe := fst g; sr_fit := fit;
              sr_next := map (fun i => (nth_error (future_values fit) i,
                                        nth i labels ""))
                             (seq 0 (Z.to_nat horizon)) |},
           (fst g, (future_values fit, labels))).
Proof.
  unfold summarize_group.
  destruct (fit_trend_and_forecast_category _ horizon) as [fit|] eqn:E1;
    [|discriminate].
  destruct (max_tanggal _) as [d|] eqn:E2; [|discriminate].
  destruct (_month_labels_after d horizon) as [labels|] eqn:E3; [|discriminate].
  intros [= <-]. exists fit, d, labels. auto.
Qed.

Lemma summarize_group_total (horizon : Z) (g : string * list Observation) :
  snd g <> [] -> Forall valid_obs (snd g) ->
  exists row, summarize_group horizon g = Done row.
Proof.
  intros Hne Hv. unfold summarize_group.
  destruct (category_fit_exists
              (map obs_jumlah (sort_values tanggal_leb (snd g))) horizon)
    as [fit ->].
  pose proof (sort_values_perm _ tanggal_leb (snd g)) as Hperm.
  assert (Hs : sort_values tanggal_leb (snd g) <> []).
  { intros E. rewrite E in Hperm.
    apply Permutation_nil in Hperm. contradiction. }
  destruct (max_tanggal_In _ Hs) as (o & Ho & ->).
  assert (Hvo : valid_obs o).
  { rewrite Forall_forall in Hv. apply Hv.
    apply (Permutation_in _ Hperm Ho). }
  unfold _month_labels_after.
  destruct (month_labels_loop_spec (Z.to_nat horizon)
              (ts_year (obs_tanggal o)) (ts_month (obs_tanggal o)) Hvo)
    as (labels & -> & _).
  eexists. reflexivity.
Qed.

Lemma summarize_all_inv (horizon : Z) (gs : list (string * list Observation)) :
  forall rows,
    summarize_all horizon gs = Done rows ->
    Forall2 (fun g row => summarize_group horizon g = Done row) gs rows.
Proof.
  induction gs as [|g gs IH]; intros rows; cbn [summarize_all].
  - intros [= <-]. constructor.
  - destruct (summarize_group horizon g) as [row|] eqn:E; [|discriminate].
    destruct (summarize_all horizon gs) as [rs|]; [|discriminate].
    intros [= <-]. constructor; [exact E | now apply IH].
Qed.

Lemma summarize_all_total (horizon : Z) (gs : list (string * list Observation)) :
  (forall g, In g gs -> exists row, summarize_group horizon g = Done row) ->
  exists rows, summarize_all horizon gs = Done rows.
Proof.
  induction gs as [|g gs IH]; intros H; cbn [summarize_all].
  - eexists. reflexivity.
  - destruct (H g (or_introl eq_refl)) as [row ->].
    destruct IH as [rows ->]; [intros g' Hg; apply H; now right|].
    eexists. reflexivity.
Qed.

Lemma summarize_all_keys (horizon : Z) (gs : list (string * list Observation))
    (rows : list (SummaryRow * Detail)) :
  summarize_all horizon gs = Done rows ->
  map (fun row => sr_tipe (fst row)) rows = map fst gs /\
  map (fun row => fst (snd row)) rows = map fst gs.
Proof.
  intros H. apply summarize_all_inv in H.
  induction H as [|g row gs rows Hg _ IH]; [split; reflexivity|].
  apply summarize_group_inv in Hg as (fit & d & labels & _ & _ & _ & ->).
  destruct IH as [IH1 IH2]. cbn [map fst snd sr_tipe]. now rewrite IH1, IH2.
Qed.

Lemma groupby_keys (df : list Observation) :
  map fst (groupby df) = group_keys df.
Proof. unfold groupby. rewrite map_map. cbn [fst]. apply map_id. Qed.

(** The orders of the summary. *)
Lemma tipe_leb_total (a b : SummaryRow) :
  tipe_leb a b = false -> tipe_leb b a = true.
Proof.
  unfold tipe_leb. rewrite (String.compare_antisym (sr_tipe b) (sr_tipe a)).
  destruct (String.compare (sr_tipe a) (sr_tipe b)); simpl; auto; discriminate.
Qed.

Lemma tipe_leb_trans (a b c : SummaryRow) :
  tipe_leb a b = true -> tipe_leb b c = true -> tipe_leb a c = true.
Proof.
  unfold tipe_leb.
  destruct (String.compare (sr_tipe a) (sr_tipe b)) eqn:E1; try discriminate;
    destruct (String.compare (sr_tipe b) (sr_tipe c)) eqn:E2; try discriminate;
    intros _ _.
  - apply String.compare_eq_iff in E1, E2. rewrite E1, E2.
    now rewrite string_compare_refl.
  - apply String.compare_eq_iff in E1. now rewrite E1, E2.
  - apply String.compare_eq_iff in E2. now rewrite <- E2, E1.
  - now rewrite (string_compare_lt_trans _ _ _ E1 E2).
Qed.

Lemma order_of_cases (r : SummaryRow) :
  (order_of r = 0%Z /\ sr_tipe r = "Total") \/
  (order_of r = 1%Z /\ sr_tipe r <> "Total").
Proof.
  unfold order_of. destruct (String.eqb_spec (sr_tipe r) "Total"); auto.
Qed.

Lemma total_first_leb_total (a b : SummaryRow) :
  total_first_leb a b = false -> total_first_leb b a = true.
Proof.
  unfold total_first_leb.
  destruct (Z.ltb_spec (order_of a) (order_of b)); [discriminate|].
  destruct (Z.eqb_spec (order_of a) (order_of b)) as [E | E].
  - rewrite E, Z.ltb_irrefl, Z.eqb_refl. apply tipe_leb_total.
  - intros _. destruct (Z.ltb_spec (order_of b) (order_of a)); [reflexivity | lia].
Qed.

Lemma total_first_leb_trans (a b c : SummaryRow) :
  total_first_leb a b = true -> total_first_leb b c = true ->
  total_first_leb a c = true.
Proof.
  unfold total_first_leb.
  destruct (Z.ltb_spec (order_of a) (order_of b));
    destruct (Z.ltb_spec (order_of b) (order_of c));
    destruct (Z.ltb_spec (order_of a) (order_of c)); auto; try lia;
    destruct (Z.eqb_spec (order_of a) (order_of b));
    destruct (Z.eqb_spec (order_of b) (order_of c));
    destruct (Z.eqb_spec (order_of a) (order_of c));
    try discriminate; try lia; auto.
  apply tipe_leb_trans.
Qed.

Lemma StronglySorted_map (A B : Type) (f : A -> B) (R : B -> B -> Prop)
    (l : list A) :
  StronglySorted (fun a b => R (f a) (f b)) l -> StronglySorted R (map f l).
Proof.
  induction 1 as [|a l Hs IH Ha]; simpl; constructor; [exact IH|].
  rewrite Forall_forall in *. intros x Hx.
  apply in_map_iff in Hx as (y & <- & Hy). now apply Ha.
Qed.

Lemma tipe_leb_strict (a b : SummaryRow) :
  tipe_leb a b = true -> sr_tipe a <> sr_tipe b ->
  string_lt (sr_tipe a) (sr_tipe b).
Proof.
  unfold tipe_leb, string_lt.
  destruct (String.compare (sr_tipe a) (sr_tipe b)) eqn:E; try discriminate.
  - apply String.compare_eq_iff in E. contradiction.
  - reflexivity.
Qed.

Lemma fit_trend_and_forecast_inv (df : list Observation) (horizon : Z)
    (summary : list SummaryRow) (detail : list Detail) :
  fit_trend_and_forecast df horizon = Done (summary, detail) ->
  exists rows,
    summarize_all horizon (groupby df) = Done rows /\
    detail = map snd rows /\
    map sr_tipe (map fst rows) = group_keys df /\
    summary =
      (if existsb (fun r => String.eqb (sr_tipe r) "Total") (map fst rows)
       then sort_values total_first_leb (map fst rows)
       else sort_values tipe_leb (map fst rows)) /\
    Permutation summary (map fst rows).
Proof.
  unfold fit_trend_and_forecast.
  destruct (summarize_all horizon (groupby df)) as [rows|] eqn:E; [|discriminate].
  cbv zeta.
  remember (if existsb (fun r => String.eqb (sr_tipe r) "Total") (map fst rows)
            then sort_values total_first_leb (map fst rows)
            else sort_values tipe_leb (map fst rows)) as sorted eqn:Hs.
  assert (Hp : Permutation sorted (map fst rows))
    by (rewrite Hs; destruct (existsb _ _); apply sort_values_perm).
  destruct (map fst rows) as [|r0 rs] in |- *; [discriminate|].
  intros H. injection H as <- <-. exists rows.
  split; [reflexivity|]. split; [reflexivity|].
  split; [|split; [exact Hs | exact Hp]].
  rewrite map_map, <- groupby_keys.
  apply (summarize_all_keys horizon _ _ E).
Qed.

Lemma has_total_iff (rows : list SummaryRow) :
  existsb (fun r => String.eqb (sr_tipe r) "Total") rows = true
  <-> In "Total" (map sr_tipe rows).
Proof.
  rewrite existsb_exists, in_map_iff. split.
  - intros (r & Hr & E). apply String.eqb_eq in E. eauto.
  - intros (r & E & Hr). exists r. split; [exact Hr|]. now apply String.eqb_eq.
Qed.

(** X21: the summary [fit_trend_and_forecast] returns has one row for each
    category of the table and no other; the category "Total", when there is
    one, comes first, and the other categories follow in ascending order of
    their names; [detail_forecasts] lists the categories in the order of
    their first appearance. *)
Theorem summary_order (df : list Observation) (horizon : Z)
    (summary : list SummaryRow) (detail : list Detail) :
  fit_trend_and_forecast df horizon = Done (summary, detail) ->
  Permutation (map sr_tipe summary) (group_keys df) /\
  NoDup (map sr_tipe summary) /\
  (forall c, In c (map sr_tipe summary) <-> exists o, In o df /\ obs_tipe o = c) /\
  map fst detail = group_keys df /\
  (In "Total" (group_keys df) ->
   exists rest,
     map sr_tipe summary = "Total" :: rest /\ StronglySorted string_lt rest) /\
  (~ In "Total" (group_keys df) ->
   StronglySorted string_lt (map sr_tipe summary)).
Proof.
  intros H.
  destruct (fit_trend_and_forecast_inv _ _ _ _ H)
    as (rows & Hall & -> & Hkeys & Hsum & Hperm).
  assert (Hp : Permutation (map sr_tipe summary) (group_keys df)).
  { rewrite <- Hkeys. now apply Permutation_map. }
  assert (Hnd : NoDup (map sr_tipe summary)).
  { apply (Permutation_NoDup (Permutation_sym Hp)).
    apply first_seen_NoDup. }
  split; [exact Hp|]. split; [exact Hnd|]. split; [|split; [|split]].
  - intros c. rewrite <- group_keys_In. split; apply Permutation_in;
      [exact Hp | apply Permutation_sym, Hp].
  - rewrite map_map. destruct (summarize_all_keys _ _ _ Hall) as [_ Hk].
    etransitivity; [exact Hk | apply groupby_keys].
  - intros Htot.
    assert (Hex : existsb (fun r => String.eqb (sr_tipe r) "Total")
                    (map fst rows) = true)
      by (apply has_total_iff; now rewrite Hkeys).
    rewrite Hex in Hsum.
    pose proof (sort_values_sorted _ total_first_leb total_first_leb_total
                  total_first_leb_trans (map fst rows)) as Hs.
    rewrite <- Hsum in Hs.
    assert (Hin : In "Total" (map sr_tipe summary))
      by (apply (Permutation_in _ (Permutation_sym Hp)), Htot).
    destruct summary as [|h t]; [contradiction|].
    apply StronglySorted_inv in Hs as [Hst Hh].
    assert (Hhead : sr_tipe h = "Total").
    { destruct Hin as [E | Hin]; [exact E|].
      apply in_map_iff in Hin as (r & Er & Hr).
      rewrite Forall_forall in Hh. specialize (Hh r Hr).
      unfold total_first_leb in Hh.
      destruct (order_of_cases h) as [[_ E] | [Eh _]]; [exact E|].
      destruct (order_of_cases r) as [[Eo _] | [_ Ne]]; [|contradiction].
      rewrite Eh, Eo in Hh. discriminate Hh. }
    cbn [map] in *. rewrite Hhead in *. exists (map sr_tipe t).
    split; [reflexivity|].
    inversion Hnd as [|? ? Hnot Hndt]; subst.
    apply StronglySorted_map.
    apply (StronglySorted_strict sr_tipe
             (fun a b => total_first_leb a b = true)
             (fun a b => string_lt (sr_tipe a) (sr_tipe b))
             (fun r => sr_tipe r <> "Total") t); auto.
    + intros a b Ha Hb Hab Hne. apply tipe_leb_strict; [|exact Hne].
      unfold total_first_leb in Hab.
      destruct (order_of_cases a) as [[_ E] | [Ea _]]; [contradiction|].
      destruct (order_of_cases b) as [[_ E] | [Eb _]]; [contradiction|].
      rewrite Ea, Eb in Hab. exact Hab.
    + apply Forall_forall. intros r Hr E. apply Hnot. rewrite <- E.
      now apply in_map.
  - intros Htot.
    assert (Hex : existsb (fun r => String.eqb (sr_tipe r) "Total")
                    (map fst rows) = false).
    { destruct (existsb _ _) eqn:E; [|reflexivity].
      apply has_total_iff in E. rewrite Hkeys in E. contradiction. }
    rewrite Hex in Hsum.
    pose proof (sort_values_sorted _ tipe_leb tipe_leb_total tipe_leb_trans
                  (map fst rows)) as Hs.
    rewrite <- Hsum in Hs.
    apply StronglySorted_map.
    apply (StronglySorted_strict sr_tipe
             (fun a b => tipe_leb a b = true)
             (fun a b => string_lt (sr_tipe a) (sr_tipe b))
             (fun _ => True) summary); auto.
    + intros a b _ _. apply tipe_leb_strict.
    + apply Forall_forall. auto.
Qed.

(** ** The rows of the summary *)

Lemma category_fit_inv (y : list Q) (horizon : Z) (c : CategoryFit) :
  fit_trend_and_forecast_category y horizon = Some c ->
  n_obs c = Np.len y /\ List.length (future_values c) = Z.to_nat horizon.
Proof.
  unfold fit_trend_and_forecast_category.
  destruct (fit_step y) as [[[a b] r]|]; [|discriminate].
  intros [= <-]. cbn [n_obs future_values]. split; [reflexivity|].
  destruct (Z.gtb_spec horizon 0) as [Hh | Hh].
  - pose proof (predict_future_length a b (Np.len y) horizon) as Hl.
    unfold Np.len at 1 in Hl. lia.
  - simpl. lia.
Qed.

Lemma Forall2_In_r {A B : Type} (R : A -> B -> Prop) (l : list A)
    (l' : list B) (b : B) :
  Forall2 R l l' -> In b l' -> exists a, In a l /\ R a b.
Proof.
  induction 1 as [|x y l l' Hxy _ IH]; intros Hb; [contradiction|].
  destruct Hb as [<- | Hb].
  - exists x. split; [now left | exact Hxy].
  - destruct (IH Hb) as (a & Ha & HR). exists a. split; [now right | exact HR].
Qed.

Lemma max_tanggal_ge (grp : list Observation) (d : Timestamp) :
  max_tanggal grp = Some d ->
  Forall (fun o => (ts_ord (obs_tanggal o) <= ts_ord d)%Z) grp.
Proof.
  revert d. induction grp as [|o r IH]; intros d; [constructor|].
  cbn [max_tanggal]. destruct (max_tanggal r) as [m|] eqn:Em.
  - specialize (IH m eq_refl).
    destruct (Z.ltb_spec (ts_ord m) (ts_ord (obs_tanggal o))); intros [= <-].
    + constructor; [lia|]. eapply Forall_impl; [|exact IH].
      intros x Hx. simpl in Hx. lia.
    + constructor; [lia | exact IH].
  - intros [= <-]. destruct r as [|o' r'].
    + constructor; [lia | constructor].
    + exfalso. destruct (max_tanggal_In (o' :: r')) as (x & _ & E);
        [discriminate|].
      rewrite Em in E. discriminate E.
Qed.

Lemma tanggal_sorted (grp : list Observation) :
  StronglySorted
    (fun a b => (ts_ord (obs_tanggal a) <= ts_ord (obs_tanggal b))%Z)
    (sort_values tanggal_leb grp).
Proof.
  pose proof (sort_values_sorted _ tanggal_leb) as H.
  assert (Ht : forall a b, tanggal_leb a b = false -> tanggal_leb b a = true).
  { intros a b. unfold tanggal_leb. rewrite Z.leb_gt, Z.leb_le. lia. }
  assert (Hr : forall a b c, tanggal_leb a b = true -> tanggal_leb b c = true ->
                        tanggal_leb a c = true).
  { intros a b c. unfold tanggal_leb. rewrite !Z.leb_le. lia. }
  specialize (H Ht Hr grp).
  apply (StronglySorted_weaken _ _ _ (fun _ => True) _) with (3 := H).
  - intros a b _ _. unfold tanggal_leb. now rewrite Z.leb_le.
  - apply Forall_forall. auto.
Qed.

Lemma summary_row_inv (df : list Observation) (horizon : Z)
    (summary : list SummaryRow) (detail : list Detail) (r : SummaryRow) :
  fit_trend_and_forecast df horizon = Done (summary, detail) ->
  In r summary ->
  exists last_date labels,
    In (sr_tipe r) (group_keys df) /\
    fit_trend_and_forecast_category
      (map obs_jumlah (sort_values tanggal_leb (group (sr_tipe r) df))) horizon
    = Some (sr_fit r) /\
    max_tanggal (sort_values tanggal_leb (group (sr_tipe r) df))
    = Some last_date /\
    _month_labels_after last_date horizon = Done labels /\
    sr_next r = map (fun i => (nth_error (future_values (sr_fit r)) i,
                               nth i labels ""))
                    (seq 0 (Z.to_nat horizon)) /\
    In (sr_tipe r, (future_values (sr_fit r), labels)) detail.
Proof.
  intros H Hr.
  destruct (fit_trend_and_forecast_inv _ _ _ _ H)
    as (rows & Hall & -> & _ & _ & Hperm).
  apply (Permutation_in _ Hperm) in Hr.
  apply in_map_iff in Hr as (row & <- & Hrow).
  pose proof (in_map snd _ _ Hrow) as Hd.
  apply summarize_all_inv in Hall.
  destruct (Forall2_In_r _ _ _ _ Hall Hrow) as (g & Hg & Hsg).
  unfold groupby in Hg. apply in_map_iff in Hg as (c & <- & Hc).
  apply summarize_group_inv in Hsg as (fit & d & labels & E1 & E2 & E3 & ->).
  cbn [fst snd sr_tipe sr_fit sr_next] in *.
  exists d, labels. auto 10.
Qed.

(** X22: each row of the summary is fitted to the counts of its own category
    taken in date order, and its n_obs is the number of that category's
    observations, which is at least 1. *)
Theorem summary_counts (df : list Observation) (horizon : Z)
    (summary : list SummaryRow) (detail : list Detail) (r : SummaryRow) :
  fit_trend_and_forecast df horizon = Done (summary, detail) ->
  In r summary ->
  exists grp,
    Permutation grp (group (sr_tipe r) df) /\
    StronglySorted
      (fun a b => (ts_ord (obs_tanggal a) <= ts_ord (obs_tanggal b))%Z) grp /\
    fit_trend_and_forecast_category (map obs_jumlah grp) horizon
    = Some (sr_fit r) /\
    n_obs (sr_fit r) = Np.len (group (sr_tipe r) df) /\
    (1 <= n_obs (sr_fit r))%Z.
Proof.
  intros H Hr.
  destruct (summary_row_inv _ _ _ _ _ H Hr) as (d & labels & Hk & Hf & _).
  assert (Hn : n_obs (sr_fit r) = Np.len (group (sr_tipe r) df)).
  { destruct (category_fit_inv _ _ _ Hf) as [Hn _]. rewrite Hn.
    unfold Np.len. rewrite length_map.
    now rewrite (Permutation_length (sort_values_perm _ tanggal_leb _)). }
  exists (sort_values tanggal_leb (group (sr_tipe r) df)).
  split; [apply sort_values_perm|]. split; [apply tanggal_sorted|].
  split; [exact Hf|]. split; [exact Hn|].
  rewrite Hn. apply group_keys_In in Hk as (o & Ho & E).
  assert (Hg : In o (group (sr_tipe r) df)) by (apply group_In; auto).
  unfold Np.len. destruct (group (sr_tipe r) df); [contradiction|].
  simpl. lia.
Qed.

(** X24: a row's columns pred_next_i and pred_next_i_label are exactly the
    category's projected values paired with its labels: there are as many of
    each as the horizon asks for, so no column is ever filled with NaN or an
    empty label; the same values and labels are the category's entry of
    [detail_forecasts], and the labels are those that follow the latest date
    of the category. *)
Theorem summary_next_columns (df : list Observation) (horizon : Z)
    (summary : list SummaryRow) (detail : list Detail) (r : SummaryRow) :
  fit_trend_and_forecast df horizon = Done (summary, detail) ->
  In r summary ->
  exists labels o,
    In (sr_tipe r, (future_values (sr_fit r), labels)) detail /\
    List.length labels = Z.to_nat horizon /\
    List.length (future_values (sr_fit r)) = Z.to_nat horizon /\
    sr_next r = combine (map Some (future_values (sr_fit r))) labels /\
    In o df /\ obs_tipe o = sr_tipe r /\
    (forall o', In o' df -> obs_tipe o' = sr_tipe r ->
                (ts_ord (obs_tanggal o') <= ts_ord (obs_tanggal o))%Z) /\
    _month_labels_after (obs_tanggal o) horizon = Done labels.
Proof.
  intros H Hr.
  destruct (summary_row_inv _ _ _ _ _ H Hr)
    as (d & labels & Hk & Hf & Hmax & Hlab & Hnext & Hdet).
  destruct (category_fit_inv _ _ _ Hf) as [_ Hlen].
  assert (Hll : List.length labels = Z.to_nat horizon).
  { unfold _month_labels_after in Hlab.
    apply (month_labels_loop_length _ _ _ _ Hlab). }
  pose proof (sort_values_perm _ tanggal_leb (group (sr_tipe r) df)) as Hperm.
  assert (Hs : sort_values tanggal_leb (group (sr_tipe r) df) <> []).
  { intros E. rewrite E in Hmax. discriminate Hmax. }
  destruct (max_tanggal_In _ Hs) as (o & Ho & Eo).
  rewrite Hmax in Eo. injection Eo as ->.
  apply (Permutation_in _ Hperm), group_In in Ho as [Ho Et].
  exists labels, o.
  split; [exact Hdet|]. split; [exact Hll|]. split; [exact Hlen|].
  split.
  - rewrite Hnext, <- Hlen. apply next_columns. congruence.
  - split; [exact Ho|]. split; [exact Et|]. split; [|exact Hlab].
    intros o' Ho' Et'.
    pose proof (max_tanggal_ge _ _ Hmax) as Hge. rewrite Forall_forall in Hge.
    apply Hge. apply (Permutation_in _ (Permutation_sym Hperm)).
    apply group_In. auto.
Qed.

(** ** The whole pipeline *)

(** X23: [fit_trend_and_forecast] never returns an empty summary: on a table
    with no row it fails with the KeyError of the missing column
    tipe_kendaraan, whatever the horizon, and a summary it returns has at
    least one row and as many rows as [detail_forecasts] has entries. *)
Theorem summary_builder_outcome (df : list Observation) (horizon : Z) :
  (df = [] ->
   fit_trend_and_forecast df horizon = Fail (KeyError "tipe_kendaraan")) /\
  (forall summary detail,
     fit_trend_and_forecast df horizon = Done (summary, detail) ->
     df <> [] /\ summary <> [] /\
     List.length detail = List.length summary).
Proof.
  split.
  - intros ->. reflexivity.
  - intros summary detail H.
    assert (Hdf : df <> []) by (intros ->; discriminate H).
    split; [exact Hdf|].
    destruct (fit_trend_and_forecast_inv _ _ _ _ H)
      as (rows & _ & -> & Hkeys & _ & Hperm).
    split.
    + intros ->. apply Permutation_nil in Hperm.
      rewrite Hperm in Hkeys. simpl in Hkeys.
      destruct df as [|o df]; [congruence|].
      assert (Ho : In (obs_tipe o) (group_keys (o :: df))).
      { apply group_keys_In. exists o. split; [now left | reflexivity]. }
      rewrite <- Hkeys in Ho. contradiction.
    + rewrite (Permutation_length Hperm), !length_map. reflexivity.
Qed.

Lemma observations_loaded (out : list LongRow) :
  Forall (fun r => exists year, loaded_row year r) out ->
  map obs_tipe (observations out) = map tipe_kendaraan out /\
  Forall valid_obs (observations out).
Proof.
  induction 1 as [|r out (y & _ & q & m & Hq & _ & Hm & Ht) _ [IH1 IH2]].
  - split; [reflexivity | constructor].
  - unfold observations in *. cbn [flat_map]. rewrite Hq, Ht.
    cbn [app map obs_tipe]. split; [now rewrite IH1|].
    constructor; [exact Hm | exact IH2].
Qed.

(** X25: what [run] writes left aside, an error of the loader is the error
    of [run]; when the merged table has no row [run] fails with the KeyError
    of the missing column tipe_kendaraan; and when [run] returns a summary,
    the sources were loaded, the merged table has a row, and the categories
    of the summary are exactly the categories of the merged table. *)
Theorem run_outcome (read_csv : string -> result DataFrame)
    (parse_number : string -> option Q) (inputs : list string) (horizon : Z)
    (years : option (list Z)) (default_year : option Z) :
  (forall e,
     load_and_transform_multi read_csv parse_number inputs years default_year
     = Err e ->
     run read_csv parse_number inputs horizon years default_year
     = Fail (Raised e)) /\
  (load_and_transform_multi read_csv parse_number inputs years default_year
   = Ok [] ->
   run read_csv parse_number inputs horizon years default_year
   = Fail (KeyError "tipe_kendaraan")) /\
  (forall summary detail,
     run read_csv parse_number inputs horizon years default_year
     = Done (summary, detail) ->
     exists out,
       load_and_transform_multi read_csv parse_number inputs years
         default_year = Ok out /\
       out <> [] /\
       forall c, In c (map sr_tipe summary) <-> In c (map tipe_kendaraan out)).
Proof.
  unfold run. split; [|split].
  - intros e ->. reflexivity.
  - intros ->. reflexivity.
  - intros summary detail H.
    destruct (load_and_transform_multi read_csv parse_number inputs years
                default_year) as [out|e] eqn:Hload; [|discriminate H].
    exists out. split; [reflexivity|].
    destruct (merge_inv read_csv parse_number _ _ _ _ Hload)
      as (ny & frames & _ & _ & Hall & Hout).
    assert (Hrows : Forall (fun r => exists year, loaded_row year r) out).
    { pose proof (load_all_rows read_csv parse_number _ _ Hall) as Hf.
      rewrite Forall_forall in *. intros r Hr. apply Hf.
      rewrite Hout in Hr. now apply sort_by_In in Hr. }
    destruct (observations_loaded out Hrows) as [Htipe _].
    split.
    + intros ->. discriminate H.
    + intros c.
      destruct (fit_trend_and_forecast_inv _ _ _ _ H)
        as (rows & _ & _ & Hkeys & _ & Hperm).
      assert (Hp : Permutation (map sr_tipe summary)
                     (group_keys (observations out))).
      { rewrite <- Hkeys. now apply Permutation_map. }
      rewrite <- Htipe.
      transitivity (In c (group_keys (observations out))).
      * split; apply Permutation_in; [exact Hp | apply Permutation_sym, Hp].
      * rewrite group_keys_In, in_map_iff.
        split; intros (o & H1 & H2); eauto.
Qed.

(** ** The summary of a small table *)

Lemma summary_order_witness :
  exists summary detail,
    fit_trend_and_forecast contoh_obs 2 = Done (summary, detail) /\
    map sr_tipe summary = ["Total"; "Jabodetabek"] /\
    map fst detail = ["Jabodetabek"; "Total"] /\
    NoDup (map sr_tipe summary).
Proof.
  eexists. eexists. split; [vm_compute; reflexivity|].
  split; [reflexivity|]. split; [reflexivity|].
  exact (proj1 (proj2 (summary_order contoh_obs 2 _ _ eq_refl))).
Defined.

Lemma summary_counts_witness :
  exists summary detail r,
    fit_trend_and_forecast contoh_obs 2 = Done (summary, detail) /\
    In r summary /\
    n_obs (sr_fit r) = Np.len (group (sr_tipe r) contoh_obs) /\
    (1 <= n_obs (sr_fit r))%Z.
Proof.
  eexists. eexists. eexists. split; [vm_compute; reflexivity|].
  split; [left; reflexivity|].
  destruct (summary_counts contoh_obs 2 _ _ _ eq_refl (or_introl eq_refl))
    as (grp & _ & _ & _ & Hn & H1).
  split; [exact Hn | exact H1].
Defined.

Lemma summary_builder_outcome_witness :
  exists summary detail,
    fit_trend_and_forecast contoh_obs 2 = Done (summary, detail) /\
    contoh_obs <> [] /\ summary <> [] /\
    List.length detail = List.length summary.
Proof.
  eexists. eexists. split; [vm_compute; reflexivity|].
  exact (proj2 (summary_builder_outcome contoh_obs 2) _ _ eq_refl).
Defined.

Lemma summary_next_columns_witness :
  exists summary detail r,
    fit_trend_and_forecast contoh_obs 2 = Done (summary, detail) /\
    In r summary /\
    exists labels o,
      In (sr_tipe r, (future_values (sr_fit r), labels)) detail /\
      List.length labels = Z.to_nat 2 /\
      List.length (future_values (sr_fit r)) = Z.to_nat 2 /\
      sr_next r = combine (map Some (future_values (sr_fit r))) labels /\
      In o contoh_obs /\ obs_tipe o = sr_tipe r /\
      (forall o', In o' contoh_obs -> obs_tipe o' = sr_tipe r ->
                  (ts_ord (obs_tanggal o') <= ts_ord (obs_tanggal o))%Z) /\
      _month_labels_after (obs_tanggal o) 2 = Done labels.
Proof.
  eexists. eexists. eexists. split; [vm_compute; reflexivity|].
  split; [left; reflexivity|].
  apply (summary_next_columns contoh_obs 2 _ _ _ eq_refl).
  left. reflexivity.
Defined.

Example summary_next_labels :
  exists summary detail,
    fit_trend_and_forecast contoh_obs 2 = Done (summary, detail) /\
    map (fun r => map snd (sr_next r)) summary
    = [["2025-Jan"; "2025-Feb"]; ["2025-Jan"; "2025-Feb"]].
Proof. eexists. eexists. split; vm_compute; reflexivity. Qed.

Lemma run_outcome_witness :
  exists summary detail out,
    run berkas_lain no_text_number ["a_2023.csv"; "b_2024.csv"] 2 None None
    = Done (summary, detail) /\
    load_and_transform_multi berkas_lain no_text_number
      ["a_2023.csv"; "b_2024.csv"] None None = Ok out /\
    out <> [] /\
    forall c, In c (map sr_tipe summary) <-> In c (map tipe_kendaraan out).
Proof.
  eexists. eexists.
  destruct (proj2 (proj2 (run_outcome berkas_lain no_text_number
                            ["a_2023.csv"; "b_2024.csv"] 2 None None))
              _ _ eq_refl) as (out & H1 & H2 & H3).
  exists out. split; [reflexivity|]. split; [exact H1|].
  split; [exact H2 | exact H3].
Defined.

(** ** Column names *)

Lemma remove_bom_clean (s : string) :
  string_forall not_bom_lead s = true -> Str.remove_bom s = s.
Proof.
  induction s as [|a r IH]; [reflexivity|].
  cbn [string_forall]. rewrite andb_true_iff. intros [Ha Hr].
  unfold not_bom_lead in Ha. apply negb_true_iff in Ha.
  cbn [Str.remove_bom]. rewrite Ha. cbn [andb].
  specialize (IH Hr). destruct r as [|b [|c r']]; now rewrite ?IH.
Qed.

Lemma remove_bom_skip (a : ascii) (r : string) :
  not_bom_lead a = true ->
  Str.remove_bom (String a r) = String a (Str.remove_bom r).
Proof.
  unfold not_bom_lead. intros Ha. apply negb_true_iff in Ha.
  cbn [Str.remove_bom]. rewrite Ha. cbn [andb].
  now destruct r as [|b [|c r']].
Qed.

Lemma remove_bom_prefix (s : string) :
  Str.remove_bom (BOM ++ s) = Str.remove_bom s.
Proof. reflexivity. Qed.

Lemma space_not_bom_lead (c : ascii) :
  Str.is_space c = true -> not_bom_lead c = true.
Proof.
  unfold Str.is_space, not_bom_lead. cbv zeta. intros H.
  apply negb_true_iff, Nat.eqb_neq. intros E. rewrite E in H. discriminate H.
Qed.

Lemma string_forall_app (p : ascii -> bool) (s t : string) :
  string_forall p (s ++ t) = string_forall p s && string_forall p t.
Proof.
  induction s as [|c s IH]; [reflexivity|].
  cbn [append string_forall]. now rewrite IH, andb_assoc.
Qed.

Lemma string_forall_impl (p q : ascii -> bool) (s : string) :
  (forall c, p c = true -> q c = true) ->
  string_forall p s = true -> string_forall q s = true.
Proof.
  intros H. induction s as [|c s IH]; [reflexivity|].
  cbn [string_forall]. rewrite !andb_true_iff. intros [Hc Hs]. auto.
Qed.

Lemma lstrip_spaces (pad s : string) :
  string_forall Str.is_space pad = true ->
  Str.lstrip (pad ++ s) = Str.lstrip s.
Proof.
  induction pad as [|c pad IH]; [reflexivity|].
  cbn [string_forall]. rewrite andb_true_iff. intros [Hc Hp].
  cbn [append Str.lstrip]. rewrite Hc. now apply IH.
Qed.

Lemma lstrip_all_spaces (pad : string) :
  string_forall Str.is_space pad = true -> Str.lstrip pad = EmptyString.
Proof.
  induction pad as [|c pad IH]; [reflexivity|].
  cbn [string_forall]. rewrite andb_true_iff. intros [Hc Hp].
  cbn [Str.lstrip]. now rewrite Hc, (IH Hp).
Qed.

Lemma remove_bom_skip_spaces (pad s : string) :
  string_forall Str.is_space pad = true ->
  Str.remove_bom (pad ++ s) = (pad ++ Str.remove_bom s)%string.
Proof.
  induction pad as [|c pad IH]; [reflexivity|].
  cbn [string_forall]. rewrite andb_true_iff. intros [Hc Hp].
  cbn [append]. rewrite remove_bom_skip by now apply space_not_bom_lead.
  now rewrite (IH Hp).
Qed.

Lemma rstrip_all_spaces (pad : string) :
  string_forall Str.is_space pad = true -> Str.rstrip pad = EmptyString.
Proof.
  induction pad as [|c pad IH]; [reflexivity|].
  cbn [string_forall]. rewrite andb_true_iff. intros [Hc Hp].
  cbn [Str.rstrip]. now rewrite (IH Hp), Hc.
Qed.

Lemma rstrip_spaces (s pad : string) :
  string_forall Str.is_space pad = true ->
  Str.rstrip (s ++ pad) = Str.rstrip s.
Proof.
  intros Hp. induction s as [|c s IH].
  - cbn [append]. now rewrite rstrip_all_spaces.
  - cbn [append Str.rstrip]. now rewrite IH.
Qed.

Lemma lstrip_length (s : string) :
  (String.length (Str.lstrip s) <= String.length s)%nat.
Proof.
  induction s as [|c s IH]; [simpl; lia|].
  cbn [Str.lstrip]. destruct (Str.is_space c); simpl in *; lia.
Qed.

Lemma lstrip_fixed_app (s t : string) :
  s <> EmptyString -> Str.lstrip s = s -> Str.lstrip (s ++ t) = (s ++ t)%string.
Proof.
  destruct s as [|c s]; [congruence|]. intros _.
  cbn [append Str.lstrip]. destruct (Str.is_space c); [|reflexivity].
  intros E. pose proof (lstrip_length s) as Hl. rewrite E in Hl.
  simpl in Hl. lia.
Qed.

(** X26: [_strip_bom_and_clean] recovers a column name from its decorated
    form: for a name of ASCII characters with no whitespace at either end,
    a byte-order mark and ASCII whitespace before it and ASCII whitespace
    after it are removed and the name itself is returned; such a name is
    left as it is. *)
Theorem strip_bom_and_clean_recovers (name before after : string) :
  ascii_text name = true ->
  Str.lstrip name = name -> Str.rstrip name = name ->
  string_forall Str.is_space before = true ->
  string_forall Str.is_space after = true ->
  _strip_bom_and_clean (BOM ++ before ++ name ++ after) = name /\
  _strip_bom_and_clean (before ++ BOM ++ name ++ after) = name /\
  _strip_bom_and_clean name = name.
Proof.
  intros Hascii Hl Hr Hb Ha.
  assert (Hn : string_forall not_bom_lead name = true).
  { revert Hascii. apply string_forall_impl. intros c Hc.
    unfold not_bom_lead. apply negb_true_iff, Nat.eqb_neq.
    apply Nat.ltb_lt in Hc. lia. }
  assert (Hclean : forall pad1 pad2,
            string_forall Str.is_space pad1 = true ->
            string_forall Str.is_space pad2 = true ->
            Str.strip (pad1 ++ name ++ pad2) = name).
  { intros pad1 pad2 H1 H2. unfold Str.strip. rewrite (lstrip_spaces _ _ H1).
    destruct name as [|c r] eqn:En.
    - cbn [append]. now rewrite (lstrip_all_spaces _ H2).
    - rewrite lstrip_fixed_app by (exact Hl || discriminate).
      now rewrite (rstrip_spaces _ _ H2). }
  assert (Hpad : forall pad, string_forall Str.is_space pad = true ->
                        string_forall not_bom_lead pad = true).
  { intros pad. apply string_forall_impl, space_not_bom_lead. }
  unfold _strip_bom_and_clean. split; [|split].
  - rewrite remove_bom_prefix, remove_bom_clean.
    + now apply Hclean.
    + rewrite !string_forall_app, Hn, (Hpad _ Hb), (Hpad _ Ha). reflexivity.
  - rewrite (remove_bom_skip_spaces _ _ Hb), remove_bom_prefix, remove_bom_clean.
    + now apply Hclean.
    + rewrite string_forall_app, Hn, (Hpad _ Ha). reflexivity.
  - rewrite (remove_bom_clean _ Hn).
    specialize (Hclean EmptyString EmptyString eq_refl eq_refl).
    cbn [append] in Hclean.
    assert (E : (name ++ EmptyString)%string = name).
    { clear. induction name as [|c r IH]; [reflexivity|].
      cbn [append]. now rewrite IH. }
    now rewrite E in Hclean.
Qed.

Lemma strip_bom_and_clean_recovers_witness :
  _strip_bom_and_clean (BOM ++ " " ++ "Januari" ++ "  ") = "Januari" /\
  _strip_bom_and_clean (" " ++ BOM ++ "Januari" ++ "  ") = "Januari" /\
  _strip_bom_and_clean "Januari" = "Januari".
Proof.
  apply (strip_bom_and_clean_recovers "Januari" " " "  ");
    vm_compute; reflexivity.
Defined.
